(** * A-Frame: property types and tracked controls

    A shallow embedding of [src/core/propertyTypes.js] and
    [src/components/tracked-controls.js], and the properties of the two
    modules that the specification states.

    JavaScript values are modelled with an explicit store: objects, arrays
    and DOM elements live in a heap and are referred to by location, so that
    identity ([===] on objects) and in-place mutation of shared objects are
    those of the source.  Numbers are IEEE 754 binary64 values
    ([spec_float]).  Strings are sequences of code units; the model covers
    code units below 256.  Objects have data properties, their own and
    those a read finds through the prototype chain; accessor properties and
    proxies are not modelled.

    Part I holds the definitions, Part II the properties, Part III the
    properties at sample inputs.  Part IV holds further properties of the
    two modules, read off the code, and Part V those at sample inputs. *)

From Stdlib Require Import ZArith String Ascii List Bool Lia.
From Stdlib Require Import Floats.SpecFloat.
From stdpp Require Import gmap strings list fin_maps.

Local Open Scope string_scope.
Local Open Scope list_scope.

(* ===================================================================== *)
(** * Part I: definitions                                                  *)
(* ===================================================================== *)

(** Function objects.  The functions of [propertyTypes.js] that are stored
    in type descriptors, the two functions imported from
    [utils/coordinates.js], the native [getAttribute] method of a DOM
    element, and functions defined elsewhere ([Fforeign]). *)
Inductive func :=
| FarrayParse | FarrayStringify | FarrayEquals
| FassetParse | FassetStringify
| FdefaultParse | FdefaultStringify | FdefaultEquals
| FboolParse | FintParse | FnumberParse
| FselectorParse | FselectorAllParse
| FselectorStringify | FselectorAllStringify
| FsrcParse | FvecParse
| FcoordinatesStringify | FcoordinatesEquals
| FgetAttribute
| Fforeign (n : nat).

Module JS.

(** ** Values and the store *)

Definition loc := positive.
Definition number := spec_float.

Inductive value :=
| VUndefined
| VNull
| VBool (b : bool)
| VNum (x : number)
| VStr (s : string)
| VRef (l : loc)
| VFun (f : func).

(** Heap objects: arrays, plain objects (own enumerable properties), DOM
    elements (tag name and attributes), and objects with properties that a
    read finds and [Object.keys] does not list: [props] are the own
    enumerable properties, [inherited] the properties found through the
    prototype chain or own and not enumerable. *)
Inductive obj :=
| OArray (items : list value)
| OObject (props : gmap string value)
| OElement (tagName : string) (attrs : list (string * string))
| ODerived (props inherited : gmap string value).

Abbreviation heap := (gmap loc obj).

(** Exceptions thrown by the modelled code. *)
Inductive exn :=
| TypeError
| SyntaxError
| Error (msg : string).

(** The outcome of a call: a value, a thrown exception, or [Unmodelled] when
    the call leaves the fragment of JavaScript that is modelled (a call of a
    foreign function, the string form of an object or of a number that is
    not an integer). *)
Inductive outcome (A : Type) :=
| Ok (a : A)
| Throw (e : exn)
| Unmodelled.
Arguments Ok {A} a.
Arguments Throw {A} e.
Arguments Unmodelled {A}.

Definition obind {A B} (o : outcome A) (k : A -> outcome B) : outcome B :=
  match o with
  | Ok a => k a
  | Throw e => Throw e
  | Unmodelled => Unmodelled
  end.

(** ** Numbers *)

Definition prec : Z := 53%Z.
Definition emax : Z := 1024%Z.

Definition NaN : number := S754_nan.
Definition zero : number := S754_zero false.

(** The binary64 value of an integer: exact below 2^53 (the mantissa is
    shifted to 53 bits), rounded to nearest even above. *)
Definition of_Z (z : Z) (szero : bool) : number :=
  match z with
  | Z0 => S754_zero szero
  | Zpos p =>
      if (Z.pos p <? 2 ^ prec)%Z
      then let d := (Z.log2 (Z.pos p) + 1)%Z in
           match Z.shiftl (Z.pos p) (prec - d) with
           | Zpos m => S754_finite false m (d - prec)
           | _ => S754_nan
           end
      else binary_normalize prec emax z 0 szero
  | Zneg p =>
      if (Z.pos p <? 2 ^ prec)%Z
      then let d := (Z.log2 (Z.pos p) + 1)%Z in
           match Z.shiftl (Z.pos p) (prec - d) with
           | Zpos m => S754_finite true m (d - prec)
           | _ => S754_nan
           end
      else binary_normalize prec emax z 0 szero
  end.

Definition num (z : Z) : value := VNum (of_Z z false).

(** The integer a finite number denotes, when it denotes one. *)
Definition to_Z (x : number) : option Z :=
  match x with
  | S754_zero _ => Some 0%Z
  | S754_finite s m e =>
      let a := match e with
               | Z0 => Some (Z.pos m)
               | Zpos k => Some (Z.shiftl (Z.pos m) (Z.pos k))
               | Zneg k =>
                   if (Z.pos m mod 2 ^ Z.pos k =? 0)%Z
                   then Some (Z.shiftr (Z.pos m) (Z.pos k)) else None
               end in
      (fun a => if s then (- a)%Z else a) <$> a
  | _ => None
  end.

(** [Number.isFinite(x)] *)
Definition isFinite (x : number) : bool :=
  match x with
  | S754_zero _ | S754_finite _ _ _ => true
  | S754_infinity _ | S754_nan => false
  end.

(** The doubles nearest to 0.5 and 0.3. *)
Definition num_0_5 : number := S754_finite false 4503599627370496 (-53)%Z.
Definition num_0_3 : number := S754_finite false 5404319552844595 (-54)%Z.

(** ** Operators *)

Definition func_eqb (f g : func) : bool :=
  match f, g with
  | FarrayParse, FarrayParse | FarrayStringify, FarrayStringify
  | FarrayEquals, FarrayEquals | FassetParse, FassetParse
  | FassetStringify, FassetStringify | FdefaultParse, FdefaultParse
  | FdefaultStringify, FdefaultStringify | FdefaultEquals, FdefaultEquals
  | FboolParse, FboolParse | FintParse, FintParse
  | FnumberParse, FnumberParse | FselectorParse, FselectorParse
  | FselectorAllParse, FselectorAllParse
  | FselectorStringify, FselectorStringify
  | FselectorAllStringify, FselectorAllStringify
  | FsrcParse, FsrcParse | FvecParse, FvecParse
  | FcoordinatesStringify, FcoordinatesStringify
  | FcoordinatesEquals, FcoordinatesEquals
  | FgetAttribute, FgetAttribute => true
  | Fforeign n, Fforeign m => Nat.eqb n m
  | _, _ => false
  end.

(** [a === b] *)
Definition strict_eq (a b : value) : bool :=
  match a, b with
  | VUndefined, VUndefined => true
  | VNull, VNull => true
  | VBool x, VBool y => Bool.eqb x y
  | VNum x, VNum y => SFeqb x y
  | VStr x, VStr y => String.eqb x y
  | VRef x, VRef y => Pos.eqb x y
  | VFun f, VFun g => func_eqb f g
  | _, _ => false
  end.

(** [a !== b] *)
Definition strict_neq (a b : value) : bool := negb (strict_eq a b).

(** ToBoolean *)
Definition truthy (v : value) : bool :=
  match v with
  | VUndefined | VNull => false
  | VBool b => b
  | VNum (S754_zero _) | VNum S754_nan => false
  | VNum _ => true
  | VStr s => negb (String.eqb s "")
  | VRef _ | VFun _ => true
  end.

Definition typeof (v : value) : string :=
  match v with
  | VUndefined => "undefined"
  | VNull => "object"
  | VBool _ => "boolean"
  | VNum _ => "number"
  | VStr _ => "string"
  | VRef _ => "object"
  | VFun _ => "function"
  end.

(** [Array.isArray(v)] *)
Definition isArray (h : heap) (v : value) : bool :=
  match v with
  | VRef l => match h !! l with Some (OArray _) => true | _ => false end
  | _ => false
  end.

(** A new object at a location not in use. *)
Definition alloc (h : heap) (o : obj) : loc * heap :=
  let l := fresh (dom h) in (l, <[l := o]> h).

(** [v.k] for a named property [k].  Reading a property of [undefined] or
    [null] throws; primitives have none of the properties the modelled code
    reads; an element has [tagName] and the native method [getAttribute]. *)
Definition getProp (h : heap) (v : value) (k : string) : outcome value :=
  match v with
  | VUndefined | VNull => Throw TypeError
  | VRef l =>
      match h !! l with
      | Some (OObject props) => Ok (default VUndefined (props !! k))
      | Some (OElement tag _) =>
          if String.eqb k "tagName" then Ok (VStr tag)
          else if String.eqb k "getAttribute" then Ok (VFun FgetAttribute)
          else Ok VUndefined
      | Some (OArray _) => Ok VUndefined
      | Some (ODerived props inherited) =>
          Ok (default (default VUndefined (inherited !! k)) (props !! k))
      | None => Unmodelled
      end
  | _ => Ok VUndefined
  end.

(** [v.k = x] on an object that has named properties. *)
Definition setProp (h : heap) (v : value) (k : string) (x : value) : outcome heap :=
  match v with
  | VRef l =>
      match h !! l with
      | Some (OObject props) => Ok (<[l := OObject (<[k := x]> props)]> h)
      | _ => Unmodelled
      end
  | _ => Throw TypeError
  end.

(** ** Strings *)

(** WhiteSpace and LineTerminator code units (below 256): the characters
    [trim], [parseInt] and [parseFloat] skip. *)
Definition isWhiteSpace (c : ascii) : bool :=
  let n := nat_of_ascii c in
  (n =? 9)%nat || (n =? 10)%nat || (n =? 11)%nat || (n =? 12)%nat ||
  (n =? 13)%nat || (n =? 32)%nat || (n =? 160)%nat.

(** LineTerminator code units, which [.] of a regular expression does not
    match. *)
Definition isLineTerminator (c : ascii) : bool :=
  let n := nat_of_ascii c in (n =? 10)%nat || (n =? 13)%nat.

Fixpoint trimStart (s : string) : string :=
  match s with
  | String c s' => if isWhiteSpace c then trimStart s' else s
  | EmptyString => EmptyString
  end.

Fixpoint trimEnd (s : string) : string :=
  match s with
  | String c s' =>
      match trimEnd s' with
      | EmptyString => if isWhiteSpace c then EmptyString else String c EmptyString
      | r => String c r
      end
  | EmptyString => EmptyString
  end.

(** [s.trim()] *)
Definition trim (s : string) : string := trimEnd (trimStart s).

(** [s.split(sep)] for a separator of one character. *)
Fixpoint split (sep : ascii) (s : string) : list string :=
  match s with
  | EmptyString => [EmptyString]
  | String c s' =>
      if Ascii.eqb c sep then EmptyString :: split sep s'
      else match split sep s' with
           | seg :: segs => String c seg :: segs
           | [] => [String c EmptyString]
           end
  end.

(** [Array.prototype.join] on the string forms of the elements. *)
Fixpoint join (sep : string) (l : list string) : string :=
  match l with
  | [] => EmptyString
  | [x] => x
  | x :: l' => x +:+ sep +:+ join sep l'
  end.

(** [s.charAt(0)] and [s.substring(1)] *)
Definition charAt0 (s : string) : string :=
  match s with String c _ => String c EmptyString | EmptyString => EmptyString end.

Definition substring1 (s : string) : string :=
  match s with String _ s' => s' | EmptyString => EmptyString end.

Fixpoint startsWith (p s : string) : bool :=
  match p, s with
  | EmptyString, _ => true
  | String a p', String b s' => Ascii.eqb a b && startsWith p' s'
  | _, EmptyString => false
  end.

Fixpoint dropChars (n : nat) (s : string) : string :=
  match n, s with
  | S n', String _ s' => dropChars n' s'
  | _, _ => s
  end.

(** Whether the character [c] occurs in [s]. *)
Fixpoint contains (c : ascii) (s : string) : bool :=
  match s with
  | String a s' => Ascii.eqb a c || contains c s'
  | EmptyString => false
  end.

(** ** Numbers and strings *)

Definition digitOf (c : ascii) : option Z :=
  let n := Z.of_nat (nat_of_ascii c) in
  if ((48 <=? n) && (n <=? 57))%Z then Some (n - 48)%Z else None.

Definition digitChar (d : Z) : ascii := ascii_of_nat (Z.to_nat (48 + d)).

(** The decimal digits at the head of [s], most significant first, and
    what follows them. *)
Fixpoint spanDigits (s : string) : list Z * string :=
  match s with
  | String c s' =>
      match digitOf c with
      | Some d => let '(ds, rest) := spanDigits s' in (d :: ds, rest)
      | None => ([], s)
      end
  | EmptyString => ([], EmptyString)
  end.

Definition digitsValue (ds : list Z) : Z :=
  fold_left (fun acc d => (10 * acc + d)%Z) ds 0%Z.

(** Reading digits with an accumulator: what [spanDigits] and
    [digitsValue] compute together. *)
Fixpoint consume (a : Z) (s : string) : Z * string :=
  match s with
  | String c s' =>
      match digitOf c with
      | Some d => consume (10 * a + d)%Z s'
      | None => (a, s)
      end
  | EmptyString => (a, EmptyString)
  end.

(** The decimal digits of [n >= 0], written before [acc]. *)
Fixpoint digitsBefore (fuel : nat) (n : Z) (acc : string) : string :=
  let acc' := String (digitChar (n mod 10)) acc in
  match fuel with
  | O => acc'
  | S fuel' => if (n <? 10)%Z then acc' else digitsBefore fuel' (n / 10) acc'
  end.

Definition digitsOf (n : Z) : string :=
  digitsBefore (Z.to_nat (Z.log2 n)) n EmptyString.

(** [z.toString()] for an integer. *)
Definition integerToString (z : Z) : string :=
  if (z <? 0)%Z then String "-" (digitsOf (- z)) else digitsOf z.

(** Number::toString(x), radix 10.  An integer below 2^53 in magnitude is
    written with its decimal digits, which are the shortest that read back
    as the number; the string of any other finite number (a fraction, or an
    integer from 2^53 on, whose digits are rounded) is not modelled. *)
Definition numberToString (x : number) : outcome string :=
  match x with
  | S754_nan => Ok "NaN"
  | S754_infinity s => Ok (if s then "-Infinity" else "Infinity")
  | S754_zero _ => Ok "0"
  | S754_finite _ _ _ =>
      match to_Z x with
      | Some z => if (Z.abs z <? 2 ^ 53)%Z then Ok (integerToString z) else Unmodelled
      | None => Unmodelled
      end
  end.

(** A leading sign. *)
Definition signOf (s : string) : bool * string :=
  match s with
  | String "-" s' => (true, s')
  | String "+" s' => (false, s')
  | _ => (false, s)
  end.

(** [parseInt(s, 10)] on a string. *)
Definition parseInt (s : string) : number :=
  let '(neg, s1) := signOf (trimStart s) in
  match spanDigits s1 with
  | ([], _) => NaN
  | (ds, _) => of_Z (if neg then - digitsValue ds else digitsValue ds) neg
  end.

(** The number nearest to [m * 10^e10], with the sign [neg]. *)
Definition decimalToNumber (neg : bool) (m : Z) (e10 : Z) : number :=
  match m with
  | Zpos p =>
      match e10 with
      | Zneg k => SFdiv prec emax (S754_finite neg p 0) (S754_finite false (10 ^ k) 0)
      | _ => of_Z ((if neg then - m else m) * 10 ^ e10) neg
      end
  | _ => S754_zero neg
  end.

(** [parseFloat(s)] on a string: the longest prefix that is a decimal
    literal, after leading white space. *)
Definition parseFloat (s : string) : number :=
  let '(neg, s1) := signOf (trimStart s) in
  if startsWith "Infinity" s1 then S754_infinity neg
  else
    let '(ip, r1) := spanDigits s1 in
    let '(fp, r2) := match r1 with
                     | String "." r => spanDigits r
                     | _ => ([], r1)
                     end in
    match ip ++ fp with
    | [] => NaN
    | ds =>
        let ex := match r2 with
                  | String c r =>
                      if Ascii.eqb c "e" || Ascii.eqb c "E"
                      then let '(eneg, r') := signOf r in
                           match spanDigits r' with
                           | ([], _) => 0%Z
                           | (eds, _) => if eneg then (- digitsValue eds)%Z else digitsValue eds
                           end
                      else 0%Z
                  | EmptyString => 0%Z
                  end in
        decimalToNumber neg (digitsValue ds) (ex - Z.of_nat (length fp))
    end.

(** ToString(v) of a primitive; the string form of an object or function is
    not modelled. *)
Definition toStringPrim (v : value) : outcome string :=
  match v with
  | VUndefined => Ok "undefined"
  | VNull => Ok "null"
  | VBool b => Ok (if b then "true" else "false")
  | VNum x => numberToString x
  | VStr s => Ok s
  | VRef _ | VFun _ => Unmodelled
  end.

Fixpoint omap {A B} (f : A -> outcome B) (l : list A) : outcome (list B) :=
  match l with
  | [] => Ok []
  | x :: l' => obind (f x) (fun y => obind (omap f l') (fun ys => Ok (y :: ys)))
  end.

(** [items.join(sep)]: [undefined] and [null] elements are written as the
    empty string. *)
Definition joinValues (sep : string) (items : list value) : outcome string :=
  obind (omap (fun v => match v with
                        | VUndefined | VNull => Ok EmptyString
                        | _ => toStringPrim v
                        end) items)
        (fun strs => Ok (join sep strs)).

(** ** A state and exception monad *)

Definition M (S A : Type) : Type := S -> outcome A * S.

Definition ret {S A} (a : A) : M S A := fun s => (Ok a, s).

Definition bind {S A B} (m : M S A) (k : A -> M S B) : M S B :=
  fun s => match m s with
           | (Ok a, s') => k a s'
           | (Throw e, s') => (Throw e, s')
           | (Unmodelled, s') => (Unmodelled, s')
           end.

#[export] Instance M_ret {S} : MRet (M S) := @ret S.
#[export] Instance M_bind {S} : MBind (M S) := fun A B k m => bind m k.

Definition get {S A} (f : S -> A) : M S A := fun s => (Ok (f s), s).
Definition modify {S} (f : S -> S) : M S unit := fun s => (Ok tt, f s).
Definition throw {S A} (e : exn) : M S A := fun s => (Throw e, s).
Definition lift {S A} (o : outcome A) : M S A := fun s => (o, s).

End JS.

(* ===================================================================== *)
(** ** [src/core/propertyTypes.js]                                         *)
(* ===================================================================== *)

Module PropertyTypes.
Import JS.

(** A registered property type.  [dflt] is the property [default]; [parse],
    [stringify] and [equals] hold function objects. *)
Record descriptor := {
  dflt : value;
  parse : value;
  stringify : value;
  equals : value;
  isCacheable : bool
}.

(** What the module reads and writes: the store, the elements of the
    document in document order, the messages passed to [warn], and the
    module variable [propertyTypes]. *)
Record world := {
  store : heap;
  document : list loc;
  warned : list string;
  propertyTypes : gmap string descriptor
}.

Abbreviation M := (JS.M world).

Definition set_store (h : heap) (w : world) : world :=
  {| store := h; document := document w; warned := warned w;
     propertyTypes := propertyTypes w |}.

Definition set_propertyTypes (r : gmap string descriptor) (w : world) : world :=
  {| store := store w; document := document w; warned := warned w;
     propertyTypes := r |}.

Definition withStore {A} (f : heap -> outcome A) : M A := fun w => (f (store w), w).

Definition new (o : obj) : M value :=
  fun w => let '(l, h) := alloc (store w) o in (Ok (VRef l), set_store h w).

(** [warn(msg)] *)
Definition warn (msg : string) : M unit :=
  modify (fun w => {| store := store w; document := document w;
                      warned := warned w ++ [msg];
                      propertyTypes := propertyTypes w |}).

(** *** The DOM *)

Fixpoint attribute (attrs : list (string * string)) (name : string) : option string :=
  match attrs with
  | [] => None
  | (k, v) :: attrs' => if String.eqb k name then Some v else attribute attrs' name
  end.

(** [document.getElementById(id)]: the first element of the document with
    that [id], or [null]. *)
Fixpoint firstWithId (h : heap) (doc : list loc) (id : string) : value :=
  match doc with
  | [] => VNull
  | l :: doc' =>
      match h !! l with
      | Some (OElement _ attrs) =>
          match attribute attrs "id" with
          | Some i => if String.eqb i id then VRef l else firstWithId h doc' id
          | None => firstWithId h doc' id
          end
      | _ => firstWithId h doc' id
      end
  end.

Definition getElementById (id : string) : M value :=
  fun w => (Ok (if String.eqb id "" then VNull else firstWithId (store w) (document w) id), w).

(** [v.getAttribute(name)]: the attribute or [null] on an element; a
    [TypeError] when [v] has no such method. *)
Definition getAttribute (h : heap) (v : value) (name : string) : outcome value :=
  obind (getProp h v "getAttribute") (fun m =>
    match m with
    | VFun FgetAttribute =>
        match v with
        | VRef l =>
            match h !! l with
            | Some (OElement _ attrs) =>
                Ok (match attribute attrs name with Some a => VStr a | None => VNull end)
            | _ => Unmodelled
            end
        | _ => Unmodelled
        end
    | VFun _ => Unmodelled
    | _ => Throw TypeError
    end).

(** ['#' + v] *)
Definition hashPlus (v : value) : outcome value :=
  obind (toStringPrim v) (fun s => Ok (VStr ("#" +:+ s))).

(** *** Regular expressions *)

(** [nonCharRegex = /[,> .[\]:]/] *)
Definition isNonChar (c : ascii) : bool :=
  existsb (Ascii.eqb c) ["," ; ">" ; " " ; "." ; "[" ; "]" ; ":"]%char.

Fixpoint nonCharRegex_test (s : string) : bool :=
  match s with
  | String c s' => isNonChar c || nonCharRegex_test s'
  | EmptyString => false
  end.

(** The characters [.+] can run over at the head of [s]. *)
Fixpoint lineRun (s : string) : string :=
  match s with
  | String c s' => if isLineTerminator c then EmptyString else String c (lineRun s')
  | EmptyString => EmptyString
  end.

(** The part of [run] before its last [")"]. *)
Fixpoint beforeLastParen (run : string) : option string :=
  match run with
  | String c r =>
      match beforeLastParen r with
      | Some g => Some (String c g)
      | None => if Ascii.eqb c ")" then Some EmptyString else None
      end
  | EmptyString => None
  end.

(** [value.match(urlRegex)] with [urlRegex = /url\((.+)\)/]: the first
    group of the leftmost match, the group being as long as it can. *)
Fixpoint urlRegex_match (s : string) : option string :=
  match s with
  | String _ s' =>
      if startsWith "url(" s
      then match beforeLastParen (lineRun (dropChars 4 s)) with
           | Some (String c g) => Some (String c g)
           | _ => urlRegex_match s'
           end
      else urlRegex_match s'
  | EmptyString => None
  end.

(** The string of one double quote. *)
Definition dquote : string :=
  String (Ascii false true false false false true false false) EmptyString.

(** *** The functions of the module *)

Definition defaultParse (value : value) : M JS.value := mret value.

(** [value.toString()] *)
Definition toStringMethod (h : heap) (v : value) : outcome string :=
  match v with
  | VUndefined | VNull => Throw TypeError
  | VRef l =>
      match h !! l with
      | Some (OArray items) => joinValues "," items
      | Some (OObject props) =>
          match props !! "toString" with
          | None => Ok "[object Object]"
          | Some _ => Unmodelled
          end
      | _ => Unmodelled
      end
  | _ => toStringPrim v
  end.

Definition defaultStringify (value : value) : M JS.value :=
  if strict_eq value VNull then mret (VStr "null")
  else withStore (fun h => obind (toStringMethod h value) (fun s => Ok (VStr s))).

Definition defaultEquals (a b : value) : M value := mret (VBool (strict_eq a b)).

Definition arrayParse (value : value) : M JS.value :=
  isArr ← withStore (fun h => Ok (isArray h value));
  if isArr : bool then mret value
  else if negb (truthy value) || negb (String.eqb (typeof value) "string")
  then new (OArray [])
  else match value with
       | VStr s => new (OArray (VStr <$> map trim (split "," s)))
       | _ => lift Unmodelled
       end.

(** [value.join(', ')]; a value without [join] makes the call throw. *)
Definition arrayStringify (value : value) : M JS.value :=
  withStore (fun h =>
    match value with
    | VRef l =>
        match h !! l with
        | Some (OArray items) => obind (joinValues ", " items) (fun s => Ok (VStr s))
        | Some (OObject props) =>
            match props !! "join" with
            | None => Throw TypeError
            | Some _ => Unmodelled
            end
        | Some (OElement _ _) => Throw TypeError
        | Some (ODerived props inherited) =>
            match props !! "join", inherited !! "join" with
            | None, None => Throw TypeError
            | _, _ => Unmodelled
            end
        | None => Unmodelled
        end
    | _ => Throw TypeError
    end).

(** The loop of [arrayEquals]: [a[i] !== b[i]] for the items of [a] from
    index [i] on. *)
Fixpoint itemsEqualFrom (a b : list value) (i : nat) : bool :=
  match a with
  | [] => true
  | x :: a' =>
      if strict_neq x (default VUndefined (b !! i)) then false
      else itemsEqualFrom a' b (S i)
  end.

Definition arrayEquals (a b : value) : M value :=
  withStore (fun h =>
    if negb (isArray h a) || negb (isArray h b) then Ok (VBool (strict_eq a b))
    else
      match a, b with
      | VRef la, VRef lb =>
          match h !! la, h !! lb with
          | Some (OArray xs), Some (OArray ys) =>
              if negb (length xs =? length ys)%nat then Ok (VBool false)
              else Ok (VBool (itemsEqualFrom xs ys 0))
          | _, _ => Unmodelled
          end
      | _, _ => Unmodelled
      end).

Definition isMediaTag (tag : value) : bool :=
  strict_eq tag (VStr "CANVAS") || strict_eq tag (VStr "VIDEO") || strict_eq tag (VStr "IMG").

Definition assetParse (value : value) : M JS.value :=
  (* If an element was provided (e.g. canvas or video), just return it. *)
  match value with
  | VStr s =>
      (* Wrapped `url()` in case of data URI. *)
      match urlRegex_match s with
      | Some group => mret (VStr group)
      | None =>
          (* ID. *)
          if String.eqb (charAt0 s) "#" then
            el ← getElementById (substring1 s);
            if truthy el then
              tag ← withStore (fun h => getProp h el "tagName");
              if isMediaTag tag then mret el
              else withStore (fun h => getAttribute h el "src")
            else
              warn (dquote +:+ s +:+ dquote +:+ " asset not found.");;
              mret VUndefined
          else
            (* Non-wrapped url(). *)
            mret value
      end
  | _ => mret value
  end.

Definition assetStringify (value : value) : M JS.value :=
  m ← withStore (fun h => getProp h value "getAttribute");
  if truthy m then
    id ← withStore (fun h => getAttribute h value "id");
    if truthy id then
      id' ← withStore (fun h => getAttribute h value "id");
      lift (hashPlus id')
    else
      withStore (fun h => getAttribute h value "src")
  else defaultStringify value.

Definition boolParse (value : value) : M JS.value :=
  mret (VBool (strict_neq value (VStr "false") && strict_neq value (VBool false))).

Definition intParse (value : value) : M JS.value :=
  lift (obind (toStringPrim value) (fun s => Ok (VNum (parseInt s)))).

Definition numberParse (value : value) : M JS.value :=
  lift (obind (toStringPrim value) (fun s => Ok (VNum (parseFloat s)))).

Definition srcParse (value : value) : M JS.value :=
  warn "`src` property type is deprecated. Use `asset` instead.";;
  assetParse value.

Definition selectorStringify (value : value) : M JS.value :=
  m ← withStore (fun h => getProp h value "getAttribute");
  if truthy m then
    id ← withStore (fun h => getAttribute h value "id");
    lift (hashPlus id)
  else defaultStringify value.

Definition selectorAllStringify (value : value) : M JS.value :=
  isArr ← withStore (fun h => Ok (isArray h value));
  if isArr : bool then
    withStore (fun h =>
      match value with
      | VRef l =>
          match h !! l with
          | Some (OArray items) =>
              obind (omap (fun element => obind (getAttribute h element "id") hashPlus) items)
                    (fun ids => obind (joinValues ", " ids) (fun s => Ok (VStr s)))
          | _ => Unmodelled
          end
      | _ => Unmodelled
      end)
  else defaultStringify value.

Section Selectors.

(** [document.querySelectorAll(selector)]: the matching elements in
    document order, or the [SyntaxError] of a selector that is not valid.
    The selector engine is the platform's. *)
Variable querySelectorAll : heap -> list loc -> string -> outcome (list loc).

Definition document_querySelectorAll (selector : string) : M (list loc) :=
  fun w => (querySelectorAll (store w) (document w) selector, w).

(** [document.querySelector(selector)]: the first match or [null]. *)
Definition document_querySelector (selector : string) : M value :=
  ls ← document_querySelectorAll selector;
  mret (match ls with l :: _ => VRef l | [] => VNull end).

Definition selectorParse (value : value) : M JS.value :=
  if negb (truthy value) then mret VNull
  else match value with
       | VStr s =>
           if String.eqb (charAt0 s) "#" && negb (nonCharRegex_test s)
           then
             (* When selecting element by ID only, use getElementById for better
                performance.  Don't match like #myId .child. *)
             getElementById (substring1 s)
           else document_querySelector s
       | _ => mret value
       end.

Definition selectorAllParse (value : value) : M JS.value :=
  if negb (truthy value) then mret VNull
  else match value with
       | VStr s =>
           ls ← document_querySelectorAll s;
           new (OArray (VRef <$> ls))
       | _ => mret value
       end.

End Selectors.

(** *** [utils/coordinates.js]

    The module imports [parse], [stringify] and [equals] from
    [utils/coordinates.js], which is not among the sources; this part is
    modelled from the specification. *)

(** Modelled from the spec: the names of the components, in their fixed
    order. *)
Definition COORDINATE_KEYS : list string := ["x"; "y"; "z"; "w"].

(** Modelled from the spec: the separators of the components in a string,
    commas and white space. *)
Definition isSeparator (c : ascii) : bool := Ascii.eqb c "," || isWhiteSpace c.

(** Modelled from the spec: the token that starts at the head of [s] and
    the tokens after it. *)
Fixpoint tokensFrom (s : string) : string * list string :=
  match s with
  | String c s' =>
      let '(cur, rest) := tokensFrom s' in
      if isSeparator c
      then (EmptyString, if String.eqb cur "" then rest else cur :: rest)
      else (String c cur, rest)
  | EmptyString => (EmptyString, [])
  end.

(** Modelled from the spec: the numbers written in a string, as they are
    separated. *)
Definition tokens (s : string) : list string :=
  let '(cur, rest) := tokensFrom s in
  if String.eqb cur "" then rest else cur :: rest.

(** Modelled from the spec: the components given by [given], by key, over
    those of [defaults]. *)
Fixpoint components (keys : list string) (given defaults : string -> value)
    : gmap string value :=
  match keys with
  | [] => ∅
  | k :: keys' =>
      let rest := components keys' given defaults in
      if negb (strict_eq (given k) VUndefined) then <[k := given k]> rest
      else if negb (strict_eq (defaults k) VUndefined) then <[k := defaults k]> rest
      else rest
  end.

(** The named properties of an object. *)
Definition propsOf (h : heap) (v : value) : option (gmap string value) :=
  match v with
  | VRef l => match h !! l with Some (OObject props) => Some props | _ => None end
  | _ => None
  end.

(** Modelled from the spec: the number written for the component [k]. *)
Fixpoint tokenAt (keys : list string) (toks : list string) (k : string) : value :=
  match keys, toks with
  | k' :: keys', t :: toks' =>
      if String.eqb k k' then VNum (parseFloat t) else tokenAt keys' toks' k
  | _, _ => VUndefined
  end.

(** Modelled from the spec: [coordinates.parse] of [utils/coordinates.js],
    which is not among the sources.  It accepts a string of comma- or
    space-separated numbers or a structured vector; the components that the
    input does not specify keep the default component values. *)
Definition coordinates_parse (value defaultVec : value) : M JS.value :=
  h ← get store;
  let defaults k := match propsOf h defaultVec with
                    | Some d => default VUndefined (d !! k)
                    | None => VUndefined
                    end in
  match value with
  | VStr s => new (OObject (components COORDINATE_KEYS (tokenAt COORDINATE_KEYS (tokens s)) defaults))
  | _ =>
      match propsOf h value with
      | Some v => new (OObject (components COORDINATE_KEYS
                                  (fun k => default VUndefined (v !! k)) defaults))
      | None =>
          match propsOf h defaultVec with
          | Some _ => new (OObject (components COORDINATE_KEYS (fun _ => VUndefined) defaults))
          | None => mret defaultVec
          end
      end
  end.

(** Modelled from the spec: [coordinates.stringify] of
    [utils/coordinates.js], which is not among the sources.  The components
    are joined in the fixed order x, y[, z[, w]]; the separator is taken to
    be one space. *)
Definition coordinates_stringify (value : value) : M JS.value :=
  withStore (fun h =>
    obind (getProp h value "x") (fun x =>
    obind (getProp h value "y") (fun y =>
    obind (getProp h value "z") (fun z =>
    obind (getProp h value "w") (fun w =>
    let comps := if strict_eq z VUndefined then [x; y]
                 else if strict_eq w VUndefined then [x; y; z]
                 else [x; y; z; w] in
    obind (joinValues " " comps) (fun s => Ok (VStr s))))))).

(** Modelled from the spec: [coordinates.equals] of [utils/coordinates.js],
    which is not among the sources.  Two vectors are compared component by
    component. *)
Definition coordinates_equals (a b : value) : M value :=
  withStore (fun h =>
    obind (omap (fun k => obind (getProp h a k) (fun x =>
                          obind (getProp h b k) (fun y => Ok (strict_eq x y))))
                COORDINATE_KEYS)
          (fun eqs => Ok (VBool (forallb id eqs)))).

(** [vecParse] passes its arguments on; the model of [coordinates.parse]
    makes a new object and does not use [target]. *)
Definition vecParse (value defaultValue target : value) : M JS.value :=
  coordinates_parse value defaultValue.

(** *** The registry *)

(** The properties every object inherits from [Object.prototype], which
    the [in] operator finds on [propertyTypes] as well. *)
Definition objectPrototypeKeys : list string :=
  ["constructor"; "__defineGetter__"; "__defineSetter__"; "hasOwnProperty";
   "__lookupGetter__"; "__lookupSetter__"; "isPrototypeOf";
   "propertyIsEnumerable"; "toString"; "valueOf"; "__proto__"; "toLocaleString"].

(** [type in propertyTypes] *)
Definition inPropertyTypes (type : string) (r : gmap string descriptor) : bool :=
  bool_decide (is_Some (r !! type)) || existsb (String.eqb type) objectPrototypeKeys.

(** [a || b] *)
Definition orElse (a b : value) : value := if truthy a then a else b.

Definition registerPropertyType
    (type : string) (defaultValue parse stringify equals cacheable : value) : M unit :=
  r ← get propertyTypes;
  if inPropertyTypes type r
  then throw (Error ("Property type " +:+ type +:+ " is already registered."))
  else
    modify (set_propertyTypes
      (<[type := {| dflt := defaultValue;
                    parse := orElse parse (VFun FdefaultParse);
                    stringify := orElse stringify (VFun FdefaultStringify);
                    equals := orElse equals (VFun FdefaultEquals);
                    isCacheable := strict_neq cacheable (VBool false) |}]> r)).

Definition vector (comps : list (string * Z)) : obj :=
  OObject (list_to_map ((fun '(k, z) => (k, num z)) <$> comps)).

(** Built-in property types: the calls the module makes when it is loaded.
    A call with fewer arguments passes [undefined] for the others. *)
Definition registerBuiltins : M unit :=
  let u := VUndefined in
  registerPropertyType "audio" (VStr "") (VFun FassetParse) (VFun FassetStringify) u u;;
  a ← new (OArray []);
  registerPropertyType "array" a (VFun FarrayParse) (VFun FarrayStringify) (VFun FarrayEquals) u;;
  registerPropertyType "asset" (VStr "") (VFun FassetParse) (VFun FassetStringify) u u;;
  registerPropertyType "boolean" (VBool false) (VFun FboolParse) u u u;;
  registerPropertyType "color" (VStr "#FFF") u u u u;;
  registerPropertyType "int" (num 0) (VFun FintParse) u u u;;
  registerPropertyType "number" (num 0) (VFun FnumberParse) u u u;;
  registerPropertyType "map" (VStr "") (VFun FassetParse) (VFun FassetStringify) u u;;
  registerPropertyType "model" (VStr "") (VFun FassetParse) (VFun FassetStringify) u u;;
  registerPropertyType "selector" VNull (VFun FselectorParse) (VFun FselectorStringify)
    (VFun FdefaultEquals) (VBool false);;
  registerPropertyType "selectorAll" VNull (VFun FselectorAllParse)
    (VFun FselectorAllStringify) (VFun FarrayEquals) (VBool false);;
  registerPropertyType "src" (VStr "") (VFun FsrcParse) (VFun FassetStringify) u u;;
  registerPropertyType "string" (VStr "") u u u u;;
  registerPropertyType "time" (num 0) (VFun FintParse) u u u;;
  v2 ← new (vector [("x", 0); ("y", 0)]%Z);
  registerPropertyType "vec2" v2 (VFun FvecParse) (VFun FcoordinatesStringify)
    (VFun FcoordinatesEquals) u;;
  v3 ← new (vector [("x", 0); ("y", 0); ("z", 0)]%Z);
  registerPropertyType "vec3" v3 (VFun FvecParse) (VFun FcoordinatesStringify)
    (VFun FcoordinatesEquals) u;;
  v4 ← new (vector [("x", 0); ("y", 0); ("z", 0); ("w", 1)]%Z);
  registerPropertyType "vec4" v4 (VFun FvecParse) (VFun FcoordinatesStringify)
    (VFun FcoordinatesEquals) u.

(** *** Validation of default values *)

(** [Object.keys(v).length] *)
Definition keysLength (h : heap) (v : value) : outcome nat :=
  match v with
  | VUndefined | VNull => Throw TypeError
  | VRef l =>
      match h !! l with
      | Some (OObject props) => Ok (size props)
      | Some (OArray items) => Ok (length items)
      | Some (OElement _ _) => Ok 0
      | Some (ODerived props _) => Ok (size props)
      | None => Unmodelled
      end
  | VStr s => Ok (String.length s)
  | _ => Ok 0
  end.

Definition isNumber (v : value) : bool := String.eqb (typeof v) "number".

Definition isValidDefaultCoordinate (h : heap) (possibleCoordinates : value)
    (dimensions : nat) : outcome bool :=
  if strict_eq possibleCoordinates VNull then Ok true
  else if negb (String.eqb (typeof possibleCoordinates) "object") then Ok false
  else
    obind (keysLength h possibleCoordinates) (fun n =>
    if negb (n =? dimensions)%nat then Ok false
    else
      obind (getProp h possibleCoordinates "x") (fun x =>
      obind (getProp h possibleCoordinates "y") (fun y =>
      obind (getProp h possibleCoordinates "z") (fun z =>
      obind (getProp h possibleCoordinates "w") (fun w =>
      if negb (isNumber x) || negb (isNumber y) then Ok false
      else if (2 <? dimensions)%nat && negb (isNumber z) then Ok false
      else if (3 <? dimensions)%nat && negb (isNumber w) then Ok false
      else Ok true))))).

Definition isValidDefaultValue (h : heap) (type : string) (defaultVal : value)
    : outcome bool :=
  let ty t := String.eqb type t in
  let notA t := negb (String.eqb (typeof defaultVal) t) in
  if ty "audio" && notA "string" then Ok false
  else if ty "array" && negb (isArray h defaultVal) then Ok false
  else if ty "asset" && notA "string" then Ok false
  else if ty "boolean" && notA "boolean" then Ok false
  else if ty "color" && notA "string" then Ok false
  else if ty "int" && notA "number" then Ok false
  else if ty "number" && notA "number" then Ok false
  else if ty "map" && notA "string" then Ok false
  else if ty "model" && notA "string" then Ok false
  else if ty "selector" && notA "string" && strict_neq defaultVal VNull then Ok false
  else if ty "selectorAll" && notA "string" && strict_neq defaultVal VNull then Ok false
  else if ty "src" && notA "string" then Ok false
  else if ty "string" && notA "string" then Ok false
  else if ty "time" && notA "number" then Ok false
  else if ty "vec2" then isValidDefaultCoordinate h defaultVal 2
  else if ty "vec3" then isValidDefaultCoordinate h defaultVal 3
  else if ty "vec4" then isValidDefaultCoordinate h defaultVal 4
  else Ok true.

Section Calls.

Variable querySelectorAll : heap -> list loc -> string -> outcome (list loc).

(** A call [f(args)] of a function object; parameters without an argument
    are [undefined]. *)
Definition call (f : value) (args : list value) : M value :=
  let arg i := nth i args VUndefined in
  match f with
  | VFun FarrayParse => arrayParse (arg 0)
  | VFun FarrayStringify => arrayStringify (arg 0)
  | VFun FarrayEquals => arrayEquals (arg 0) (arg 1)
  | VFun FassetParse => assetParse (arg 0)
  | VFun FassetStringify => assetStringify (arg 0)
  | VFun FdefaultParse => defaultParse (arg 0)
  | VFun FdefaultStringify => defaultStringify (arg 0)
  | VFun FdefaultEquals => defaultEquals (arg 0) (arg 1)
  | VFun FboolParse => boolParse (arg 0)
  | VFun FintParse => intParse (arg 0)
  | VFun FnumberParse => numberParse (arg 0)
  | VFun FselectorParse => selectorParse querySelectorAll (arg 0)
  | VFun FselectorAllParse => selectorAllParse querySelectorAll (arg 0)
  | VFun FselectorStringify => selectorStringify (arg 0)
  | VFun FselectorAllStringify => selectorAllStringify (arg 0)
  | VFun FsrcParse => srcParse (arg 0)
  | VFun FvecParse => vecParse (arg 0) (arg 1) (arg 2)
  | VFun FcoordinatesStringify => coordinates_stringify (arg 0)
  | VFun FcoordinatesEquals => coordinates_equals (arg 0) (arg 1)
  | VFun FgetAttribute | VFun (Fforeign _) => lift Unmodelled
  | _ => throw TypeError
  end.

(** [equals(parse(stringify(x), default), x)] with the functions of the
    type registered as [type]; [parse] is given the default of the type as
    the property system gives it. *)
Definition roundTrip (type : string) (x : value) : M value :=
  r ← get propertyTypes;
  match r !! type with
  | None => throw TypeError
  | Some d =>
      str ← call (stringify d) [x];
      y ← call (parse d) [str; dflt d];
      call (equals d) [y; x]
  end.

End Calls.

(** *** The module once loaded *)

Definition emptyWorld : world :=
  {| store := ∅; document := []; warned := []; propertyTypes := ∅ |}.

(** The world after the module has been loaded into an empty one. *)
Definition builtinWorld : world := snd (registerBuiltins emptyWorld).

(** A world in which the module has been loaded: the registry is the one of
    the built-in types. *)
Definition loaded (w : world) : Prop :=
  propertyTypes w = propertyTypes builtinWorld.



(** *** What is observed of a call *)

(** The items of the array a call returned, read in the world it left. *)
Definition resultItems (r : outcome value * world) : option (list value) :=
  match r with
  | (Ok (VRef l), w) =>
      match store w !! l with Some (OArray items) => Some items | _ => None end
  | _ => None
  end.

(** An object whose own properties are exactly [keys], each a number. *)
Definition isVectorOf (h : heap) (v : value) (keys : list string) : Prop :=
  exists (l : loc) (props : gmap string value),
    v = VRef l /\ h !! l = Some (OObject props) /\
    dom props = list_to_set keys /\
    forall k, k ∈ keys -> exists x, props !! k = Some (VNum x).

(** An object whose own properties are exactly [keys], each a finite
    number: a vector value as the specification describes it. *)
Definition isFiniteVectorOf (h : heap) (v : value) (keys : list string) : Prop :=
  exists (l : loc) (props : gmap string value),
    v = VRef l /\ h !! l = Some (OObject props) /\
    dom props = list_to_set keys /\
    forall k, k ∈ keys -> exists x, props !! k = Some (VNum x) /\ isFinite x = true.

(** What the validator reads of a vector: a value of type object with as
    many own enumerable properties as [keys] has names, each property named
    in [keys] reading as a number, whether it is an own property or one
    found through the prototype chain. *)
Definition readsAsVector (h : heap) (v : value) (keys : list string) : Prop :=
  typeof v = "object" /\ keysLength h v = Ok (length keys) /\
  forall k, k ∈ keys -> exists x, getProp h v k = Ok (VNum x).

(** The keys of the vector type named [type]. *)
Definition vectorKeys (type : string) : option (list string) :=
  if String.eqb type "vec2" then Some ["x"; "y"]
  else if String.eqb type "vec3" then Some ["x"; "y"; "z"]
  else if String.eqb type "vec4" then Some ["x"; "y"; "z"; "w"]
  else None.

(** A store with the objects [{x: NaN, y: 0, z: 0}] and [{x: 0, y: 0}]. *)
Definition vectorsHeap : heap :=
  <[1%positive := OObject (<["x" := VNum NaN]> (<["y" := num 0]> (<["z" := num 0]> ∅)))]>
    (<[2%positive := OObject (<["x" := num 0]> (<["y" := num 0]> ∅))]> ∅).

(** A store with the object [Object.create({z: 0})] given the own
    properties [x], [y] and [q]. *)
Definition derivedHeap : heap :=
  <[1%positive := ODerived (<["x" := num 0]> (<["y" := num 0]> (<["q" := num 0]> ∅)))
                           (<["z" := num 0]> ∅)]> ∅.

(** The error of a second registration of [type]. *)
Definition alreadyRegistered (type : string) : exn :=
  Error ("Property type " +:+ type +:+ " is already registered.").

(** *** Sample worlds *)

(** The loaded module with a document of two elements, [#a] and [#b], an
    array of both, an array of two strings and an empty array in the
    store. *)
Definition sampleWorld : world :=
  let h := store builtinWorld in
  {| store := <[10%positive := OElement "IMG" [("id", "a"); ("src", "a.png")]]>
              (<[11%positive := OElement "DIV" [("id", "b")]]>
              (<[12%positive := OArray [VRef 10%positive; VRef 11%positive]]>
              (<[13%positive := OArray [VStr "a"; VStr "b c"]]>
              (<[14%positive := OArray []]> h))));
     document := [10%positive; 11%positive];
     warned := [];
     propertyTypes := propertyTypes builtinWorld |}.

(** A document that yields its two elements for the list of their ids and
    nothing for any other selector. *)
Definition sampleQuery : heap -> list loc -> string -> outcome (list loc) :=
  fun _ doc selector => if String.eqb selector "#a, #b" then Ok doc else Ok [].

(** *** What is observed of a world *)

(** [w'] differs from [w] in objects added to the store only. *)
Definition storeGrows (w w' : world) : Prop :=
  (forall l o, store w !! l = Some o -> store w' !! l = Some o) /\
  document w' = document w /\ warned w' = warned w /\
  propertyTypes w' = propertyTypes w.

(** The world with the messages [msgs] as those passed to [warn]. *)
Definition set_warned (msgs : list string) (w : world) : world :=
  {| store := store w; document := document w; warned := msgs;
     propertyTypes := propertyTypes w |}.

(** The message of [assetParse] for an id that no element has. *)
Definition assetNotFound (value : string) : string :=
  dquote +:+ value +:+ dquote +:+ " asset not found.".

(** The message of [srcParse]. *)
Definition srcDeprecated : string :=
  "`src` property type is deprecated. Use `asset` instead.".

(** What [getAttribute] returns for an attribute that may be absent. *)
Definition attributeValue (attrs : list (string * string)) (name : string) : value :=
  match attribute attrs name with Some a => VStr a | None => VNull end.

(** The names of the built-in property types. *)
Definition builtinNames : list string :=
  ["audio"; "array"; "asset"; "boolean"; "color"; "int"; "number"; "map"; "model";
   "selector"; "selectorAll"; "src"; "string"; "time"; "vec2"; "vec3"; "vec4"].

(** The element at [l] does not have the id [id]. *)
Definition lacksId (h : heap) (id : string) (l : loc) : Prop :=
  forall tag attrs, h !! l = Some (OElement tag attrs) -> attribute attrs "id" <> Some id.

(** A document of one element that has no id. *)
Definition anonWorld : world :=
  {| store := <[20%positive := OElement "A-ENTITY" [("class", "box")]]> ∅;
     document := [20%positive]; warned := []; propertyTypes := ∅ |}.


(** A world whose store holds the array [1, 2]. *)
Definition numbersWorld : world :=
  {| store := <[30%positive := OArray [num 1; num 2]]> ∅;
     document := []; warned := []; propertyTypes := ∅ |}.

End PropertyTypes.

(* ===================================================================== *)
(** ** [src/components/tracked-controls.js]                                *)
(* ===================================================================== *)

Module TrackedControls.
Import JS.

Module EVENTS.
Definition AXISMOVE := "axismove".
Definition BUTTONCHANGED := "buttonchanged".
Definition BUTTONDOWN := "buttondown".
Definition BUTTONUP := "buttonup".
Definition TOUCHSTART := "touchstart".
Definition TOUCHEND := "touchend".
End EVENTS.

(** *** Platform objects read by the component *)

(** An element of [gamepad.buttons]. *)
Record GamepadButton := {
  b_pressed : value;
  b_touched : value;
  b_value : value
}.

Record Gamepad := {
  buttons : list GamepadButton;
  axes : list value
}.

(** An input source as [findMatchingControllerWebXR] returns it;
    [gamepad = None] stands for an absent gamepad. *)
Record Controller := {
  hand : value;
  gripSpace : value;
  gamepad : option Gamepad
}.

(** [pose.transform.matrix] *)
Record Pose := { transform_matrix : list number }.

(** The frame of the scene; [getPose] yields no pose as [None]. *)
Record Frame := { getPose : value -> value -> option Pose }.

(** [el.object3D]: visibility, [matrix.elements] and the three components
    [matrix.decompose] writes. *)
Record Object3D := {
  visible : value;
  matrix_elements : list number;
  position : list number;
  rotation : list number;
  scale : list number
}.

(** An event as [el.emit] dispatches it: its name, the detail object passed
    and the store at the time of the dispatch, which is what a listener
    reads through the detail. *)
Record event := {
  ev_name : string;
  ev_detail : value;
  ev_store : heap
}.

(** *** The component instance and what it reaches *)

Record component := {
  (* this *)
  buttonEventDetails : gmap nat value;
  buttonStates : gmap nat value;
  axis : value;
  changedAxes : value;
  axisMoveEventDetail : value;
  controller : option Controller;
  pose : option Pose;
  (* this.data *)
  autoHide : value;
  (* this.el *)
  object3D : Object3D;
  emitted : list event;
  (* this.el.sceneEl.frame and this.system.referenceSpace *)
  frame : option Frame;
  referenceSpace : value;
  (* the objects the fields above refer to *)
  store : heap
}.

Definition set_buttonEventDetails f (s : component) : component :=
  {| buttonEventDetails := f (buttonEventDetails s); buttonStates := buttonStates s;
     axis := axis s; changedAxes := changedAxes s;
     axisMoveEventDetail := axisMoveEventDetail s; controller := controller s;
     pose := pose s; autoHide := autoHide s; object3D := object3D s;
     emitted := emitted s; frame := frame s; referenceSpace := referenceSpace s;
     store := store s |}.

Definition set_buttonStates f (s : component) : component :=
  {| buttonEventDetails := buttonEventDetails s; buttonStates := f (buttonStates s);
     axis := axis s; changedAxes := changedAxes s;
     axisMoveEventDetail := axisMoveEventDetail s; controller := controller s;
     pose := pose s; autoHide := autoHide s; object3D := object3D s;
     emitted := emitted s; frame := frame s; referenceSpace := referenceSpace s;
     store := store s |}.

Definition set_pose p (s : component) : component :=
  {| buttonEventDetails := buttonEventDetails s; buttonStates := buttonStates s;
     axis := axis s; changedAxes := changedAxes s;
     axisMoveEventDetail := axisMoveEventDetail s; controller := controller s;
     pose := p; autoHide := autoHide s; object3D := object3D s;
     emitted := emitted s; frame := frame s; referenceSpace := referenceSpace s;
     store := store s |}.

Definition set_object3D o (s : component) : component :=
  {| buttonEventDetails := buttonEventDetails s; buttonStates := buttonStates s;
     axis := axis s; changedAxes := changedAxes s;
     axisMoveEventDetail := axisMoveEventDetail s; controller := controller s;
     pose := pose s; autoHide := autoHide s; object3D := o;
     emitted := emitted s; frame := frame s; referenceSpace := referenceSpace s;
     store := store s |}.

Definition set_emitted f (s : component) : component :=
  {| buttonEventDetails := buttonEventDetails s; buttonStates := buttonStates s;
     axis := axis s; changedAxes := changedAxes s;
     axisMoveEventDetail := axisMoveEventDetail s; controller := controller s;
     pose := pose s; autoHide := autoHide s; object3D := object3D s;
     emitted := f (emitted s); frame := frame s; referenceSpace := referenceSpace s;
     store := store s |}.

Definition set_store h (s : component) : component :=
  {| buttonEventDetails := buttonEventDetails s; buttonStates := buttonStates s;
     axis := axis s; changedAxes := changedAxes s;
     axisMoveEventDetail := axisMoveEventDetail s; controller := controller s;
     pose := pose s; autoHide := autoHide s; object3D := object3D s;
     emitted := emitted s; frame := frame s; referenceSpace := referenceSpace s;
     store := h |}.

(** *** Methods run on the component *)

Abbreviation M := (JS.M component).

(** An outcome computed from the store. *)
Definition withStore {A} (f : heap -> outcome A) : M A := fun s => (f (store s), s).

(** A store update that may fail; the store is left as it is on failure. *)
Definition updStore (f : heap -> outcome heap) : M unit :=
  fun s => match f (store s) with
           | Ok h => (Ok tt, set_store h s)
           | Throw e => (Throw e, s)
           | Unmodelled => (Unmodelled, s)
           end.

(** [new] object in the store. *)
Definition new (o : obj) : M value :=
  fun s => let '(l, h) := alloc (store s) o in (Ok (VRef l), set_store h s).

(** [this.el.emit(name, detail, false)] *)
Definition emit (name : string) (detail : value) : M unit :=
  fun s => (Ok tt, set_emitted (fun evs => evs ++ [ {| ev_name := name; ev_detail := detail; ev_store := store s |} ]) s).

(** *** Arrays in the store *)

Definition arrayItems (h : heap) (a : value) : outcome (list value) :=
  match a with
  | VUndefined | VNull => Throw TypeError
  | VRef l => match h !! l with Some (OArray items) => Ok items | _ => Unmodelled end
  | _ => Unmodelled
  end.

(** [a[i]] *)
Definition arrayGet (a : value) (i : nat) : M value :=
  withStore (fun h => obind (arrayItems h a) (fun items => Ok (default VUndefined (items !! i)))).

(** [a.splice(0, a.length)] *)
Definition arrayClear (a : value) : M unit :=
  updStore (fun h => obind (arrayItems h a) (fun _ =>
    match a with VRef l => Ok (<[l := OArray []]> h) | _ => Unmodelled end)).

(** [a.push(x)] *)
Definition arrayPush (a : value) (x : value) : M unit :=
  updStore (fun h => obind (arrayItems h a) (fun items =>
    match a with VRef l => Ok (<[l := OArray (items ++ [x])]> h) | _ => Unmodelled end)).

(** *** The component's methods *)

Definition set_visible (v : value) (o : Object3D) : Object3D :=
  {| visible := v; matrix_elements := matrix_elements o; position := position o;
     rotation := rotation o; scale := scale o |}.

Definition buttonStateAt (id : nat) : M value :=
  get (fun s => default VUndefined (buttonStates s !! id)).

Definition buttonEventDetailAt (id : nat) : M value :=
  get (fun s => default VUndefined (buttonEventDetails s !! id)).

(** [init], on a component whose fields are not set yet. *)
Definition init : M unit :=
  modify (set_buttonEventDetails (fun _ => ∅));;
  modify (set_buttonStates (fun _ => ∅));;
  a ← new (OArray [num 0; num 0; num 0]);
  c ← new (OArray []);
  d ← new (OObject (<["axis" := a]> (<["changed" := c]> ∅)));
  modify (fun s =>
    {| buttonEventDetails := buttonEventDetails s; buttonStates := buttonStates s;
       axis := a; changedAxes := c; axisMoveEventDetail := d;
       controller := controller s; pose := pose s; autoHide := autoHide s;
       object3D := object3D s; emitted := emitted s; frame := frame s;
       referenceSpace := referenceSpace s; store := store s |}).

Definition handlePress (id : nat) (buttonState : GamepadButton) : M bool :=
  previousButtonState ← buttonStateAt id;
  previous ← withStore (fun h => getProp h previousButtonState "pressed");
  (* Not changed. *)
  if strict_eq (b_pressed buttonState) previous then mret false
  else
    let evtName := if truthy (b_pressed buttonState)
                   then EVENTS.BUTTONDOWN else EVENTS.BUTTONUP in
    detail ← buttonEventDetailAt id;
    emit evtName detail;;
    updStore (fun h => setProp h previousButtonState "pressed" (b_pressed buttonState));;
    mret true.

Definition handleTouch (id : nat) (buttonState : GamepadButton) : M bool :=
  previousButtonState ← buttonStateAt id;
  previous ← withStore (fun h => getProp h previousButtonState "touched");
  (* Not changed. *)
  if strict_eq (b_touched buttonState) previous then mret false
  else
    let evtName := if truthy (b_touched buttonState)
                   then EVENTS.TOUCHSTART else EVENTS.TOUCHEND in
    detail ← buttonEventDetailAt id;
    emit evtName detail;;
    updStore (fun h => setProp h previousButtonState "touched" (b_touched buttonState));;
    mret true.

Definition handleValue (id : nat) (buttonState : GamepadButton) : M bool :=
  previousButtonState ← buttonStateAt id;
  previous ← withStore (fun h => getProp h previousButtonState "value");
  (* Not changed. *)
  if strict_eq (b_value buttonState) previous then mret false
  else
    updStore (fun h => setProp h previousButtonState "value" (b_value buttonState));;
    mret true.

(** The three checks are combined with the bitwise [|] on their results as
    integers, so each of them runs. *)
Definition handleButton (id : nat) (buttonState : GamepadButton) : M bool :=
  p ← handlePress id buttonState;
  t ← handleTouch id buttonState;
  v ← handleValue id buttonState;
  let changed := Z.lor (Z.lor (Z.b2z p) (Z.b2z t)) (Z.b2z v) in
  if (changed =? 0)%Z then mret false
  else
    detail ← buttonEventDetailAt id;
    emit EVENTS.BUTTONCHANGED detail;;
    mret true.

(** [this.controller.gamepad.axes] *)
Definition controllerAxes : M (list value) :=
  fun s => match controller s with
           | None => (Throw TypeError, s)
           | Some c => match gamepad c with
                       | None => (Throw TypeError, s)
                       | Some g => (Ok (axes g), s)
                       end
           end.

(** The first loop of [handleAxes], from index [i] on. *)
Fixpoint compareAxes (previousAxis changedAxes : value)
    (rest : list value) (i : nat) (changed : bool) : M bool :=
  match rest with
  | [] => mret changed
  | a :: rest' =>
      p ← arrayGet previousAxis i;
      arrayPush changedAxes (VBool (strict_neq p a));;
      c ← arrayGet changedAxes i;
      compareAxes previousAxis changedAxes rest' (S i)
        (if truthy c then true else changed)
  end.

(** The second loop of [handleAxes]. *)
Fixpoint copyAxes (rest : list value) : M unit :=
  match rest with
  | [] => mret tt
  | a :: rest' => this_axis ← get axis; arrayPush this_axis a;; copyAxes rest'
  end.

Definition handleAxes : M bool :=
  controllerAxes ← controllerAxes;
  previousAxis ← get axis;
  changedAxes ← get changedAxes;
  (* Check if axis changed. *)
  this_changedAxes ← get TrackedControls.changedAxes;
  arrayClear this_changedAxes;;
  changed ← compareAxes previousAxis changedAxes controllerAxes 0 false;
  if negb changed then mret false
  else
    this_axis ← get axis;
    arrayClear this_axis;;
    copyAxes controllerAxes;;
    detail ← get axisMoveEventDetail;
    emit EVENTS.AXISMOVE detail;;
    mret true.

(** The loop of [updateButtons], from index [id] on. *)
Fixpoint checkButtons (rest : list GamepadButton) (id : nat) : M unit :=
  match rest with
  | [] => mret tt
  | buttonState :: rest' =>
      (* Initialize button state. *)
      st ← buttonStateAt id;
      (if truthy st then mret tt
       else o ← new (OObject (<["pressed" := VBool false]>
                              (<["touched" := VBool false]>
                              (<["value" := num 0]> ∅))));
            modify (set_buttonStates (<[id := o]>)));;
      d ← buttonEventDetailAt id;
      (if truthy d then mret tt
       else st' ← buttonStateAt id;
            o ← new (OObject (<["id" := num (Z.of_nat id)]> (<["state" := st']> ∅)));
            modify (set_buttonEventDetails (<[id := o]>)));;
      handleButton id buttonState;;
      checkButtons rest' (S id)
  end.

Definition updateButtons : M unit :=
  c ← get controller;
  match c with
  | None => mret tt
  | Some c =>
      match gamepad c with
      | None => mret tt
      | Some gamepad =>
          (* Check every button. *)
          checkButtons (buttons gamepad) 0;;
          (* Check axes. *)
          handleAxes;;
          mret tt
      end
  end.

Section Tick.

(** [Matrix4.decompose] of three.js: position, rotation and scale of a
    matrix. *)
Variable decompose : list number -> list number * list number * list number.

Definition updatePose : M unit :=
  p ← get pose;
  match p with
  | None => mret tt
  | Some p =>
      modify (fun s =>
        let '(pos, rot, sc) := decompose (transform_matrix p) in
        set_object3D {| visible := visible (object3D s);
                        matrix_elements := transform_matrix p;
                        position := pos; rotation := rot; scale := sc |} s)
  end.

Definition tick : M unit :=
  controller ← get controller;
  frame ← get frame;
  autoHide ← get autoHide;
  (if truthy autoHide
   then modify (fun s => set_object3D (set_visible (VBool (bool_decide (is_Some controller))) (object3D s)) s)
   else mret tt);;
  referenceSpace ← get referenceSpace;
  match controller, frame with
  | Some controller, Some frame =>
      if negb (truthy referenceSpace) then mret tt
      else if negb (truthy (hand controller))
      then
        modify (set_pose (getPose frame (gripSpace controller) referenceSpace));;
        updatePose;;
        updateButtons
      else mret tt
  | _, _ => mret tt
  end.

End Tick.

(** *** What is observed of a run *)

(** A state object read through the store: [pressed], [touched], [value]. *)
Definition readButtonState (h : heap) (st : value) : outcome (value * value * value) :=
  obind (getProp h st "pressed") (fun p =>
  obind (getProp h st "touched") (fun t =>
  obind (getProp h st "value") (fun v => Ok (p, t, v)))).

(** [this.buttonStates[id]] as it is stored. *)
Definition storedButtonState (s : component) (id : nat) : outcome (value * value * value) :=
  readButtonState (store s) (default VUndefined (buttonStates s !! id)).

(** What a listener reads from a button event: [detail.id] and
    [detail.state] at the time of the dispatch. *)
Definition buttonEventView (e : event) : outcome (value * (value * value * value)) :=
  obind (getProp (ev_store e) (ev_detail e) "id") (fun i =>
  obind (getProp (ev_store e) (ev_detail e) "state") (fun st =>
  obind (readButtonState (ev_store e) st) (fun r => Ok (i, r)))).

(** What a listener reads from an axis event: the items of [detail.axis]
    and of [detail.changed] at the time of the dispatch. *)
Definition axisEventView (e : event) : outcome (list value * list value) :=
  obind (getProp (ev_store e) (ev_detail e) "axis") (fun a =>
  obind (getProp (ev_store e) (ev_detail e) "changed") (fun c =>
  obind (arrayItems (ev_store e) a) (fun xs =>
  obind (arrayItems (ev_store e) c) (fun cs => Ok (xs, cs))))).

(** [this.axis] as it is stored. *)
Definition storedAxis (s : component) : outcome (list value) :=
  arrayItems (store s) (axis s).

(** Button [id] has been seen: its state object [l] and its event detail
    [d] exist, and the detail refers to the state object, as [updateButtons]
    sets them up. *)
Definition buttonReady (s : component) (id : nat) (l d : loc)
    (ps : gmap string value) : Prop :=
  buttonStates s !! id = Some (VRef l) /\
  buttonEventDetails s !! id = Some (VRef d) /\
  store s !! l = Some (OObject ps) /\
  store s !! d = Some (OObject (<["id" := num (Z.of_nat id)]> (<["state" := VRef l]> ∅))) /\
  l <> d.

(** The axis arrays are as [init] sets them up: [this.axis] at [a],
    [this.changedAxes] at [c], and the event detail [d] referring to both. *)
Definition axesReady (s : component) (a c d : loc) (prev : list value) : Prop :=
  axis s = VRef a /\ changedAxes s = VRef c /\ axisMoveEventDetail s = VRef d /\
  store s !! a = Some (OArray prev) /\
  (exists old, store s !! c = Some (OArray old)) /\
  store s !! d = Some (OObject (<["axis" := VRef a]> (<["changed" := VRef c]> ∅))) /\
  a <> c /\ d <> a /\ d <> c.

(** [previousAxis[i] !== controllerAxes[i]] for the readings [cur], from
    index [i] on: the flags the first loop of [handleAxes] pushes. *)
Fixpoint axisDiffers (prev cur : list value) (i : nat) : list bool :=
  match cur with
  | [] => []
  | x :: cur' => strict_neq (default VUndefined (prev !! i)) x :: axisDiffers prev cur' (S i)
  end.

(** State [s] after the dispatch of event [e], and after object [l] of the
    store has been given the properties [ps]. *)
Definition dispatched (e : event) (s : component) : component :=
  set_emitted (fun evs => evs ++ [e]) s.

Definition stored (l : loc) (o : obj) (s : component) : component :=
  set_store (<[l := o]> (store s)) s.

(** The event named [name] with detail [d], dispatched from state [s]. *)
Definition eventAt (name : string) (d : loc) (s : component) : event :=
  {| ev_name := name; ev_detail := VRef d; ev_store := store s |}.

(** The state after one of the three checks of a button: nothing when the
    field [k] did not change; otherwise the event named [name], if the check
    has one, is dispatched first and the field is written next. *)
Definition afterCheck (changed : bool) (name : option string) (d l : loc)
    (ps : gmap string value) (k : string) (x : value) (s : component) : component :=
  if changed
  then stored l (OObject (<[k := x]> ps))
         (match name with Some n => dispatched (eventAt n d s) s | None => s end)
  else s.

(** The state object of a button that has not been pressed, and a reading
    of it fully pressed half way. *)
Definition released : gmap string value :=
  <["pressed" := VBool false]> (<["touched" := VBool false]> (<["value" := num 0]> ∅)).

Definition halfPressed : GamepadButton :=
  {| b_pressed := VBool true; b_touched := VBool true; b_value := VNum num_0_5 |}.

(** A method that leaves [el.object3D] as it is. *)
Definition keepsObject3D {A} (m : M A) : Prop :=
  forall s, object3D (snd (m s)) = object3D s.

(** The state after the [autoHide] step of [tick]. *)
Definition autoHidden (s : component) : component :=
  if truthy (autoHide s)
  then set_object3D (set_visible (VBool (bool_decide (is_Some (controller s)))) (object3D s)) s
  else s.

(** *** Sample states *)

(** A component before [init], with [autoHide] set, in a scene without a
    frame. *)
Definition blank : component :=
  {| buttonEventDetails := ∅; buttonStates := ∅;
     axis := VUndefined; changedAxes := VUndefined; axisMoveEventDetail := VUndefined;
     controller := None; pose := None; autoHide := VBool true;
     object3D := {| visible := VBool true; matrix_elements := [];
                    position := []; rotation := []; scale := [] |};
     emitted := []; frame := None; referenceSpace := VUndefined; store := ∅ |}.

Definition withController (c : option Controller) (s : component) : component :=
  {| buttonEventDetails := buttonEventDetails s; buttonStates := buttonStates s;
     axis := axis s; changedAxes := changedAxes s;
     axisMoveEventDetail := axisMoveEventDetail s; controller := c;
     pose := pose s; autoHide := autoHide s; object3D := object3D s;
     emitted := emitted s; frame := frame s; referenceSpace := referenceSpace s;
     store := store s |}.

Definition withFrame (f : option Frame) (r : value) (s : component) : component :=
  {| buttonEventDetails := buttonEventDetails s; buttonStates := buttonStates s;
     axis := axis s; changedAxes := changedAxes s;
     axisMoveEventDetail := axisMoveEventDetail s; controller := controller s;
     pose := pose s; autoHide := autoHide s; object3D := object3D s;
     emitted := emitted s; frame := f; referenceSpace := r;
     store := store s |}.

(** A gamepad with one button, not pressed, and two axes at rest, and the
    same gamepad with the first axis moved. *)
Definition atRest : Gamepad :=
  {| buttons := [ {| b_pressed := VBool false; b_touched := VBool false; b_value := num 0 |} ];
     axes := [num 0; num 0; num 0] |}.

Definition moved : Gamepad :=
  {| buttons := buttons atRest; axes := [VNum num_0_3; num 0; num 0] |}.

Definition gripController (g : Gamepad) : Controller :=
  {| hand := VUndefined; gripSpace := VStr "grip"; gamepad := Some g |}.

(** The component after [init] and a first [updateButtons] with the
    gamepad at rest, and the same with the gamepad moved bound next. *)
Definition started : component :=
  snd (updateButtons (withController (Some (gripController atRest)) (snd (init blank)))).

Definition startedMoved : component :=
  withController (Some (gripController moved)) started.

(** A frame that has no pose for any space, and [decompose] for the
    matrices of translations. *)
Definition noPoseFrame : Frame := {| getPose := fun _ _ => None |}.

Definition translationOf (m : list number) : list number * list number * list number :=
  (take 3 (drop 12 m), [zero; zero; zero], [of_Z 1 false; of_Z 1 false; of_Z 1 false]).

(** *** A component in use *)

(** What the methods that read the gamepad leave as it is: the bindings of
    the component to its axis arrays, its controller, its pose, its data,
    the [object3D] of its element and the scene. *)
Definition sameBindings (s s' : component) : Prop :=
  axis s' = axis s /\ changedAxes s' = changedAxes s /\
  axisMoveEventDetail s' = axisMoveEventDetail s /\
  controller s' = controller s /\ pose s' = pose s /\ autoHide s' = autoHide s /\
  object3D s' = object3D s /\ frame s' = frame s /\
  referenceSpace s' = referenceSpace s.

(** [s'] comes after [s]: events were only added, and the buttons seen in
    [s] have the same state objects and event details in [s']. *)
Definition extends (s s' : component) : Prop :=
  sameBindings s s' /\
  (exists new, emitted s' = emitted s ++ new) /\
  (forall id v, buttonStates s !! id = Some v -> buttonStates s' !! id = Some v) /\
  (forall id v, buttonEventDetails s !! id = Some v ->
                buttonEventDetails s' !! id = Some v).

(** [s'] differs from [s] in the object at [l] and in the events added. *)
Definition touches (l : loc) (s s' : component) : Prop :=
  buttonStates s' = buttonStates s /\
  buttonEventDetails s' = buttonEventDetails s /\
  sameBindings s s' /\
  (exists new, emitted s' = emitted s ++ new) /\
  forall l', l' <> l -> store s' !! l' = store s !! l'.

(** The component as [init] sets it up and [updateButtons] keeps it: the
    axis arrays and their event detail exist; every button that has a state
    has a state object and an event detail that refers to it, and a button
    without a state has no detail; no state object is shared between two
    buttons or is one of the event details. *)
Definition wellFormed (s : component) : Prop :=
  (exists a c d prev, axesReady s a c d prev) /\
  (forall id v, buttonStates s !! id = Some v ->
     exists l d ps, buttonReady s id l d ps) /\
  (forall id, buttonStates s !! id = None -> buttonEventDetails s !! id = None) /\
  (forall i j l, buttonStates s !! i = Some (VRef l) ->
     buttonStates s !! j = Some (VRef l) -> i = j) /\
  (forall i j l, buttonStates s !! i = Some (VRef l) ->
     buttonEventDetails s !! j <> Some (VRef l)) /\
  (forall i l, buttonStates s !! i = Some (VRef l) -> axisMoveEventDetail s <> VRef l).

(** A value that [===] finds equal to itself: any value but [NaN]. *)
Definition comparable (v : value) : Prop := strict_eq v v = true.

(** A gamepad none of whose readings is [NaN]. *)
Definition steady (g : Gamepad) : Prop :=
  Forall (fun b => comparable (b_pressed b) /\ comparable (b_touched b) /\
                   comparable (b_value b)) (buttons g) /\
  Forall comparable (axes g).

(** The stored state of button [id] is the reading [b], field by field
    under [===]. *)
Definition buttonAgrees (s : component) (id : nat) (b : GamepadButton) : Prop :=
  exists l d ps, buttonReady s id l d ps /\
    strict_eq (b_pressed b) (default VUndefined (ps !! "pressed")) = true /\
    strict_eq (b_touched b) (default VUndefined (ps !! "touched")) = true /\
    strict_eq (b_value b) (default VUndefined (ps !! "value")) = true.

(** The stored axis is the readings [cur], item by item under [===]. *)
Definition axesAgree (s : component) (cur : list value) : Prop :=
  exists a c d prev, axesReady s a c d prev /\
    existsb id (axisDiffers prev cur 0) = false.

(** The stored states are those of the gamepad [g]. *)
Definition agrees (s : component) (g : Gamepad) : Prop :=
  (forall id b, buttons g !! id = Some b -> buttonAgrees s id b) /\
  axesAgree s (axes g).

(** The fields stored for button [id]: [pressed], [touched] and [value]
    of its state object, and those of a released button for a button that
    has no state object yet. *)
Definition storedFields (s : component) (id : nat) : value * value * value :=
  match storedButtonState s id with
  | Ok fields => fields
  | _ => (VBool false, VBool false, num 0)
  end.

(** The names of the events of a reading [b] of a button whose stored
    fields are [old], in the order of their dispatch. *)
Definition buttonDiffNames (old : value * value * value) (b : GamepadButton)
    : list string :=
  let '(p0, t0, v0) := old in
  let p := strict_neq (b_pressed b) p0 in
  let t := strict_neq (b_touched b) t0 in
  let v := strict_neq (b_value b) v0 in
  (if p then [if truthy (b_pressed b) then EVENTS.BUTTONDOWN else EVENTS.BUTTONUP]
   else []) ++
  (if t then [if truthy (b_touched b) then EVENTS.TOUCHSTART else EVENTS.TOUCHEND]
   else []) ++
  (if p || t || v then [EVENTS.BUTTONCHANGED] else []).

(** The fields stored for a button after a reading [b], [old] being those
    stored before: the reading where it differs, the old value where it
    does not. *)
Definition recorded (old : value * value * value) (b : GamepadButton)
    : value * value * value :=
  let '(p0, t0, v0) := old in
  (if strict_neq (b_pressed b) p0 then b_pressed b else p0,
   if strict_neq (b_touched b) t0 then b_touched b else t0,
   if strict_neq (b_value b) v0 then b_value b else v0).

(** The names of the events of the readings [bs] of the buttons from index
    [id] on, each compared with what [s] has stored for it. *)
Fixpoint buttonsDiffNames (s : component) (bs : list GamepadButton) (id : nat)
    : list string :=
  match bs with
  | [] => []
  | b :: bs' => buttonDiffNames (storedFields s id) b ++ buttonsDiffNames s bs' (S id)
  end.

(** The names of the events the component dispatches. *)
Definition eventNames : list string :=
  [EVENTS.AXISMOVE; EVENTS.BUTTONCHANGED; EVENTS.BUTTONDOWN; EVENTS.BUTTONUP;
   EVENTS.TOUCHSTART; EVENTS.TOUCHEND].

(** A method that only adds events, each with one of the six names. *)
Definition emitsKnown {A} (m : M A) : Prop :=
  forall s, exists new,
    emitted (snd (m s)) = emitted s ++ new /\
    Forall (fun e => ev_name e ∈ eventNames) new.

(** The readings of a controller's gamepad: a stored axis of [prev] and
    readings [cur] agree at index [i]. *)
Definition axisAgreesAt (prev cur : list value) (i : nat) : Prop :=
  forall x, cur !! i = Some x -> strict_eq (default VUndefined (prev !! i)) x = true.

(** The component after [updateButtons] has seen button [id] for the first
    time: a new state object of a released button, and a new event detail
    that refers to it. *)
Definition firstSeen (id : nat) (s : component) : component :=
  let l := fresh (dom (store s)) in
  let h := <[l := OObject released]> (store s) in
  let d := fresh (dom h) in
  set_buttonEventDetails (<[id := VRef d]>)
    (set_store (<[d := OObject (<["id" := num (Z.of_nat id)]> (<["state" := VRef l]> ∅))]> h)
       (set_buttonStates (<[id := VRef l]>) s)).

(** The component after [updatePose] has written the pose [p] to the
    transform of [object3D]; [visible] is not written. *)
Definition posed (decompose : list number -> list number * list number * list number)
    (p : Pose) (s : component) : component :=
  let '(pos, rot, sc) := decompose (transform_matrix p) in
  set_object3D {| visible := visible (object3D s);
                  matrix_elements := transform_matrix p;
                  position := pos; rotation := rot; scale := sc |} s.

(** *** Further sample states *)

(** The component after [init], with the gamepad at rest bound, before the
    first [updateButtons]. *)
Definition ready : component :=
  withController (Some (gripController atRest)) (snd (init blank)).

(** A gamepad with one button pressed, touched and at 0.5, and two axes,
    the first moved to 0.3. *)
Definition pressedMoved : Gamepad :=
  {| buttons := [halfPressed]; axes := [VNum num_0_3; num 0] |}.

(** A gamepad with one button, not pressed, and two axes at rest. *)
Definition twoAxes : Gamepad :=
  {| buttons := buttons atRest; axes := [num 0; num 0] |}.

(** The component after [init], with the gamepad [g] bound, before the
    first [updateButtons]. *)
Definition readyWith (g : Gamepad) : component :=
  withController (Some (gripController g)) (snd (init blank)).

(** A reading of a button whose [value] is [NaN]. *)
Definition nanButton : GamepadButton :=
  {| b_pressed := VBool false; b_touched := VBool false; b_value := VNum NaN |}.

(** The pose of a translation by (1, 2, 3), and a frame that yields it for
    every space. *)
Definition shiftedPose : Pose :=
  {| transform_matrix :=
       [of_Z 1 false; zero; zero; zero;
        zero; of_Z 1 false; zero; zero;
        zero; zero; of_Z 1 false; zero;
        of_Z 1 false; of_Z 2 false; of_Z 3 false; of_Z 1 false] |}.

Definition poseFrame : Frame := {| getPose := fun _ _ => Some shiftedPose |}.

(** The started component with the pose of the translation written to its
    transform, next bound to a gamepad whose button is pressed and whose
    first axis has moved, in a scene whose frame has no pose. *)
Definition lostPose : component :=
  withFrame (Some noPoseFrame) (VStr "local")
    (withController (Some (gripController pressedMoved))
       (posed translationOf shiftedPose started)).

End TrackedControls.

(* ===================================================================== *)
(** * Part II: properties                                                  *)
(* ===================================================================== *)

Section TrackedControlsFacts.
Import JS TrackedControls.

(** Unfolding the monadic steps of a method. *)
Ltac step :=
  unfold mbind, M_bind, mret, M_ret, bind, ret, get, modify, withStore, updStore,
    emit, buttonStateAt, buttonEventDetailAt; cbn -[lookup insert].

Lemma component_eta (s : component) :
  set_store (store s) (set_emitted (fun evs => evs) s) = s.
Proof. destruct s; reflexivity. Qed.

Lemma buttonReady_afterCheck s id l d ps changed name k x :
  buttonReady s id l d ps ->
  buttonReady (afterCheck changed name d l ps k x s) id l d
    (if changed then <[k := x]> ps else ps).
Proof.
  intros (Hs & Hd & Hl & Hdl & Hne). unfold afterCheck.
  destruct changed; [|repeat split; assumption].
  destruct name; repeat split; cbn -[lookup insert]; try assumption;
    try apply lookup_insert_eq; rewrite lookup_insert_ne by assumption; assumption.
Qed.

Lemma handlePress_spec s id b l d ps :
  buttonReady s id l d ps ->
  let changed := strict_neq (b_pressed b) (default VUndefined (ps !! "pressed")) in
  handlePress id b s =
    (Ok changed,
     afterCheck changed
       (Some (if truthy (b_pressed b) then EVENTS.BUTTONDOWN else EVENTS.BUTTONUP))
       d l ps "pressed" (b_pressed b) s).
Proof.
  intros (Hs & Hd & Hl & Hdl & Hne). unfold strict_neq, handlePress. step.
  rewrite Hs. cbn -[lookup insert]. rewrite Hl. cbn -[lookup insert].
  destruct (strict_eq _ _); [reflexivity|].
  step. rewrite Hd, Hl. reflexivity.
Qed.

Lemma handleTouch_spec s id b l d ps :
  buttonReady s id l d ps ->
  let changed := strict_neq (b_touched b) (default VUndefined (ps !! "touched")) in
  handleTouch id b s =
    (Ok changed,
     afterCheck changed
       (Some (if truthy (b_touched b) then EVENTS.TOUCHSTART else EVENTS.TOUCHEND))
       d l ps "touched" (b_touched b) s).
Proof.
  intros (Hs & Hd & Hl & Hdl & Hne). unfold strict_neq, handleTouch. step.
  rewrite Hs. cbn -[lookup insert]. rewrite Hl. cbn -[lookup insert].
  destruct (strict_eq _ _); [reflexivity|].
  step. rewrite Hd, Hl. reflexivity.
Qed.

Lemma handleValue_spec s id b l d ps :
  buttonReady s id l d ps ->
  let changed := strict_neq (b_value b) (default VUndefined (ps !! "value")) in
  handleValue id b s =
    (Ok changed, afterCheck changed None d l ps "value" (b_value b) s).
Proof.
  intros (Hs & Hd & Hl & Hdl & Hne). unfold strict_neq, handleValue. step.
  rewrite Hs. cbn -[lookup insert]. rewrite Hl. cbn -[lookup insert].
  destruct (strict_eq _ _); [reflexivity|].
  step. rewrite Hl. reflexivity.
Qed.

Lemma readButtonState_ready s id l d ps :
  buttonReady s id l d ps ->
  storedButtonState s id =
    Ok (default VUndefined (ps !! "pressed"), default VUndefined (ps !! "touched"),
        default VUndefined (ps !! "value")).
Proof.
  intros (Hs & Hd & Hl & Hdl & Hne).
  unfold storedButtonState, readButtonState. rewrite Hs. cbn -[lookup insert].
  rewrite Hl. reflexivity.
Qed.

Lemma buttonEventView_ready s id l d ps name :
  buttonReady s id l d ps ->
  buttonEventView (eventAt name d s) =
    Ok (num (Z.of_nat id),
        (default VUndefined (ps !! "pressed"), default VUndefined (ps !! "touched"),
         default VUndefined (ps !! "value"))).
Proof.
  intros (Hs & Hd & Hl & Hdl & Hne).
  unfold buttonEventView, readButtonState, eventAt. cbn -[lookup insert].
  rewrite Hdl. cbn -[lookup insert].
  rewrite lookup_insert_eq. cbn -[lookup insert].
  rewrite lookup_insert_ne by discriminate. rewrite lookup_insert_eq.
  cbn -[lookup insert]. rewrite Hl. reflexivity.
Qed.

(** The bitwise [|] of the three results is 0 when none is true. *)
Lemma bitor_changed (p t v : bool) :
  (Z.lor (Z.lor (Z.b2z p) (Z.b2z t)) (Z.b2z v) =? 0)%Z = negb (p || t || v).
Proof. destruct p, t, v; reflexivity. Qed.

(** C1. [handleButton] runs the three checks of a button in order, each on
    the state the one before left: a change of [pressed] dispatches
    [buttondown] or [buttonup] and then writes the stored field, a change of
    [touched] dispatches [touchstart] or [touchend] and then writes the
    stored field, a change of [value] only writes the stored field.  When
    one of them changed, a single [buttonchanged] follows, whose detail
    holds the index of the button and the state as just written.  From a
    released button and a reading pressed, touched and at 0.5, the events
    are [buttondown], [touchstart], [buttonchanged] and the stored state is
    the reading. *)
Theorem handleButton_diff s id b l d ps :
  buttonReady s id l d ps ->
  let old k := default VUndefined (ps !! k) in
  let p := strict_neq (b_pressed b) (old "pressed") in
  let t := strict_neq (b_touched b) (old "touched") in
  let v := strict_neq (b_value b) (old "value") in
  let ps1 := if p then <["pressed" := b_pressed b]> ps else ps in
  let ps2 := if t then <["touched" := b_touched b]> ps1 else ps1 in
  let s1 := afterCheck p
              (Some (if truthy (b_pressed b) then EVENTS.BUTTONDOWN else EVENTS.BUTTONUP))
              d l ps "pressed" (b_pressed b) s in
  let s2 := afterCheck t
              (Some (if truthy (b_touched b) then EVENTS.TOUCHSTART else EVENTS.TOUCHEND))
              d l ps1 "touched" (b_touched b) s1 in
  let s3 := afterCheck v None d l ps2 "value" (b_value b) s2 in
  let changed := eventAt EVENTS.BUTTONCHANGED d s3 in
  let s4 := if p || t || v then dispatched changed s3 else s3 in
  let now := (if p then b_pressed b else old "pressed",
              if t then b_touched b else old "touched",
              if v then b_value b else old "value") in
  handleButton id b s = (Ok (p || t || v), s4) /\
  map ev_name (emitted s4) =
    map ev_name (emitted s) ++
      (if p then [if truthy (b_pressed b) then EVENTS.BUTTONDOWN else EVENTS.BUTTONUP]
       else []) ++
      (if t then [if truthy (b_touched b) then EVENTS.TOUCHSTART else EVENTS.TOUCHEND]
       else []) ++
      (if p || t || v then [EVENTS.BUTTONCHANGED] else []) /\
  storedButtonState s4 id = Ok now /\
  buttonEventView changed = Ok (num (Z.of_nat id), now) /\
  (ps = released -> b = halfPressed ->
   map ev_name (emitted s4) =
     map ev_name (emitted s) ++
       [EVENTS.BUTTONDOWN; EVENTS.TOUCHSTART; EVENTS.BUTTONCHANGED] /\
   storedButtonState s4 id = Ok (VBool true, VBool true, VNum num_0_5)).
Proof.
  intros Hready old p t v ps1 ps2 s1 s2 s3 changed s4 now.
  pose proof (buttonReady_afterCheck s id l d ps p
    (Some (if truthy (b_pressed b) then EVENTS.BUTTONDOWN else EVENTS.BUTTONUP))
    "pressed" (b_pressed b) Hready) as H1.
  pose proof (buttonReady_afterCheck _ id l d _ t
    (Some (if truthy (b_touched b) then EVENTS.TOUCHSTART else EVENTS.TOUCHEND))
    "touched" (b_touched b) H1) as H2.
  pose proof (buttonReady_afterCheck _ id l d _ v None "value" (b_value b) H2) as H3.
  fold ps1 s1 in H1, H2, H3. fold ps2 s2 in H2, H3. fold s3 in H3.
  assert (Hnow : (default VUndefined ((if v then <["value" := b_value b]> ps2 else ps2) !! "pressed"),
                  default VUndefined ((if v then <["value" := b_value b]> ps2 else ps2) !! "touched"),
                  default VUndefined ((if v then <["value" := b_value b]> ps2 else ps2) !! "value")) = now).
  { unfold now, ps2, ps1, old. destruct p, t, v;
      repeat first [rewrite lookup_insert_eq | rewrite lookup_insert_ne by discriminate];
      reflexivity. }
  assert (Hrun : handleButton id b s = (Ok (p || t || v), s4)).
  { assert (Ht : default VUndefined (ps1 !! "touched") = old "touched").
    { unfold ps1, old; destruct p; [rewrite lookup_insert_ne by discriminate|]; reflexivity. }
    assert (Hv : default VUndefined (ps2 !! "value") = old "value").
    { unfold ps2, ps1, old; destruct p, t;
        repeat rewrite lookup_insert_ne by discriminate; reflexivity. }
    pose proof (handlePress_spec s id b l d ps Hready) as E1.
    pose proof (handleTouch_spec s1 id b l d ps1 H1) as E2.
    pose proof (handleValue_spec s2 id b l d ps2 H2) as E3.
    cbv zeta in E1, E2, E3. rewrite Ht in E2. rewrite Hv in E3.
    change (handlePress id b s = (Ok p, s1)) in E1.
    change (handleTouch id b s1 = (Ok t, s2)) in E2.
    change (handleValue id b s2 = (Ok v, s3)) in E3.
    unfold handleButton, mbind, M_bind, bind.
    rewrite E1. cbv beta iota. rewrite E2. cbv beta iota. rewrite E3. cbv beta iota.
    unfold s4, changed.
    destruct H3 as (_ & Hd3 & _).
    clear - Hd3. clearbody s3 p t v.
    rewrite bitor_changed.
    destruct (p || t || v); cbn -[lookup insert]; [|reflexivity].
    step. rewrite Hd3. reflexivity. }
  assert (Hstored : storedButtonState s4 id = Ok now).
  { rewrite <- Hnow. unfold s4.
    destruct (p || t || v).
    - apply (readButtonState_ready _ id l d).
      destruct H3 as (? & ? & ? & ? & ?). repeat split; assumption.
    - apply (readButtonState_ready _ id l d). exact H3. }
  assert (Hnames : map ev_name (emitted s4) =
    map ev_name (emitted s) ++
      (if p then [if truthy (b_pressed b) then EVENTS.BUTTONDOWN else EVENTS.BUTTONUP]
       else []) ++
      (if t then [if truthy (b_touched b) then EVENTS.TOUCHSTART else EVENTS.TOUCHEND]
       else []) ++
      (if p || t || v then [EVENTS.BUTTONCHANGED] else [])).
  { unfold s4, changed, s3, s2, s1, afterCheck, dispatched, stored, eventAt.
    clear. clearbody p t v.
    destruct p, t, v; cbn -[lookup insert app];
      rewrite ?map_app, <- ?app_assoc, ?app_nil_r; reflexivity. }
  repeat split.
  - exact Hrun.
  - exact Hnames.
  - exact Hstored.
  - rewrite <- Hnow. apply (buttonEventView_ready s3 id l d). exact H3.
  - subst ps b. unfold s4, changed, s3, s2, s1, ps2, ps1, p, t, v, old.
    cbn -[lookup insert app]. vm_compute strict_neq. cbn.
    rewrite !map_app. rewrite <- !app_assoc. reflexivity.
  - rewrite Hstored. subst ps b. reflexivity.
Qed.

(** *** The axes *)

Lemma set_store_id (s : component) : set_store (store s) s = s.
Proof. destruct s; reflexivity. Qed.

Lemma set_store_twice h h' (s : component) :
  set_store h (set_store h' s) = set_store h s.
Proof. reflexivity. Qed.

Ltac astep :=
  unfold arrayGet, arrayPush, arrayClear;
  unfold mbind, M_bind, mret, M_ret, bind, ret, get, modify, withStore, updStore,
    emit, arrayItems, obind; cbn -[lookup insert].

(** The first loop: the flags are pushed on [changedAxes], which held [acc]
    for the indices below [i]; the stored axis is only read. *)
Lemma compareAxes_spec a c prev cur : a <> c ->
  forall acc i changed s,
  store s !! a = Some (OArray prev) ->
  store s !! c = Some (OArray acc) ->
  length acc = i ->
  compareAxes (VRef a) (VRef c) cur i changed s =
    (Ok (changed || existsb id (axisDiffers prev cur i)),
     set_store (<[c := OArray (acc ++ (VBool <$> axisDiffers prev cur i))]> (store s)) s).
Proof.
  intros Hne. induction cur as [|x cur IH]; intros acc i changed s Ha Hc Hlen.
  - cbn -[lookup insert]. rewrite orb_false_r, app_nil_r.
    rewrite insert_id by assumption. rewrite set_store_id. reflexivity.
  - cbn [compareAxes axisDiffers]. astep. rewrite Ha. cbn -[lookup insert].
    rewrite Hc. cbn -[lookup insert].
    rewrite lookup_insert_eq. cbn -[lookup insert].
    rewrite (IH (acc ++ [VBool (strict_neq (default VUndefined (prev !! i)) x)]) (S i)).
    + cbn -[lookup insert]. rewrite insert_insert_eq.
      rewrite <- Hlen at 1. rewrite list_lookup_middle by reflexivity.
      cbn -[lookup insert]. rewrite <- app_assoc. cbn -[lookup insert].
      destruct (strict_neq _ x); destruct changed; reflexivity.
    + cbn -[lookup insert]. rewrite lookup_insert_ne by congruence. assumption.
    + cbn -[lookup insert]. apply lookup_insert_eq.
    + rewrite length_app. cbn. lia.
Qed.

(** The second loop appends the readings to the stored axis. *)
Lemma copyAxes_spec a cur :
  forall acc s,
  axis s = VRef a ->
  store s !! a = Some (OArray acc) ->
  copyAxes cur s = (Ok tt, set_store (<[a := OArray (acc ++ cur)]> (store s)) s).
Proof.
  induction cur as [|x cur IH]; intros acc s Hax Ha.
  - cbn -[lookup insert]. rewrite app_nil_r, insert_id by assumption.
    rewrite set_store_id. reflexivity.
  - cbn [copyAxes]. astep. rewrite Hax. cbn -[lookup insert]. rewrite Ha.
    cbn -[lookup insert].
    rewrite (IH (acc ++ [x])).
    + cbn -[lookup insert]. rewrite insert_insert_eq, <- app_assoc. reflexivity.
    + exact Hax.
    + cbn -[lookup insert]. apply lookup_insert_eq.
Qed.

Lemma axisDiffers_length prev cur i : length (axisDiffers prev cur i) = length cur.
Proof. revert i. induction cur; intros i; cbn; [reflexivity | f_equal; apply IHcur]. Qed.

Lemma axisDiffers_lookup prev cur i j x :
  cur !! j = Some x ->
  axisDiffers prev cur i !! j = Some (strict_neq (default VUndefined (prev !! (i + j))) x).
Proof.
  revert i j. induction cur as [|y cur IH]; intros i j; [discriminate|].
  destruct j as [|j]; cbn [axisDiffers].
  - intros [= ->]. rewrite Nat.add_0_r. reflexivity.
  - intros H. change (axisDiffers prev cur (S i) !! j =
      Some (strict_neq (default VUndefined (prev !! (i + S j))) x)).
    rewrite (IH (S i) j H). replace (i + S j) with (S i + j) by lia. reflexivity.
Qed.

(** [handleAxes] in full, from a state set up by [init]. *)
Lemma handleAxes_spec s a c d prev ctl g :
  axesReady s a c d prev -> controller s = Some ctl -> gamepad ctl = Some g ->
  let flags := axisDiffers prev (axes g) 0 in
  let s1 := stored c (OArray (VBool <$> flags)) s in
  let s2 := stored a (OArray (axes g)) s1 in
  handleAxes s =
    if existsb id flags
    then (Ok true, dispatched (eventAt EVENTS.AXISMOVE d s2) s2)
    else (Ok false, s1).
Proof.
  intros (Hax & Hch & Hde & Ha & [old Hc] & Hd & Hac & Hda & Hdc) Hctl Hg flags s1 s2.
  unfold handleAxes, controllerAxes. astep. rewrite Hctl, Hg, Hax, Hch.
  cbn -[lookup insert]. rewrite Hc. cbn -[lookup insert].
  rewrite (compareAxes_spec a c prev (axes g) Hac [] 0 false).
  - fold flags. cbn -[lookup insert]. rewrite insert_insert_eq.
    destruct (existsb id flags); cbn -[lookup insert]; [|reflexivity].
    astep. rewrite Hax. cbn -[lookup insert].
    rewrite lookup_insert_ne by congruence. rewrite Ha. cbn -[lookup insert].
    rewrite (copyAxes_spec a (axes g) []).
    + cbn -[lookup insert]. rewrite insert_insert_eq, Hde. reflexivity.
    + exact Hax.
    + cbn -[lookup insert]. apply lookup_insert_eq.
  - cbn -[lookup insert]. rewrite lookup_insert_ne by congruence. exact Ha.
  - cbn -[lookup insert]. apply lookup_insert_eq.
  - reflexivity.
Qed.

(** C2. [handleAxes] compares every reading with the stored axis at the same
    index.  When none differs, no event is dispatched and the stored axis is
    as before.  When one differs, the stored axis becomes the readings and
    one [axismove] is dispatched, whose detail holds the readings and, for
    each of them, whether it differed.  A stored axis [0, 0] with readings
    [0, 0] dispatches nothing; with readings [0.3, 0] one [axismove] with
    [changed] being [true, false]. *)
Theorem handleAxes_diff s a c d prev ctl g :
  axesReady s a c d prev -> controller s = Some ctl -> gamepad ctl = Some g ->
  let cur := axes g in
  let flags := axisDiffers prev cur 0 in
  let s' := snd (handleAxes s) in
  length flags = length cur /\
  (forall i x, cur !! i = Some x ->
     flags !! i = Some (strict_neq (default VUndefined (prev !! i)) x)) /\
  (existsb id flags = false ->
     fst (handleAxes s) = Ok false /\
     emitted s' = emitted s /\
     storedAxis s' = Ok prev) /\
  (existsb id flags = true ->
     exists e,
     fst (handleAxes s) = Ok true /\
     emitted s' = emitted s ++ [e] /\
     ev_name e = EVENTS.AXISMOVE /\
     ev_detail e = axisMoveEventDetail s /\
     axisEventView e = Ok (cur, VBool <$> flags) /\
     storedAxis s' = Ok cur) /\
  (prev = [num 0; num 0] -> cur = [num 0; num 0] ->
     emitted s' = emitted s /\ storedAxis s' = Ok [num 0; num 0]) /\
  (prev = [num 0; num 0] -> cur = [VNum num_0_3; num 0] ->
     exists e,
     emitted s' = emitted s ++ [e] /\
     ev_name e = EVENTS.AXISMOVE /\
     axisEventView e = Ok ([VNum num_0_3; num 0], [VBool true; VBool false])).
Proof.
  intros Hready Hctl Hg cur flags s'.
  pose proof (handleAxes_spec s a c d prev ctl g Hready Hctl Hg) as Hrun.
  cbv zeta in Hrun. fold cur flags in Hrun.
  destruct Hready as (Hax & Hch & Hde & Ha & [old Hc] & Hd & Hac & Hda & Hdc).
  assert (Hsame : existsb id flags = false ->
     fst (handleAxes s) = Ok false /\ emitted s' = emitted s /\ storedAxis s' = Ok prev).
  { intros Hf. unfold s'. rewrite Hrun, Hf. cbn -[lookup insert].
    repeat split. unfold storedAxis. cbn -[lookup insert].
    rewrite Hax. cbn -[lookup insert].
    rewrite lookup_insert_ne by congruence. rewrite Ha. reflexivity. }
  assert (Hmoved : existsb id flags = true ->
     exists e, fst (handleAxes s) = Ok true /\ emitted s' = emitted s ++ [e] /\
       ev_name e = EVENTS.AXISMOVE /\ ev_detail e = axisMoveEventDetail s /\
       axisEventView e = Ok (cur, VBool <$> flags) /\ storedAxis s' = Ok cur).
  { intros Ht. unfold s'. rewrite Hrun, Ht. cbn -[lookup insert].
    eexists. repeat split.
    - symmetry. exact Hde.
    - unfold axisEventView, eventAt. cbn -[lookup insert].
      rewrite lookup_insert_ne by congruence. rewrite lookup_insert_ne by congruence.
      rewrite Hd. cbn -[lookup insert].
      rewrite lookup_insert_eq. cbn -[lookup insert].
      rewrite lookup_insert_eq. cbn -[lookup insert].
      rewrite (lookup_insert_ne _ "axis" "changed") by discriminate.
      rewrite lookup_insert_eq. cbn -[lookup insert].
      rewrite lookup_insert_ne by congruence. rewrite lookup_insert_eq. reflexivity.
    - unfold storedAxis. cbn -[lookup insert]. rewrite Hax. cbn -[lookup insert].
      rewrite lookup_insert_eq. reflexivity. }
  split; [apply axisDiffers_length|].
  split; [intros i x Hx; apply (axisDiffers_lookup prev cur 0 i x Hx)|].
  split; [exact Hsame|]. split; [exact Hmoved|]. split.
  - intros Hp Hcur.
    assert (Hf : existsb id flags = false) by (unfold flags; rewrite Hp, Hcur; reflexivity).
    destruct (Hsame Hf) as (_ & He & Hs).
    split; [exact He|]. rewrite Hs, Hp. reflexivity.
  - intros Hp Hcur.
    assert (Ht : existsb id flags = true) by (unfold flags; rewrite Hp, Hcur; reflexivity).
    destruct (Hmoved Ht) as (e & _ & He & Hn & _ & Hv & _).
    exists e. split; [exact He|]. split; [exact Hn|].
    rewrite Hv. unfold flags. rewrite Hp, Hcur. reflexivity.
Qed.

(** *** The tick *)

Lemma keeps_bind {A B} (m : M A) (k : A -> M B) :
  keepsObject3D m -> (forall a, keepsObject3D (k a)) -> keepsObject3D (m ≫= k).
Proof.
  intros Hm Hk s. unfold mbind, M_bind, bind. specialize (Hm s).
  destruct (m s) as [[a| |] s1]; cbn in *; try assumption.
  rewrite Hk. assumption.
Qed.

Lemma keeps_ret {A} (a : A) : keepsObject3D (mret a).
Proof. intros s. reflexivity. Qed.

Lemma keeps_get {A} (f : component -> A) : keepsObject3D (get f).
Proof. intros s. reflexivity. Qed.

Lemma keeps_withStore {A} (f : heap -> outcome A) : keepsObject3D (withStore f).
Proof. intros s. reflexivity. Qed.

Lemma keeps_updStore f : keepsObject3D (updStore f).
Proof. intros s. unfold updStore. destruct (f (store s)); reflexivity. Qed.

Lemma keeps_new o : keepsObject3D (new o).
Proof. intros s. reflexivity. Qed.

Lemma keeps_emit name detail : keepsObject3D (emit name detail).
Proof. intros s. reflexivity. Qed.

Lemma keeps_set_buttonStates f : keepsObject3D (modify (set_buttonStates f)).
Proof. intros s. reflexivity. Qed.

Lemma keeps_set_buttonEventDetails f : keepsObject3D (modify (set_buttonEventDetails f)).
Proof. intros s. reflexivity. Qed.

Lemma keeps_if {A} (b : bool) (m1 m2 : M A) :
  keepsObject3D m1 -> keepsObject3D m2 -> keepsObject3D (if b then m1 else m2).
Proof. destruct b; trivial. Qed.

Lemma keeps_buttonStateAt id : keepsObject3D (buttonStateAt id).
Proof. intros s. reflexivity. Qed.

Lemma keeps_buttonEventDetailAt id : keepsObject3D (buttonEventDetailAt id).
Proof. intros s. reflexivity. Qed.

Create HintDb keeps.
#[local] Hint Resolve keeps_ret keeps_get keeps_withStore keeps_updStore keeps_new
  keeps_emit keeps_set_buttonStates keeps_set_buttonEventDetails
  keeps_buttonStateAt keeps_buttonEventDetailAt : keeps.

Ltac keeps :=
  repeat first
    [ solve [auto with keeps]
    | apply keeps_bind; [|intros ?]
    | apply keeps_if ].

Lemma keeps_handleButton id b : keepsObject3D (handleButton id b).
Proof.
  unfold handleButton, handlePress, handleTouch, handleValue. keeps.
Qed.

Lemma keeps_checkButtons bs : forall id, keepsObject3D (checkButtons bs id).
Proof.
  induction bs as [|b bs IH]; intros id; cbn [checkButtons]; keeps.
Qed.

Lemma keeps_compareAxes p c cur : forall i changed, keepsObject3D (compareAxes p c cur i changed).
Proof.
  induction cur as [|x cur IH]; intros i changed; cbn [compareAxes];
    unfold arrayGet, arrayPush; keeps.
Qed.

Lemma keeps_copyAxes cur : keepsObject3D (copyAxes cur).
Proof.
  induction cur as [|x cur IH]; cbn [copyAxes]; unfold arrayPush; keeps.
Qed.

Lemma keeps_handleAxes : keepsObject3D handleAxes.
Proof.
  assert (Hc : keepsObject3D controllerAxes).
  { intros s. unfold controllerAxes. destruct (controller s) as [c|]; [|reflexivity].
    destruct (gamepad c); reflexivity. }
  pose proof keeps_compareAxes. pose proof keeps_copyAxes.
  unfold handleAxes, arrayClear. keeps.
Qed.

Lemma keeps_updateButtons : keepsObject3D updateButtons.
Proof.
  unfold updateButtons. apply keeps_bind; [keeps|]. intros [c|]; [|keeps].
  pose proof keeps_checkButtons. pose proof keeps_handleAxes.
  destruct (gamepad c); keeps.
Qed.

Section TickFacts.
Variable decompose : list number -> list number * list number * list number.

(** C8. A tick without a controller, without a frame or without a reference
    space, and a tick whose controller has a [hand], returns without an
    exception and changes nothing but [object3D.visible]: no pose is read, no
    event is dispatched, the store (button states and axes) and the
    transform are as before. *)
Theorem tick_guard_skips s :
  controller s = None \/ frame s = None \/ truthy (referenceSpace s) = false \/
  (exists c, controller s = Some c /\ truthy (hand c) = true) ->
  tick decompose s = (Ok tt, autoHidden s) /\
  emitted (autoHidden s) = emitted s /\
  store (autoHidden s) = store s /\
  buttonStates (autoHidden s) = buttonStates s /\
  buttonEventDetails (autoHidden s) = buttonEventDetails s /\
  axis (autoHidden s) = axis s /\
  pose (autoHidden s) = pose s /\
  matrix_elements (object3D (autoHidden s)) = matrix_elements (object3D s) /\
  position (object3D (autoHidden s)) = position (object3D s) /\
  rotation (object3D (autoHidden s)) = rotation (object3D s) /\
  scale (object3D (autoHidden s)) = scale (object3D s).
Proof.
  intros H. split.
  - unfold tick, autoHidden. step.
    destruct (truthy (autoHide s)); cbn -[lookup insert];
      destruct (controller s) as [c|] eqn:Ec; try reflexivity;
      destruct (frame s) as [f|] eqn:Ef; try reflexivity;
      destruct (truthy (referenceSpace s)) eqn:Er; try reflexivity;
      (destruct H as [H|[H|[H|(c' & H & Hh)]]]; try discriminate;
       injection H as <-; rewrite Hh; reflexivity).
  - unfold autoHidden. destruct (truthy (autoHide s)); repeat split.
Qed.

End TickFacts.

End TrackedControlsFacts.

Section NumberFacts.
Import JS.
Local Open Scope Z_scope.

(** *** Integers as numbers *)

Lemma digitOf_digitChar d : 0 <= d <= 9 -> digitOf (digitChar d) = Some d.
Proof.
  intros H.
  assert (Hd : d = 0 \/ d = 1 \/ d = 2 \/ d = 3 \/ d = 4 \/ d = 5 \/ d = 6 \/
               d = 7 \/ d = 8 \/ d = 9) by lia.
  repeat destruct Hd as [-> | Hd]; try subst d; reflexivity.
Qed.

Lemma digitChar_not_space d : 0 <= d <= 9 -> isWhiteSpace (digitChar d) = false.
Proof.
  intros H.
  assert (Hd : d = 0 \/ d = 1 \/ d = 2 \/ d = 3 \/ d = 4 \/ d = 5 \/ d = 6 \/
               d = 7 \/ d = 8 \/ d = 9) by lia.
  repeat destruct Hd as [-> | Hd]; try subst d; reflexivity.
Qed.

Lemma consume_spanDigits s a :
  consume a s = (fold_left (fun acc d => 10 * acc + d) (spanDigits s).1 a, (spanDigits s).2).
Proof.
  revert a. induction s as [|c s IH]; intros a; cbn; [reflexivity|].
  destruct (digitOf c) as [d|]; [|reflexivity].
  rewrite IH. destruct (spanDigits s). reflexivity.
Qed.

Lemma consume_digitsBefore fuel : forall n acc a,
  0 <= n < 10 ^ (Z.of_nat fuel + 1) ->
  exists k, 0 <= k /\ consume a (digitsBefore fuel n acc) = consume (a * 10 ^ k + n) acc.
Proof.
  assert (Hone : forall n acc a, 0 <= n < 10 ->
    consume a (String (digitChar (n mod 10)) acc) = consume (a * 10 ^ 1 + n) acc).
  { intros n acc a Hn. cbn [consume]. rewrite Z.mod_small by lia.
    rewrite digitOf_digitChar by lia. f_equal. lia. }
  induction fuel as [|fuel IH]; intros n acc a Hn.
  - exists 1. split; [lia|]. apply Hone. cbn in Hn. lia.
  - cbn [digitsBefore]. destruct (Z.ltb_spec n 10) as [Hlt|Hge].
    + exists 1. split; [lia|]. apply Hone. lia.
    + destruct (IH (n / 10) (String (digitChar (n mod 10)) acc) a) as (k & Hk & E).
      { split; [apply Z.div_pos; lia|].
        apply Z.div_lt_upper_bound; [lia|].
        replace (Z.of_nat (S fuel) + 1) with (Z.succ (Z.of_nat fuel + 1)) in Hn by lia.
        rewrite Z.pow_succ_r in Hn by lia. lia. }
      exists (k + 1). split; [lia|]. rewrite E. cbn [consume].
      rewrite digitOf_digitChar by (pose proof (Z.mod_pos_bound n 10); lia).
      f_equal. rewrite Z.pow_add_r by lia.
      pose proof (Z.div_mod n 10). lia.
Qed.

Lemma digitsBefore_head fuel : forall n acc, 0 <= n ->
  exists d rest, 0 <= d <= 9 /\ digitsBefore fuel n acc = String (digitChar d) rest.
Proof.
  induction fuel as [|fuel IH]; intros n acc Hn; cbn [digitsBefore].
  - exists (n mod 10), acc. split; [pose proof (Z.mod_pos_bound n 10); lia|reflexivity].
  - destruct (n <? 10).
    + exists (n mod 10), acc. split; [pose proof (Z.mod_pos_bound n 10); lia|reflexivity].
    + apply IH. apply Z.div_pos; lia.
Qed.

Lemma fuel_enough n : 0 <= n -> n < 10 ^ (Z.of_nat (Z.to_nat (Z.log2 n)) + 1).
Proof.
  intros Hn. rewrite Z2Nat.id by apply Z.log2_nonneg.
  destruct (Z.eq_dec n 0) as [->|Hz]; [reflexivity|].
  pose proof (Z.log2_spec n ltac:(lia)) as [_ Hlt].
  replace (Z.succ (Z.log2 n)) with (Z.log2 n + 1) in Hlt by lia.
  eapply Z.lt_le_trans; [exact Hlt|].
  apply Z.pow_le_mono_l. pose proof (Z.log2_nonneg n). lia.
Qed.

(** The digits of [n] read back as [n]. *)
Lemma spanDigits_digitsOf n : 0 <= n ->
  exists d ds, spanDigits (digitsOf n) = (d :: ds, EmptyString) /\
               digitsValue (d :: ds) = n.
Proof.
  intros Hn. unfold digitsOf.
  destruct (consume_digitsBefore (Z.to_nat (Z.log2 n)) n EmptyString 0 (conj Hn (fuel_enough n Hn)))
    as (k & _ & E).
  destruct (digitsBefore_head (Z.to_nat (Z.log2 n)) n EmptyString Hn) as (d & rest & Hd & Es).
  rewrite consume_spanDigits in E. cbn [consume] in E.
  rewrite Es in *. cbn [spanDigits] in *. rewrite digitOf_digitChar in * by assumption.
  destruct (spanDigits rest) as [ds r]. cbn [fst snd] in E.
  injection E as E1 E2. subst r.
  exists d, ds. split; [reflexivity|]. unfold digitsValue. cbn [fold_left] in *. lia.
Qed.

Lemma digitsOf_head n : 0 <= n ->
  exists d rest, 0 <= d <= 9 /\ digitsOf n = String (digitChar d) rest.
Proof. intros Hn. apply digitsBefore_head. assumption. Qed.

(** An integer below 2^53 in magnitude is a number, exactly. *)
Lemma to_Z_of_Z z b : z <> 0 -> Z.abs z < 2 ^ 53 -> to_Z (of_Z z b) = Some z.
Proof.
  assert (Hpos : forall p s, Z.pos p < 2 ^ 53 ->
    to_Z (match Z.shiftl (Z.pos p) (prec - (Z.log2 (Z.pos p) + 1)) with
          | Z.pos m => S754_finite s m (Z.log2 (Z.pos p) + 1 - prec)
          | _ => S754_nan
          end) = Some (if s then - Z.pos p else Z.pos p)).
  { intros p s Hp. unfold prec.
    pose proof (Z.log2_nonneg (Z.pos p)) as H0.
    assert (Hl : Z.log2 (Z.pos p) < 53) by (apply Z.log2_lt_pow2; lia).
    set (k := 53 - (Z.log2 (Z.pos p) + 1)). assert (Hk : 0 <= k) by lia.
    rewrite Z.shiftl_mul_pow2 by lia.
    assert (Hm : 0 < Z.pos p * 2 ^ k) by (apply Z.mul_pos_pos; [lia|apply Z.pow_pos_nonneg; lia]).
    destruct (Z.pos p * 2 ^ k) as [|m|m] eqn:Em; try lia.
    replace (Z.log2 (Z.pos p) + 1 - 53) with (- k) by lia.
    unfold to_Z. destruct k as [|k|k]; try lia.
    - cbn. rewrite Z.mul_1_r in Em. rewrite <- Em. destruct s; reflexivity.
    - change (- Z.pos k) with (Z.neg k). cbv iota. rewrite <- Em. rewrite Z.mod_mul by lia. cbn [Z.eqb].
      rewrite Z.shiftr_div_pow2 by lia. rewrite Z.div_mul by lia.
      destruct s; reflexivity. }
  intros Hz Hlt. destruct z as [|p|p]; [congruence| |]; cbn [of_Z].
  - destruct (Z.ltb_spec (Z.pos p) (2 ^ prec)) as [H|H]; [|unfold prec in H; lia].
    apply (Hpos p false). lia.
  - destruct (Z.ltb_spec (Z.pos p) (2 ^ prec)) as [H|H]; [|unfold prec in H; lia].
    apply (Hpos p true). lia.
Qed.

Lemma of_Z_finite z b : z <> 0 -> Z.abs z < 2 ^ 53 ->
  exists s m e, of_Z z b = S754_finite s m e.
Proof.
  intros Hz Hlt. pose proof (to_Z_of_Z z b Hz Hlt) as H.
  destruct (of_Z z b) as [s|s| |s m e] eqn:E; try discriminate.
  - cbn in H. injection H as H. congruence.
  - eauto.
Qed.


Lemma of_Z_sign z a b : z <> 0 -> of_Z z a = of_Z z b.
Proof. destruct z; [congruence| |]; reflexivity. Qed.

End NumberFacts.

Section StringFacts.
Import JS.

Lemma append_nil_l (s : string) : "" +:+ s = s.
Proof. reflexivity. Qed.

Lemma append_cons a (s t : string) : String a s +:+ t = String a (s +:+ t).
Proof. reflexivity. Qed.

Lemma split_no_sep c s : contains c s = false -> split c s = [s].
Proof.
  induction s as [|a s IH]; cbn [contains split]; [reflexivity|].
  intros H. apply orb_false_elim in H as [Ha Hs]. rewrite Ha, (IH Hs). reflexivity.
Qed.

Lemma split_app c s t :
  contains c s = false -> split c (s +:+ String c t) = s :: split c t.
Proof.
  induction s as [|a s IH]; rewrite ?append_nil_l, ?append_cons; cbn [contains split].
  - intros _. rewrite Ascii.eqb_refl. reflexivity.
  - intros H. apply orb_false_elim in H as [Ha Hs]. rewrite Ha, (IH Hs). reflexivity.
Qed.

Lemma append_assoc (a b c : string) : (a +:+ b) +:+ c = a +:+ (b +:+ c).
Proof.
  induction a as [|x a IH]; rewrite ?append_nil_l, ?append_cons; [reflexivity|].
  rewrite IH. reflexivity.
Qed.

(** Splitting what [join] wrote gives the segments back, each after the
    first one behind the space of the separator. *)
Lemma split_join x l :
  Forall (fun s => contains "," s = false) (x :: l) ->
  split "," (join ", " (x :: l)) = x :: map (String " ") l.
Proof.
  revert x. induction l as [|y l IH]; intros x H.
  - cbn [join map]. apply split_no_sep. inversion H; assumption.
  - inversion H as [|? ? Hx Hl]; subst.
    change (join ", " (x :: y :: l)) with (x +:+ ", " +:+ join ", " (y :: l)).
    change (x +:+ ", " +:+ join ", " (y :: l))
      with (x +:+ String "," (String " " (join ", " (y :: l)))).
    rewrite (split_app "," x _ Hx).
    change (String " " (join ", " (y :: l))) with (" " +:+ join ", " (y :: l)).
    rewrite append_cons, append_nil_l.
    cbn [split]. change (Ascii.eqb " " ",") with false. cbv iota.
    rewrite (IH y Hl). reflexivity.
Qed.

Lemma trim_space s : trim (String " " s) = trim s.
Proof. reflexivity. Qed.

Lemma map_trim_split_join x l :
  Forall (fun s => contains "," s = false /\ trim s = s) (x :: l) ->
  map trim (split "," (join ", " (x :: l))) = x :: l.
Proof.
  intros H. rewrite split_join.
  - cbn [map]. inversion H as [|? ? [_ Hx] Hl]; subst. rewrite Hx. f_equal.
    clear H Hx. induction Hl as [|y l [_ Hy] Hl IH]; cbn [map]; [reflexivity|].
    rewrite trim_space, Hy, IH. reflexivity.
  - eapply Forall_impl; [exact H|]. intros s [Hs _]. exact Hs.
Qed.

Lemma join_nonempty x y l : join ", " (x :: y :: l) <> "".
Proof.
  change (join ", " (x :: y :: l)) with (x +:+ ", " +:+ join ", " (y :: l)).
  destruct x; discriminate.
Qed.

Lemma joinValues_strings sep l : joinValues sep (VStr <$> l) = Ok (join sep l).
Proof.
  unfold joinValues.
  assert (H : omap (fun v => match v with
                             | VUndefined | VNull => Ok EmptyString
                             | _ => toStringPrim v
                             end) (VStr <$> l) = Ok l).
  { induction l as [|s l IH]; cbn; [reflexivity|]. rewrite IH. reflexivity. }
  rewrite H. reflexivity.
Qed.

End StringFacts.

Section PropertyTypesFacts.
Import JS PropertyTypes.

Ltac pstep :=
  unfold defaultParse, defaultStringify, defaultEquals, boolParse, intParse,
    numberParse;
  unfold mbind, M_bind, mret, M_ret, bind, ret, get, modify, withStore, lift,
    throw, new; cbn -[lookup insert].

(** The descriptors of the built-in types. *)
Lemma builtin_descriptors :
  propertyTypes builtinWorld =
  list_to_map
    [ ("audio", {| dflt := VStr ""; parse := VFun FassetParse; stringify := VFun FassetStringify;
                   equals := VFun FdefaultEquals; isCacheable := true |});
      ("array", {| dflt := VRef 1%positive; parse := VFun FarrayParse; stringify := VFun FarrayStringify;
                   equals := VFun FarrayEquals; isCacheable := true |});
      ("asset", {| dflt := VStr ""; parse := VFun FassetParse; stringify := VFun FassetStringify;
                   equals := VFun FdefaultEquals; isCacheable := true |});
      ("boolean", {| dflt := VBool false; parse := VFun FboolParse; stringify := VFun FdefaultStringify;
                     equals := VFun FdefaultEquals; isCacheable := true |});
      ("color", {| dflt := VStr "#FFF"; parse := VFun FdefaultParse; stringify := VFun FdefaultStringify;
                   equals := VFun FdefaultEquals; isCacheable := true |});
      ("int", {| dflt := num 0; parse := VFun FintParse; stringify := VFun FdefaultStringify;
                 equals := VFun FdefaultEquals; isCacheable := true |});
      ("number", {| dflt := num 0; parse := VFun FnumberParse; stringify := VFun FdefaultStringify;
                    equals := VFun FdefaultEquals; isCacheable := true |});
      ("map", {| dflt := VStr ""; parse := VFun FassetParse; stringify := VFun FassetStringify;
                 equals := VFun FdefaultEquals; isCacheable := true |});
      ("model", {| dflt := VStr ""; parse := VFun FassetParse; stringify := VFun FassetStringify;
                   equals := VFun FdefaultEquals; isCacheable := true |});
      ("selector", {| dflt := VNull; parse := VFun FselectorParse; stringify := VFun FselectorStringify;
                      equals := VFun FdefaultEquals; isCacheable := false |});
      ("selectorAll", {| dflt := VNull; parse := VFun FselectorAllParse;
                         stringify := VFun FselectorAllStringify;
                         equals := VFun FarrayEquals; isCacheable := false |});
      ("src", {| dflt := VStr ""; parse := VFun FsrcParse; stringify := VFun FassetStringify;
                 equals := VFun FdefaultEquals; isCacheable := true |});
      ("string", {| dflt := VStr ""; parse := VFun FdefaultParse; stringify := VFun FdefaultStringify;
                    equals := VFun FdefaultEquals; isCacheable := true |});
      ("time", {| dflt := num 0; parse := VFun FintParse; stringify := VFun FdefaultStringify;
                  equals := VFun FdefaultEquals; isCacheable := true |});
      ("vec2", {| dflt := VRef 2%positive; parse := VFun FvecParse; stringify := VFun FcoordinatesStringify;
                  equals := VFun FcoordinatesEquals; isCacheable := true |});
      ("vec3", {| dflt := VRef 3%positive; parse := VFun FvecParse; stringify := VFun FcoordinatesStringify;
                  equals := VFun FcoordinatesEquals; isCacheable := true |});
      ("vec4", {| dflt := VRef 4%positive; parse := VFun FvecParse; stringify := VFun FcoordinatesStringify;
                  equals := VFun FcoordinatesEquals; isCacheable := true |}) ].
Proof. vm_compute. reflexivity. Qed.

Lemma loaded_lookup w name d :
  loaded w -> propertyTypes builtinWorld !! name = Some d -> propertyTypes w !! name = Some d.
Proof. intros -> H. exact H. Qed.

Lemma itemsEqualFrom_refl pre l :
  itemsEqualFrom (VStr <$> l) (pre ++ (VStr <$> l)) (length pre) = true.
Proof.
  revert pre. induction l as [|s l IH]; intros pre; cbn [fmap list_fmap itemsEqualFrom]; [reflexivity|].
  rewrite list_lookup_middle by reflexivity. cbn.
  unfold strict_neq, strict_eq. rewrite String.eqb_refl. cbn.
  specialize (IH (pre ++ [VStr s])). rewrite <- app_assoc, length_app in IH.
  cbn in IH. rewrite Nat.add_1_r in IH. exact IH.
Qed.


(** *** [arrayParse] case by case *)

Lemma arrayParse_array v w :
  isArray (store w) v = true -> arrayParse v w = (Ok v, w).
Proof. intros H. unfold arrayParse. pstep. rewrite H. reflexivity. Qed.

Lemma arrayParse_string s w :
  s <> "" -> arrayParse (VStr s) w = new (OArray (VStr <$> map trim (split "," s))) w.
Proof.
  intros H. unfold arrayParse, mbind, M_bind, bind, withStore.
  cbn [isArray truthy typeof]. apply String.eqb_neq in H. rewrite H. reflexivity.
Qed.

Lemma arrayParse_of_empty w : arrayParse (VStr "") w = new (OArray []) w.
Proof. reflexivity. Qed.

Lemma arrayParse_other v w :
  isArray (store w) v = false -> (forall s, v <> VStr s) ->
  arrayParse v w = new (OArray []) w.
Proof.
  intros H Hs. unfold arrayParse, mbind, M_bind, bind, withStore. rewrite H.
  destruct v as [| | | |s| |]; try reflexivity.
  - destruct (truthy (VBool b)); reflexivity.
  - destruct (truthy (VNum x)); reflexivity.
  - exfalso. apply (Hs s). reflexivity.
Qed.

Lemma fresh_store_None (h : heap) : h !! fresh (dom h) = None.
Proof. apply not_elem_of_dom. apply is_fresh. Qed.

(** *** Integers written and read back *)

Lemma integerToString_digits z :
  exists d rest, (0 <= d <= 9)%Z /\
    integerToString z =
      (if (z <? 0)%Z then String "-" (String (digitChar d) rest)
       else String (digitChar d) rest) /\
    digitsOf (Z.abs z) = String (digitChar d) rest.
Proof.
  unfold integerToString. destruct (Z.ltb_spec z 0) as [H|H].
  - destruct (digitsOf_head (- z) ltac:(lia)) as (d & rest & Hd & E).
    exists d, rest. rewrite Z.abs_neq by lia. rewrite E. auto.
  - destruct (digitsOf_head z H) as (d & rest & Hd & E).
    exists d, rest. rewrite Z.abs_eq by lia. rewrite E. auto.
Qed.

Lemma digitChar_not_sign d : (0 <= d <= 9)%Z ->
  signOf (String (digitChar d) EmptyString) = (false, String (digitChar d) EmptyString) /\
  forall rest, signOf (String (digitChar d) rest) = (false, String (digitChar d) rest).
Proof.
  intros H.
  assert (Hd : (d = 0 \/ d = 1 \/ d = 2 \/ d = 3 \/ d = 4 \/ d = 5 \/ d = 6 \/
               d = 7 \/ d = 8 \/ d = 9)%Z) by lia.
  repeat destruct Hd as [-> | Hd]; try subst d; split; reflexivity.
Qed.

Lemma digitChar_not_I d rest : (0 <= d <= 9)%Z ->
  startsWith "Infinity" (String (digitChar d) rest) = false.
Proof.
  intros H.
  assert (Hd : (d = 0 \/ d = 1 \/ d = 2 \/ d = 3 \/ d = 4 \/ d = 5 \/ d = 6 \/
               d = 7 \/ d = 8 \/ d = 9)%Z) by lia.
  repeat destruct Hd as [-> | Hd]; try subst d; reflexivity.
Qed.

(** The sign and the digits [parseInt] and [parseFloat] find in the string
    of an integer. *)
Lemma signOf_integerToString z :
  exists d ds,
    (let '(neg, s1) := signOf (trimStart (integerToString z)) in
     neg = (z <? 0)%Z /\ spanDigits s1 = (d :: ds, EmptyString) /\
     startsWith "Infinity" s1 = false) /\
    digitsValue (d :: ds) = Z.abs z.
Proof.
  destruct (integerToString_digits z) as (d0 & rest & Hd & E & Edig).
  destruct (spanDigits_digitsOf (Z.abs z) (Z.abs_nonneg z)) as (d & ds & Hspan & Hval).
  exists d, ds. split; [|exact Hval]. rewrite E. rewrite Edig in Hspan.
  destruct (z <? 0)%Z.
  - cbn [trimStart]. change (isWhiteSpace "-") with false. cbv iota.
    cbn [signOf]. repeat split; [exact Hspan|apply digitChar_not_I; exact Hd].
  - cbn [trimStart]. rewrite digitChar_not_space by exact Hd.
    rewrite (proj2 (digitChar_not_sign d0 Hd)).
    repeat split; [exact Hspan|apply digitChar_not_I; exact Hd].
Qed.

Lemma parseInt_integerToString z :
  parseInt (integerToString z) = of_Z z (z <? 0)%Z.
Proof.
  destruct (signOf_integerToString z) as (d & ds & H & Hval). unfold parseInt.
  destruct (signOf (trimStart (integerToString z))) as [neg s1].
  destruct H as (-> & -> & _). rewrite Hval.
  destruct (Z.ltb_spec z 0); f_equal; lia.
Qed.

Lemma parseFloat_integerToString z :
  parseFloat (integerToString z) = of_Z z (z <? 0)%Z.
Proof.
  destruct (signOf_integerToString z) as (d & ds & H & Hval). unfold parseFloat.
  destruct (signOf (trimStart (integerToString z))) as [neg s1].
  destruct H as (-> & -> & ->). rewrite app_nil_r. rewrite Hval.
  cbn [length Z.of_nat Z.sub Z.opp]. unfold decimalToNumber.
  destruct (Z.abs z) as [|p|p] eqn:Ep; [| |lia].
  - assert (z = 0%Z) as -> by lia. reflexivity.
  - cbn [Z.pow]. rewrite Z.mul_1_r. destruct (Z.ltb_spec z 0); f_equal; lia.
Qed.

Lemma numberToString_of_Z z b :
  (Z.abs z < 2 ^ 53)%Z -> numberToString (of_Z z b) = Ok (integerToString z).
Proof.
  intros Hz. destruct (Z.eq_dec z 0%Z) as [->|Hne]; [reflexivity|].
  destruct (of_Z_finite z b Hne Hz) as (s & m & e & E).
  pose proof (to_Z_of_Z z b Hne Hz) as Hto. rewrite E in *.
  unfold numberToString. rewrite Hto.
  destruct (Z.ltb_spec (Z.abs z) (2 ^ 53)) as [_|H]; [reflexivity|].
  exfalso. lia.
Qed.


(** *** The registry *)

(** C3. Registering a type name that is in the registry throws the error of
    a duplicate type and leaves the registry, and so the entry of the first
    registration, as it is.  A name that is free is registered by the first
    call; a second call with that name throws and leaves the entry the first
    call made. *)
Theorem register_duplicate w type d defaultValue parse' stringify' equals' cacheable :
  propertyTypes w !! type = Some d ->
  let r := registerPropertyType type defaultValue parse' stringify' equals' cacheable w in
  r = (Throw (alreadyRegistered type), w) /\
  propertyTypes (snd r) !! type = Some d /\
  forall w0 dv1 p1 s1 e1 c1,
    inPropertyTypes type (propertyTypes w0) = false ->
    let r1 := registerPropertyType type dv1 p1 s1 e1 c1 w0 in
    let r2 := registerPropertyType type defaultValue parse' stringify' equals' cacheable (snd r1) in
    fst r1 = Ok tt /\
    fst r2 = Throw (alreadyRegistered type) /\
    snd r2 = snd r1 /\
    propertyTypes (snd r2) !! type =
      Some {| dflt := dv1; parse := orElse p1 (VFun FdefaultParse);
              stringify := orElse s1 (VFun FdefaultStringify);
              equals := orElse e1 (VFun FdefaultEquals);
              isCacheable := strict_neq c1 (VBool false) |}.
Proof.
  assert (Hdup : forall w d dv p s e c, propertyTypes w !! type = Some d ->
            registerPropertyType type dv p s e c w = (Throw (alreadyRegistered type), w)).
  { intros w' d' dv p s e c H. unfold registerPropertyType, inPropertyTypes. pstep.
    rewrite H. rewrite bool_decide_eq_true_2 by eauto. reflexivity. }
  intros Hd r. unfold r. rewrite (Hdup w d _ _ _ _ _ Hd).
  split; [reflexivity|]. split; [exact Hd|].
  intros w0 dv1 p1 s1 e1 c1 Hfree.
  assert (E1 : registerPropertyType type dv1 p1 s1 e1 c1 w0 = (Ok tt, set_propertyTypes
            (<[type := {| dflt := dv1; parse := orElse p1 (VFun FdefaultParse);
                          stringify := orElse s1 (VFun FdefaultStringify);
                          equals := orElse e1 (VFun FdefaultEquals);
                          isCacheable := strict_neq c1 (VBool false) |}]>
               (propertyTypes w0)) w0)).
  { unfold registerPropertyType. pstep. rewrite Hfree. reflexivity. }
  rewrite E1. cbn [fst snd]. erewrite Hdup.
  - cbn [fst snd set_propertyTypes propertyTypes]. rewrite lookup_insert_eq. repeat split.
  - cbn [set_propertyTypes propertyTypes]. apply lookup_insert_eq.
Qed.

(** *** The array type *)

Lemma resultItems_new items w : resultItems (new (OArray items) w) = Some items.
Proof. unfold resultItems, new. cbn -[lookup insert]. rewrite lookup_insert_eq. reflexivity. Qed.

(** C5, as amended.  [arrayParse] returns an array as it is; of a string
    other than the empty one it makes the array of its segments between
    commas, each trimmed, so that "a, b ,c" gives ["a", "b", "c"]; of any
    other value, and of the empty string, it makes the empty array. *)
Theorem arrayParse_cases w :
  (forall v, isArray (store w) v = true -> arrayParse v w = (Ok v, w)) /\
  (forall s, s <> "" ->
     arrayParse (VStr s) w = new (OArray (VStr <$> map trim (split "," s))) w /\
     resultItems (arrayParse (VStr s) w) = Some (VStr <$> map trim (split "," s))) /\
  resultItems (arrayParse (VStr "a, b ,c") w) = Some [VStr "a"; VStr "b"; VStr "c"] /\
  (forall v, isArray (store w) v = false -> (forall s, v <> VStr s) ->
     arrayParse v w = new (OArray []) w /\
     resultItems (arrayParse v w) = Some []) /\
  resultItems (arrayParse VNull w) = Some [] /\
  resultItems (arrayParse (VStr "") w) = Some [].
Proof.
  split; [intros v; apply arrayParse_array|].
  split; [intros s Hs; rewrite (arrayParse_string s w Hs); split;
          [reflexivity | apply resultItems_new]|].
  split; [rewrite arrayParse_string by discriminate; apply resultItems_new|].
  split; [intros v Hv Hs; rewrite (arrayParse_other v w Hv Hs); split;
          [reflexivity | apply resultItems_new]|].
  split; [apply (resultItems_new [] w)|apply (resultItems_new [] w)].
Qed.

(** C5, as stated, fails at the empty string: its only segment is the empty
    string, and [arrayParse] makes the empty array of it. *)
Lemma arrayParse_empty_string_not_split :
  resultItems (arrayParse (VStr "") emptyWorld) = Some [] /\
  VStr <$> map trim (split "," "") = [VStr ""] /\
  resultItems (arrayParse (VStr "") emptyWorld)
    <> Some (VStr <$> map trim (split "," "")).
Proof. repeat split. vm_compute. discriminate. Qed.

(** C9. [arrayParse] makes the empty array of the empty string, not the
    array of one empty string that splitting it would give; so the empty
    array, which [arrayStringify] writes as the empty string, comes back
    equal. *)
Theorem arrayParse_empty_string w (a : loc) :
  store w !! a = Some (OArray []) ->
  resultItems (arrayParse (VStr "") w) = Some [] /\
  map trim (split "," "") = [""] /\
  arrayStringify (VRef a) w = (Ok (VStr ""), w) /\
  exists r w',
    arrayParse (VStr "") w = (Ok r, w') /\
    resultItems (Ok r, w') = Some [] /\
    arrayEquals r (VRef a) w' = (Ok (VBool true), w').
Proof.
  intros Ha. split; [apply (resultItems_new [] w)|]. split; [reflexivity|].
  split; [unfold arrayStringify; pstep; rewrite Ha; reflexivity|].
  eexists _, _. split; [reflexivity|]. split; [apply (resultItems_new [] w)|].
  pose proof (fresh_store_None (store w)) as Hfresh.
  assert (Hneq : a <> fresh (dom (store w))) by (intros ->; congruence).
  unfold arrayEquals. pstep. rewrite lookup_insert_eq.
  rewrite lookup_insert_ne by congruence. rewrite Ha. reflexivity.
Qed.

(** *** Validation of vector defaults *)

Lemma isNumber_lookup (props : gmap string value) k :
  isNumber (default VUndefined (props !! k)) = true <-> exists x, props !! k = Some (VNum x).
Proof.
  destruct (props !! k) as [[]|]; cbn; split; try discriminate; eauto;
    intros [? ?]; discriminate.
Qed.

Lemma dom_of_keys (props : gmap string value) (keys : list string) :
  NoDup keys -> size props = length keys ->
  (forall k, k ∈ keys -> is_Some (props !! k)) ->
  dom props = list_to_set keys.
Proof.
  intros Hnd Hsize Hin. symmetry. apply set_subseteq_size_eq.
  - intros k Hk. apply elem_of_list_to_set in Hk. apply elem_of_dom. auto.
  - rewrite size_dom, Hsize, size_list_to_set by assumption. reflexivity.
Qed.

Lemma size_of_keys (props : gmap string value) (keys : list string) :
  NoDup keys -> dom props = list_to_set keys -> size props = length keys.
Proof.
  intros Hnd Hdom. rewrite <- size_dom, Hdom. apply size_list_to_set. assumption.
Qed.

Lemma coordinate_keys_NoDup : NoDup ["x"; "y"; "z"; "w"].
Proof.
  repeat (apply NoDup_cons; split;
          [intros H; repeat (apply elem_of_cons in H as [H|H]; [discriminate|]);
           apply elem_of_nil in H; contradiction|]).
  apply NoDup_nil. constructor.
Qed.

(** The check on an object with named properties. *)
Lemma isValidDefaultCoordinate_object h (l : loc) props dims keys :
  (dims = 2 /\ keys = ["x"; "y"] \/ dims = 3 /\ keys = ["x"; "y"; "z"] \/
   dims = 4 /\ keys = ["x"; "y"; "z"; "w"]) ->
  h !! l = Some (OObject props) ->
  isValidDefaultCoordinate h (VRef l) dims = Ok true <->
  dom props = list_to_set keys /\ forall k, k ∈ keys -> exists x, props !! k = Some (VNum x).
Proof.
  intros Hd Hl.
  assert (Hnd : NoDup keys).
  { pose proof coordinate_keys_NoDup as H4.
    destruct Hd as [[_ ->]|[[_ ->]|[_ ->]]].
    - apply (NoDup_ListNoDup ["x";"y"]). repeat constructor; cbn; intuition discriminate.
    - apply (NoDup_ListNoDup ["x";"y";"z"]). repeat constructor; cbn; intuition discriminate.
    - exact H4. }
  assert (Hlen : length keys = dims) by (destruct Hd as [[-> ->]|[[-> ->]|[-> ->]]]; reflexivity).
  unfold isValidDefaultCoordinate. cbn -[lookup Nat.eqb Nat.ltb]. rewrite Hl.
  cbn -[lookup Nat.eqb Nat.ltb].
  split.
  - intros H. destruct (Nat.eqb_spec (size props) dims) as [Hs|Hs]; [|discriminate].
    cbn [negb] in H.
    assert (Hall : forall k, k ∈ keys -> exists x, props !! k = Some (VNum x)).
    { destruct Hd as [[-> ->]|[[-> ->]|[-> ->]]]; cbn -[lookup] in H;
        repeat match type of H with
               | context [isNumber (default VUndefined (props !! ?k))] =>
                   let E := fresh "E" in
                   destruct (isNumber (default VUndefined (props !! k))) eqn:E;
                   [apply isNumber_lookup in E|discriminate]
               end;
        intros k Hk; repeat (apply elem_of_cons in Hk as [->|Hk]; [assumption|]);
        apply elem_of_nil in Hk; contradiction. }
    split; [|exact Hall]. apply dom_of_keys; [exact Hnd|congruence|].
    intros k Hk. destruct (Hall k Hk) as [x ->]. eauto.
  - intros [Hdom Hall]. rewrite (size_of_keys props keys Hnd Hdom), Hlen, Nat.eqb_refl.
    cbn [negb].
    destruct Hd as [[-> ->]|[[-> ->]|[-> ->]]];
      repeat match goal with
             | |- context [isNumber (default VUndefined (props !! ?k))] =>
                 let E := fresh in
                 assert (E : isNumber (default VUndefined (props !! k)) = true)
                   by (apply isNumber_lookup; apply Hall;
                       repeat first [apply list_elem_of_here | apply list_elem_of_further]);
                 rewrite E; clear E
             end; reflexivity.
Qed.

Lemma isNumber_value v : isNumber v = true <-> exists x, v = VNum x.
Proof. destruct v; cbn; split; try discriminate; eauto; intros [? ?]; discriminate. Qed.

(** The check on an object, by what it reads of the object: the number of
    its own enumerable properties and the values of the four properties. *)
Lemma isValidDefaultCoordinate_reads h (l : loc) n (g : string -> value) dims keys :
  (dims = 2 /\ keys = ["x"; "y"] \/ dims = 3 /\ keys = ["x"; "y"; "z"] \/
   dims = 4 /\ keys = ["x"; "y"; "z"; "w"]) ->
  keysLength h (VRef l) = Ok n ->
  (forall k, getProp h (VRef l) k = Ok (g k)) ->
  isValidDefaultCoordinate h (VRef l) dims = Ok true <->
  n = dims /\ forall k, k ∈ keys -> exists x, g k = VNum x.
Proof.
  intros Hd Hn Hg. unfold isValidDefaultCoordinate.
  cbn [strict_eq typeof String.eqb Ascii.eqb Bool.eqb andb negb].
  rewrite Hn, !Hg. cbn [obind].
  destruct (Nat.eqb_spec n dims) as [Hs|Hs]; cbn [negb];
    [|split; [discriminate|intros [H _]; contradiction]].
  split.
  - intros H. split; [exact Hs|].
    destruct Hd as [[-> ->]|[[-> ->]|[-> ->]]]; cbn [Nat.ltb Nat.leb andb] in H;
      repeat match type of H with
             | context [isNumber (g ?k)] =>
                 let E := fresh "E" in
                 destruct (isNumber (g k)) eqn:E;
                 [apply isNumber_value in E|discriminate]
             end;
      intros k Hk; repeat (apply elem_of_cons in Hk as [->|Hk]; [assumption|]);
      apply elem_of_nil in Hk; contradiction.
  - intros [_ Hall].
    destruct Hd as [[-> ->]|[[-> ->]|[-> ->]]]; cbn [Nat.ltb Nat.leb andb];
      repeat match goal with
             | |- context [isNumber (g ?k)] =>
                 let E := fresh in
                 assert (E : isNumber (g k) = true)
                   by (apply isNumber_value; apply Hall;
                       repeat first [apply list_elem_of_here | apply list_elem_of_further]);
                 rewrite E; clear E
             end; reflexivity.
Qed.

(** Every object in the store has a number of own enumerable properties,
    and every property of it reads as some value. *)
Lemma object_reads h (l : loc) o :
  h !! l = Some o ->
  exists n g, keysLength h (VRef l) = Ok n /\ forall k, getProp h (VRef l) k = Ok (g k).
Proof.
  intros Hl. cbn [keysLength getProp]. rewrite Hl.
  destruct o as [items|props|tag attrs|props inherited].
  - exists (length items), (fun _ => VUndefined). auto.
  - exists (size props), (fun k => default VUndefined (props !! k)). auto.
  - exists 0, (fun k => if String.eqb k "tagName" then VStr tag
                        else if String.eqb k "getAttribute" then VFun FgetAttribute
                        else VUndefined).
    split; [reflexivity|]. intros k.
    destruct (String.eqb k "tagName"); [reflexivity|].
    destruct (String.eqb k "getAttribute"); reflexivity.
  - exists (size props),
      (fun k => default (default VUndefined (inherited !! k)) (props !! k)). auto.
Qed.

(** C6, as amended.  For a vector type, [isValidDefaultValue] accepts
    [null] and the objects that have as many own enumerable properties as
    the type has components and whose properties x, y (and z, and w, by the
    arity) read as numbers, finite or not, own or inherited; it accepts
    nothing else.  For an object that has own enumerable properties only,
    this is to say that its own properties are exactly the components of
    the type, each a number.  For vec3 it rejects [{x: 0, y: 0}], accepts
    [null], and accepts the object with own [x], [y] and [q] that inherits
    [z], whose own properties are not the components. *)
Theorem isValidDefaultValue_vectors h type keys v :
  vectorKeys type = Some keys ->
  (isValidDefaultValue h type v = Ok true <-> v = VNull \/ readsAsVector h v keys) /\
  (forall (l : loc) props, v = VRef l -> h !! l = Some (OObject props) ->
     (readsAsVector h v keys <-> isVectorOf h v keys)) /\
  isValidDefaultValue vectorsHeap "vec3" (VRef 2%positive) = Ok false /\
  isValidDefaultValue h "vec3" VNull = Ok true /\
  isValidDefaultValue derivedHeap "vec3" (VRef 1%positive) = Ok true /\
  ~ isVectorOf derivedHeap (VRef 1%positive) ["x"; "y"; "z"].
Proof.
  intros Hk.
  assert (Hcases : exists dims,
            (dims = 2 /\ keys = ["x"; "y"] \/ dims = 3 /\ keys = ["x"; "y"; "z"] \/
             dims = 4 /\ keys = ["x"; "y"; "z"; "w"]) /\
            isValidDefaultValue h type v = isValidDefaultCoordinate h v dims).
  { unfold vectorKeys in Hk.
    destruct (String.eqb_spec type "vec2") as [->|_];
      [injection Hk as <-; exists 2; split; [tauto|reflexivity]|].
    destruct (String.eqb_spec type "vec3") as [->|_];
      [injection Hk as <-; exists 3; split; [tauto|reflexivity]|].
    destruct (String.eqb_spec type "vec4") as [->|_];
      [injection Hk as <-; exists 4; split; [tauto|reflexivity]|].
    discriminate. }
  destruct Hcases as (dims & Hd & Hrun).
  assert (Hlen : length keys = dims)
    by (destruct Hd as [[-> ->]|[[-> ->]|[-> ->]]]; reflexivity).
  assert (Hnd : NoDup keys).
  { pose proof coordinate_keys_NoDup as H4.
    destruct Hd as [[_ ->]|[[_ ->]|[_ ->]]].
    - apply (NoDup_ListNoDup ["x";"y"]). repeat constructor; cbn; intuition discriminate.
    - apply (NoDup_ListNoDup ["x";"y";"z"]). repeat constructor; cbn; intuition discriminate.
    - exact H4. }
  split; [|split; [|split; [reflexivity|split; [reflexivity|split; [reflexivity|]]]]].
  - rewrite Hrun. destruct v as [| |b|x|s|l|f].
    1,3,4,5,7: split; [discriminate | intros [H|(H & _)]; discriminate].
    + split; [auto | reflexivity].
    + destruct (h !! l) as [o|] eqn:Hl.
      * destruct (object_reads h l o Hl) as (n & g & Hn & Hg).
        rewrite (isValidDefaultCoordinate_reads h l n g dims keys Hd Hn Hg). split.
        -- intros [Hs Hall]. right. split; [reflexivity|]. split; [congruence|].
           intros k Hk'. destruct (Hall k Hk') as [x Hx]. exists x. rewrite Hg, Hx.
           reflexivity.
        -- intros [H|(_ & Hs & Hall)]; [discriminate|]. split; [congruence|].
           intros k Hk'. destruct (Hall k Hk') as [x Hx]. exists x. rewrite Hg in Hx.
           injection Hx as Hx. exact Hx.
      * split.
        -- unfold isValidDefaultCoordinate. cbn -[lookup Nat.eqb Nat.ltb]. rewrite Hl.
           discriminate.
        -- intros [H|(_ & Hs & _)]; [discriminate|]. cbn [keysLength] in Hs.
           rewrite Hl in Hs. discriminate.
  - intros l props -> Hl. unfold readsAsVector, isVectorOf. cbn [typeof keysLength getProp].
    rewrite Hl. split.
    + intros (_ & Hs & Hall). exists l, props. split; [reflexivity|]. split; [exact Hl|].
      assert (Hall' : forall k, k ∈ keys -> exists x, props !! k = Some (VNum x)).
      { intros k Hk'. destruct (Hall k Hk') as [x Hx]. exists x. injection Hx as Hx.
        destruct (props !! k) as [y|]; cbn in Hx; [congruence|discriminate]. }
      split; [|exact Hall']. apply dom_of_keys; [exact Hnd|congruence|].
      intros k Hk'. destruct (Hall' k Hk') as [x ->]. eauto.
    + intros (l' & p & H & Hl' & Hdom & Hall). injection H as <-.
      rewrite Hl in Hl'. injection Hl' as <-. split; [reflexivity|].
      split; [rewrite (size_of_keys props keys Hnd Hdom); reflexivity|].
      intros k Hk'. destruct (Hall k Hk') as [x Hx]. exists x. rewrite Hx. reflexivity.
  - intros (l & props & H & Hl & _). injection H as <-. vm_compute in Hl. discriminate.
Qed.

(** C6, as stated, fails at [{x: NaN, y: 0, z: 0}]: the value is accepted
    for vec3 although [x] is not a finite number. *)
Lemma isValidDefaultValue_accepts_NaN :
  isValidDefaultValue vectorsHeap "vec3" (VRef 1%positive) = Ok true /\
  ~ (VRef 1%positive = VNull \/
     isFiniteVectorOf vectorsHeap (VRef 1%positive) ["x"; "y"; "z"]).
Proof.
  split; [reflexivity|]. intros [H|(l & props & H & Hl & _ & Hall)]; [discriminate|].
  injection H as <-. vm_compute in Hl. injection Hl as <-.
  destruct (Hall "x" ltac:(apply list_elem_of_here)) as (x & Hx & Hfin).
  vm_compute in Hx. injection Hx as <-. discriminate.
Qed.




Section WithSelectors.

Variable querySelectorAll : heap -> list loc -> string -> outcome (list loc).


(** *** The round trip, type by type *)

Ltac lookup_builtin Hw :=
  match goal with
  | |- context [propertyTypes ?w !! ?name] =>
      rewrite (loaded_lookup w name _ Hw ltac:(rewrite builtin_descriptors; reflexivity));
      clear Hw
  end.






Lemma itemsEqualFrom_refs pre ls :
  itemsEqualFrom (VRef <$> ls) (pre ++ (VRef <$> ls)) (length pre) = true.
Proof.
  revert pre. induction ls as [|l ls IH]; intros pre; cbn [fmap list_fmap itemsEqualFrom]; [reflexivity|].
  rewrite list_lookup_middle by reflexivity. cbn.
  unfold strict_neq, strict_eq. rewrite Pos.eqb_refl. cbn.
  specialize (IH (pre ++ [VRef l])). rewrite <- app_assoc, length_app in IH.
  cbn in IH. rewrite Nat.add_1_r in IH. exact IH.
Qed.







(** At [null], its registered default, [stringify] of the selector type
    throws. *)
Lemma roundTrip_selector_null_throws w :
  loaded w -> fst (roundTrip querySelectorAll "selector" VNull w) = Throw TypeError.
Proof. intros Hw. unfold roundTrip. pstep. lookup_builtin Hw. reflexivity. Qed.



(** *** The round trip of the built-in types *)


End WithSelectors.

End PropertyTypesFacts.


(* ===================================================================== *)
(** * Part III: the theorems at sample inputs                              *)
(* ===================================================================== *)

Section TrackedControlsSamples.
Import JS TrackedControls.

(** [handleButton_diff] on the started component, whose button 0 is released,
    with a reading of it pressed, touched and at 0.5. *)
Lemma handleButton_diff_witness :
  buttonReady started 0 4%positive 5%positive released /\
  fst (handleButton 0 halfPressed started) = Ok true /\
  map ev_name (emitted (snd (handleButton 0 halfPressed started))) =
    [EVENTS.BUTTONDOWN; EVENTS.TOUCHSTART; EVENTS.BUTTONCHANGED] /\
  storedButtonState (snd (handleButton 0 halfPressed started)) 0 =
    Ok (VBool true, VBool true, VNum num_0_5).
Proof.
  assert (Hready : buttonReady started 0 4%positive 5%positive released).
  { unfold buttonReady. repeat split; try (vm_compute; reflexivity). discriminate. }
  destruct (handleButton_diff started 0 halfPressed 4%positive 5%positive released Hready)
    as (Hrun & _ & _ & _ & Hpart).
  destruct (Hpart eq_refl eq_refl) as (Hnames & Hstored).
  rewrite Hrun. cbn [fst snd].
  split; [exact Hready|]. split; [vm_compute; reflexivity|].
  split; [rewrite Hnames; reflexivity | exact Hstored].
Defined.

(** [handleAxes_diff] on the started component, whose axis is at rest, with
    the first axis of the gamepad moved to 0.3. *)
Lemma handleAxes_diff_witness :
  axesReady startedMoved 1%positive 2%positive 3%positive [num 0; num 0; num 0] /\
  exists e,
    emitted (snd (handleAxes startedMoved)) = emitted startedMoved ++ [e] /\
    ev_name e = EVENTS.AXISMOVE /\
    axisEventView e =
      Ok ([VNum num_0_3; num 0; num 0], [VBool true; VBool false; VBool false]).
Proof.
  assert (Hready : axesReady startedMoved 1%positive 2%positive 3%positive [num 0; num 0; num 0]).
  { unfold axesReady. repeat split; try (vm_compute; reflexivity); try discriminate.
    eexists. vm_compute. reflexivity. }
  destruct (handleAxes_diff startedMoved 1%positive 2%positive 3%positive [num 0; num 0; num 0]
              (gripController moved) moved Hready eq_refl eq_refl)
    as (_ & _ & _ & Hmoved & _).
  destruct (Hmoved eq_refl) as (e & _ & He & Hn & _ & Hv & _).
  split; [exact Hready|]. exists e. split; [exact He|]. split; [exact Hn|exact Hv].
Defined.

(** [tick_guard_skips] on a component without a controller. *)
Lemma tick_guard_skips_witness :
  controller blank = None /\
  tick translationOf blank = (Ok tt, autoHidden blank) /\
  emitted (autoHidden blank) = [] /\
  visible (object3D (autoHidden blank)) = VBool false.
Proof.
  destruct (tick_guard_skips translationOf blank (or_introl eq_refl)) as (Hrun & He & _).
  split; [reflexivity|]. split; [exact Hrun|]. split; [exact He|reflexivity].
Defined.

End TrackedControlsSamples.

Section PropertyTypesSamples.
Import JS PropertyTypes.

(** [register_duplicate] for a second registration of int. *)
Lemma register_duplicate_witness :
  propertyTypes builtinWorld !! "int" =
    Some {| dflt := num 0; parse := VFun FintParse; stringify := VFun FdefaultStringify;
            equals := VFun FdefaultEquals; isCacheable := true |} /\
  registerPropertyType "int" (num 1) VUndefined VUndefined VUndefined VUndefined builtinWorld
    = (Throw (alreadyRegistered "int"), builtinWorld).
Proof.
  assert (H : propertyTypes builtinWorld !! "int" =
    Some {| dflt := num 0; parse := VFun FintParse; stringify := VFun FdefaultStringify;
            equals := VFun FdefaultEquals; isCacheable := true |})
    by (vm_compute; reflexivity).
  split; [exact H|].
  exact (proj1 (register_duplicate builtinWorld "int" _ (num 1)
                  VUndefined VUndefined VUndefined VUndefined H)).
Defined.


(** [arrayParse_cases] at the string "x,y". *)
Lemma arrayParse_cases_witness :
  resultItems (arrayParse (VStr "x,y") emptyWorld) = Some [VStr "x"; VStr "y"].
Proof.
  destruct (arrayParse_cases emptyWorld) as (_ & Hsplit & _).
  destruct (Hsplit "x,y" ltac:(discriminate)) as (_ & H). exact H.
Defined.

(** [arrayParse_empty_string] at the empty array of the sample world. *)
Lemma arrayParse_empty_string_witness :
  store sampleWorld !! 14%positive = Some (OArray []) /\
  resultItems (arrayParse (VStr "") sampleWorld) = Some [] /\
  arrayStringify (VRef 14%positive) sampleWorld = (Ok (VStr ""), sampleWorld).
Proof.
  assert (H : store sampleWorld !! 14%positive = Some (OArray []))
    by (vm_compute; reflexivity).
  destruct (arrayParse_empty_string sampleWorld 14%positive H) as (Hp & _ & Hs & _).
  split; [exact H|]. split; [exact Hp|exact Hs].
Defined.

(** [isValidDefaultValue_vectors] for vec3 at [{x: NaN, y: 0, z: 0}], and
    at the object with own [x], [y] and [q] that inherits [z]. *)
Lemma isValidDefaultValue_vectors_witness :
  vectorKeys "vec3" = Some ["x"; "y"; "z"] /\
  (isValidDefaultValue vectorsHeap "vec3" (VRef 1%positive) = Ok true <->
   VRef 1%positive = VNull \/
   readsAsVector vectorsHeap (VRef 1%positive) ["x"; "y"; "z"]) /\
  (readsAsVector vectorsHeap (VRef 1%positive) ["x"; "y"; "z"] <->
   isVectorOf vectorsHeap (VRef 1%positive) ["x"; "y"; "z"]) /\
  isValidDefaultValue vectorsHeap "vec3" (VRef 2%positive) = Ok false /\
  isValidDefaultValue derivedHeap "vec3" (VRef 1%positive) = Ok true /\
  ~ isVectorOf derivedHeap (VRef 1%positive) ["x"; "y"; "z"].
Proof.
  destruct (isValidDefaultValue_vectors vectorsHeap "vec3" ["x"; "y"; "z"] (VRef 1%positive)
              eq_refl) as (Hiff & Hplain & Hshort & _ & Hderived & Hnot).
  split; [reflexivity|]. split; [exact Hiff|].
  split; [|split; [exact Hshort|split; [exact Hderived|exact Hnot]]].
  apply (Hplain 1%positive
           (<["x" := VNum NaN]> (<["y" := num 0]> (<["z" := num 0]> ∅)))); reflexivity.
Defined.




End PropertyTypesSamples.

(* ===================================================================== *)
(** * Part IV: further properties                                          *)
(* ===================================================================== *)

Section TrackedControlsInvariants.
Import JS TrackedControls.

Ltac step :=
  unfold mbind, M_bind, mret, M_ret, bind, ret, get, modify, withStore, updStore,
    emit, buttonStateAt, buttonEventDetailAt; cbn -[lookup insert].

Lemma sameBindings_refl s : sameBindings s s.
Proof. repeat split. Qed.

Lemma sameBindings_trans s1 s2 s3 :
  sameBindings s1 s2 -> sameBindings s2 s3 -> sameBindings s1 s3.
Proof.
  unfold sameBindings. intros H1 H2.
  repeat match goal with H : _ /\ _ |- _ => destruct H as [? ?] end.
  repeat split; congruence.
Qed.

Lemma extends_refl s : extends s s.
Proof.
  split; [apply sameBindings_refl|]. split; [exists []; symmetry; apply app_nil_r|].
  split; auto.
Qed.

Lemma extends_trans s1 s2 s3 : extends s1 s2 -> extends s2 s3 -> extends s1 s3.
Proof.
  intros (Hb1 & [n1 He1] & Hs1 & Hd1) (Hb2 & [n2 He2] & Hs2 & Hd2).
  split; [eapply sameBindings_trans; eassumption|].
  split; [exists (n1 ++ n2); rewrite He2, He1, app_assoc; reflexivity|].
  split; eauto.
Qed.

Lemma touches_refl l s : touches l s s.
Proof.
  split; [reflexivity|]. split; [reflexivity|]. split; [apply sameBindings_refl|].
  split; [exists []; symmetry; apply app_nil_r|]. reflexivity.
Qed.

Lemma touches_trans l s1 s2 s3 : touches l s1 s2 -> touches l s2 s3 -> touches l s1 s3.
Proof.
  intros (Hs1 & Hd1 & Hb1 & [n1 He1] & Ho1) (Hs2 & Hd2 & Hb2 & [n2 He2] & Ho2).
  split; [congruence|]. split; [congruence|].
  split; [eapply sameBindings_trans; eassumption|].
  split; [exists (n1 ++ n2); rewrite He2, He1, app_assoc; reflexivity|].
  intros l' Hl'. rewrite Ho2, Ho1 by assumption. reflexivity.
Qed.

Lemma touches_extends l s s' : touches l s s' -> extends s s'.
Proof.
  intros (Hs & Hd & Hb & He & _). split; [exact Hb|]. split; [exact He|].
  rewrite Hs, Hd. split; auto.
Qed.

Lemma touches_afterCheck s l d ps changed name k x :
  touches l s (afterCheck changed name d l ps k x s).
Proof.
  unfold afterCheck. destruct changed; [|apply touches_refl].
  destruct name as [n|]; (split; [reflexivity|]; split; [reflexivity|];
    split; [repeat split|]; split;
    [|intros l' Hl'; cbn -[lookup insert]; apply lookup_insert_ne; congruence]).
  - eexists. reflexivity.
  - exists []. symmetry. apply app_nil_r.
Qed.

(** One button in full: the three checks touch the state object of the
    button and nothing else in the store. *)
Lemma handleButton_run s id b l d ps :
  buttonReady s id l d ps ->
  let old k := default VUndefined (ps !! k) in
  let p := strict_neq (b_pressed b) (old "pressed") in
  let t := strict_neq (b_touched b) (old "touched") in
  let v := strict_neq (b_value b) (old "value") in
  exists s' ps',
    handleButton id b s = (Ok (p || t || v), s') /\
    touches l s s' /\ buttonReady s' id l d ps' /\
    default VUndefined (ps' !! "pressed") = (if p then b_pressed b else old "pressed") /\
    default VUndefined (ps' !! "touched") = (if t then b_touched b else old "touched") /\
    default VUndefined (ps' !! "value") = (if v then b_value b else old "value") /\
    (p || t || v = false -> s' = s) /\
    (p || t || v = true ->
       exists evs, emitted s' = evs ++ [eventAt EVENTS.BUTTONCHANGED d s']) /\
    map ev_name (emitted s') =
      map ev_name (emitted s) ++
        (if p then [if truthy (b_pressed b) then EVENTS.BUTTONDOWN else EVENTS.BUTTONUP]
         else []) ++
        (if t then [if truthy (b_touched b) then EVENTS.TOUCHSTART else EVENTS.TOUCHEND]
         else []) ++
        (if p || t || v then [EVENTS.BUTTONCHANGED] else []).
Proof.
  intros Hready old p t v.
  set (ps1 := if p then <["pressed" := b_pressed b]> ps else ps).
  set (ps2 := if t then <["touched" := b_touched b]> ps1 else ps1).
  set (ps3 := if v then <["value" := b_value b]> ps2 else ps2).
  set (s1 := afterCheck p
               (Some (if truthy (b_pressed b) then EVENTS.BUTTONDOWN else EVENTS.BUTTONUP))
               d l ps "pressed" (b_pressed b) s).
  set (s2 := afterCheck t
               (Some (if truthy (b_touched b) then EVENTS.TOUCHSTART else EVENTS.TOUCHEND))
               d l ps1 "touched" (b_touched b) s1).
  set (s3 := afterCheck v None d l ps2 "value" (b_value b) s2).
  set (s4 := if p || t || v
             then dispatched (eventAt EVENTS.BUTTONCHANGED d s3) s3 else s3).
  pose proof (buttonReady_afterCheck s id l d ps p
    (Some (if truthy (b_pressed b) then EVENTS.BUTTONDOWN else EVENTS.BUTTONUP))
    "pressed" (b_pressed b) Hready) as H1.
  pose proof (buttonReady_afterCheck _ id l d _ t
    (Some (if truthy (b_touched b) then EVENTS.TOUCHSTART else EVENTS.TOUCHEND))
    "touched" (b_touched b) H1) as H2.
  pose proof (buttonReady_afterCheck _ id l d _ v None "value" (b_value b) H2) as H3.
  fold ps1 s1 in H1, H2, H3. fold ps2 s2 in H2, H3. fold ps3 s3 in H3.
  assert (H4 : buttonReady s4 id l d ps3).
  { unfold s4. destruct (p || t || v); [|exact H3].
    destruct H3 as (? & ? & ? & ? & ?). repeat split; assumption. }
  assert (Ht : default VUndefined (ps1 !! "touched") = old "touched").
  { unfold ps1, old; destruct p; [rewrite lookup_insert_ne by discriminate|]; reflexivity. }
  assert (Hv : default VUndefined (ps2 !! "value") = old "value").
  { unfold ps2, ps1, old; destruct p, t;
      repeat rewrite lookup_insert_ne by discriminate; reflexivity. }
  exists s4, ps3. split; [|split; [|split; [exact H4|]]].
  - pose proof (handlePress_spec s id b l d ps Hready) as E1.
    pose proof (handleTouch_spec s1 id b l d ps1 H1) as E2.
    pose proof (handleValue_spec s2 id b l d ps2 H2) as E3.
    cbv zeta in E1, E2, E3. rewrite Ht in E2. rewrite Hv in E3.
    change (handlePress id b s = (Ok p, s1)) in E1.
    change (handleTouch id b s1 = (Ok t, s2)) in E2.
    change (handleValue id b s2 = (Ok v, s3)) in E3.
    unfold handleButton, mbind, M_bind, bind.
    rewrite E1. cbv beta iota. rewrite E2. cbv beta iota. rewrite E3. cbv beta iota.
    unfold s4.
    destruct H3 as (_ & Hd3 & _).
    clear - Hd3. clearbody s3 p t v.
    rewrite bitor_changed.
    destruct (p || t || v); cbn -[lookup insert]; [|reflexivity].
    step. rewrite Hd3. reflexivity.
  - apply (touches_trans l s s1); [apply touches_afterCheck|].
    apply (touches_trans l s1 s2); [apply touches_afterCheck|].
    apply (touches_trans l s2 s3); [apply touches_afterCheck|].
    unfold s4. destruct (p || t || v); [|apply touches_refl].
    split; [reflexivity|]. split; [reflexivity|]. split; [repeat split|].
    split; [eexists; reflexivity|]. reflexivity.
  - unfold ps3, ps2, ps1, old. clearbody p t v.
    split; [|split; [|split; [|split; [|split]]]].
    + destruct p, t, v;
        repeat first [rewrite lookup_insert_eq | rewrite lookup_insert_ne by discriminate];
        reflexivity.
    + destruct p, t, v;
        repeat first [rewrite lookup_insert_eq | rewrite lookup_insert_ne by discriminate];
        reflexivity.
    + destruct p, t, v;
        repeat first [rewrite lookup_insert_eq | rewrite lookup_insert_ne by discriminate];
        reflexivity.
    + intros Hno. unfold s4, s3, s2, s1. rewrite Hno.
      destruct p, t, v; try discriminate. reflexivity.
    + intros Hyes. unfold s4. rewrite Hyes. exists (emitted s3). reflexivity.
    + unfold s4, s3, s2, s1, afterCheck, dispatched, stored, eventAt.
      clear. destruct p, t, v; cbn -[lookup insert app];
        rewrite ?map_app, <- ?app_assoc, ?app_nil_r; reflexivity.
Qed.

(** The state object of one button is not that of another, nor its event
    detail. *)
Lemma wellFormed_apart s i j li di psi lj dj psj :
  wellFormed s -> buttonReady s i li di psi -> buttonReady s j lj dj psj ->
  i <> j -> lj <> li /\ dj <> li.
Proof.
  intros (_ & _ & _ & Hinj & Hsd & _) (Hsi & _) (Hsj & Hdj & _) Hij. split.
  - intros ->. apply Hij. eapply Hinj; eassumption.
  - intros ->. exact (Hsd i j li Hsi Hdj).
Qed.

Lemma buttonReady_touches l s s' j lj dj psj :
  touches l s s' -> buttonReady s j lj dj psj -> lj <> l -> dj <> l ->
  buttonReady s' j lj dj psj.
Proof.
  intros (Es & Ed & _ & _ & Hoff) (Hs & Hd & Hl & Hdl & Hne) H1 H2.
  unfold buttonReady. rewrite Es, Ed, !Hoff by assumption. repeat split; assumption.
Qed.

Lemma axesReady_touches l s s' a c d prev :
  touches l s s' -> axesReady s a c d prev -> a <> l -> c <> l -> d <> l ->
  axesReady s' a c d prev.
Proof.
  intros (_ & _ & (Ea & Ec & Ed & _) & _ & Hoff)
         (Hax & Hch & Hde & Ha & Hc & Hd & Hne) H1 H2 H3.
  unfold axesReady. rewrite Ea, Ec, Ed, !Hoff by assumption.
  repeat split; try assumption; apply Hne.
Qed.

(** A change of the state object of a button keeps the component well
    formed. *)
Lemma wellFormed_touches s s' id l d ps ps' :
  wellFormed s -> buttonReady s id l d ps -> touches l s s' ->
  store s' !! l = Some (OObject ps') -> wellFormed s'.
Proof.
  intros Hwf Hready Ht Hl'.
  pose proof Hwf as ((a & c & d0 & prev & Hax) & Hst & Hnone & Hinj & Hsd & Hsa).
  pose proof Hready as (Hs & Hd & Hl & Hdl & Hne).
  pose proof Ht as (Es & Ed & (Ea & Ec & Ede & _) & _ & Hoff).
  split; [|split; [|split; [|split; [|split]]]].
  - exists a, c, d0, prev. apply (axesReady_touches l s); try assumption.
    + destruct Hax as (_ & _ & _ & Ha & _). intros ->. rewrite Ha in Hl. discriminate.
    + destruct Hax as (_ & _ & _ & _ & [o Hc] & _). intros ->. rewrite Hc in Hl.
      discriminate.
    + destruct Hax as (_ & _ & Hde & _). intros ->. exact (Hsa id l Hs Hde).
  - intros j v Hj. rewrite Es in Hj.
    destruct (Hst j v Hj) as (lj & dj & psj & Hrj).
    destruct (decide (j = id)) as [->|Hji].
    + exists l, d, ps'. unfold buttonReady.
      rewrite Es, Ed, (Hoff d) by (apply not_eq_sym; exact Hne).
      repeat split; assumption.
    + exists lj, dj, psj.
      destruct (wellFormed_apart s id j l d ps lj dj psj Hwf Hready Hrj
                  (not_eq_sym Hji)).
      apply (buttonReady_touches l s); assumption.
  - rewrite Es, Ed. exact Hnone.
  - rewrite Es. exact Hinj.
  - rewrite Es, Ed. exact Hsd.
  - rewrite Es, Ede. exact Hsa.
Qed.

(** *** The loop over the buttons *)

Lemma checkButtons_seen s id b bs l d ps :
  buttonReady s id l d ps ->
  checkButtons (b :: bs) id s =
    (handleButton id b ≫= fun _ => checkButtons bs (S id)) s.
Proof.
  intros (Hs & Hd & _). cbn [checkButtons]. step. rewrite Hs. cbn -[lookup insert].
  rewrite Hd. reflexivity.
Qed.

Lemma checkButtons_unseen s id b bs :
  buttonStates s !! id = None -> buttonEventDetails s !! id = None ->
  checkButtons (b :: bs) id s =
    (handleButton id b ≫= fun _ => checkButtons bs (S id)) (firstSeen id s).
Proof.
  intros Hs Hd. cbn [checkButtons]. unfold new, alloc. step. rewrite Hs.
  cbn -[lookup insert]. rewrite Hd. cbn -[lookup insert].
  rewrite lookup_insert_eq. reflexivity.
Qed.

(** A button seen for the first time: its objects are new, so what was set
    up before is as it was. *)
Lemma firstSeen_wellFormed s id :
  wellFormed s -> buttonStates s !! id = None ->
  wellFormed (firstSeen id s) /\
  (exists l d, buttonReady (firstSeen id s) id l d released /\
     store s !! l = None /\ store s !! d = None) /\
  extends s (firstSeen id s) /\
  emitted (firstSeen id s) = emitted s /\
  (forall j lj dj psj, buttonReady s j lj dj psj ->
     buttonReady (firstSeen id s) j lj dj psj) /\
  (forall a c d prev, axesReady s a c d prev -> axesReady (firstSeen id s) a c d prev).
Proof.
  intros Hwf Hnew.
  pose proof Hwf as ((a & c & d0 & prev & Hax) & Hst & Hnone & Hinj & Hsd & Hsa).
  set (l := fresh (dom (store s))).
  set (h := <[l := OObject released]> (store s)).
  set (d := fresh (dom h)).
  set (o := OObject (<["id" := num (Z.of_nat id)]> (<["state" := VRef l]> ∅))).
  assert (Ebs : buttonStates (firstSeen id s) = <[id := VRef l]> (buttonStates s))
    by reflexivity.
  assert (Ebd : buttonEventDetails (firstSeen id s) = <[id := VRef d]> (buttonEventDetails s))
    by reflexivity.
  assert (Est : store (firstSeen id s) = <[d := o]> h) by reflexivity.
  assert (Hl : store s !! l = None) by apply fresh_store_None.
  assert (Hd : h !! d = None) by apply fresh_store_None.
  assert (Hdl : d <> l).
  { intros E. rewrite E in Hd. unfold h in Hd. rewrite lookup_insert_eq in Hd. discriminate. }
  assert (Hd0 : store s !! d = None).
  { unfold h in Hd. rewrite lookup_insert_ne in Hd by (apply not_eq_sym; exact Hdl).
    exact Hd. }
  assert (Hkept : forall x ob, store s !! x = Some ob ->
            store (firstSeen id s) !! x = Some ob /\ x <> l /\ x <> d).
  { intros x ob Hx.
    assert (x <> l) by (intros ->; rewrite Hl in Hx; discriminate).
    assert (x <> d) by (intros ->; rewrite Hd0 in Hx; discriminate).
    rewrite Est. unfold h. rewrite !lookup_insert_ne by (apply not_eq_sym; assumption).
    auto. }
  assert (Haxes : forall a c d prev, axesReady s a c d prev ->
            axesReady (firstSeen id s) a c d prev).
  { intros a' c' d' prev' (H1 & H2 & H3 & Ha & [old Hc] & Hde & Hne).
    repeat split; try assumption; try apply Hne.
    - apply (Hkept _ _ Ha).
    - exists old. apply (Hkept _ _ Hc).
    - apply (Hkept _ _ Hde). }
  assert (Hold : forall j lj dj psj, buttonReady s j lj dj psj ->
            buttonReady (firstSeen id s) j lj dj psj).
  { intros j lj dj psj (H1 & H2 & H3 & H4 & H5).
    assert (j <> id) by (intros ->; rewrite Hnew in H1; discriminate).
    unfold buttonReady. rewrite Ebs, Ebd, !lookup_insert_ne by (apply not_eq_sym; assumption).
    repeat split; try assumption.
    - apply (Hkept _ _ H3).
    - apply (Hkept _ _ H4). }
  assert (Hready : buttonReady (firstSeen id s) id l d released).
  { unfold buttonReady. rewrite Ebs, Ebd, Est, !lookup_insert_eq.
    unfold h. rewrite lookup_insert_ne by exact Hdl. rewrite lookup_insert_eq.
    repeat split. apply not_eq_sym. exact Hdl. }
  assert (Hstored : forall j lj, buttonStates s !! j = Some (VRef lj) ->
            is_Some (store s !! lj)).
  { intros j lj Hj. destruct (Hst j _ Hj) as (l' & d' & ps' & H1 & _ & H3 & _).
    rewrite Hj in H1. injection H1 as ->. eauto. }
  assert (Hdetail : forall j dj, buttonEventDetails s !! j = Some (VRef dj) ->
            is_Some (store s !! dj)).
  { intros j dj Hj. destruct (buttonStates s !! j) as [v|] eqn:Ev.
    - destruct (Hst j v Ev) as (l' & d' & ps' & _ & H2 & _ & H4 & _).
      rewrite Hj in H2. injection H2 as ->. eauto.
    - rewrite (Hnone j Ev) in Hj. discriminate. }
  split; [|split; [exists l, d; auto|split; [|split; [reflexivity|split; assumption]]]].
  - split; [|split; [|split; [|split; [|split]]]].
    + exists a, c, d0, prev. apply Haxes. exact Hax.
    + intros j v. rewrite Ebs. destruct (decide (j = id)) as [->|Hj].
      * intros _. eauto.
      * rewrite lookup_insert_ne by (apply not_eq_sym; exact Hj). intros Hv.
        destruct (Hst j v Hv) as (lj & dj & psj & Hr). eauto.
    + intros j. rewrite Ebs, Ebd. destruct (decide (j = id)) as [->|Hj].
      * rewrite lookup_insert_eq. discriminate.
      * rewrite !lookup_insert_ne by (apply not_eq_sym; exact Hj). apply Hnone.
    + intros i j x. rewrite Ebs.
      destruct (decide (i = id)) as [->|Hi]; destruct (decide (j = id)) as [->|Hj];
        rewrite ?lookup_insert_eq, ?lookup_insert_ne by (apply not_eq_sym; assumption);
        try reflexivity.
      * intros [= <-] Hx. destruct (Hstored j l Hx) as [? E]. rewrite Hl in E. discriminate.
      * intros Hx [= <-]. destruct (Hstored i l Hx) as [? E]. rewrite Hl in E. discriminate.
      * apply Hinj.
    + intros i j x. rewrite Ebs, Ebd.
      destruct (decide (i = id)) as [->|Hi]; destruct (decide (j = id)) as [->|Hj];
        rewrite ?lookup_insert_eq, ?lookup_insert_ne by (apply not_eq_sym; assumption).
      * intros [= <-] [= E]. exact (Hdl E).
      * intros [= <-] Hx. destruct (Hdetail j l Hx) as [? E]. rewrite Hl in E. discriminate.
      * intros Hx [= E]. destruct (Hstored i x Hx) as [? E']. rewrite <- E, Hd0 in E'.
        discriminate.
      * apply Hsd.
    + intros i x. rewrite Ebs.
      change (axisMoveEventDetail (firstSeen id s)) with (axisMoveEventDetail s).
      destruct (decide (i = id)) as [->|Hi];
        rewrite ?lookup_insert_eq, ?lookup_insert_ne by (apply not_eq_sym; assumption).
      * intros [= <-] E. destruct Hax as (_ & _ & Hde & _ & _ & Hd' & _).
        rewrite E in Hde. injection Hde as <-. rewrite Hl in Hd'. discriminate.
      * apply Hsa.
  - split; [repeat split|]. split; [exists []; symmetry; apply app_nil_r|].
    split.
    + intros j v Hj. rewrite Ebs.
      rewrite lookup_insert_ne; [exact Hj|]. intros ->. rewrite Hnew in Hj. discriminate.
    + intros j v Hj. rewrite Ebd.
      rewrite lookup_insert_ne; [exact Hj|]. intros ->.
      rewrite (Hnone _ Hnew) in Hj. discriminate.
Qed.

Lemma buttonAgrees_after b (ps ps' : gmap string value) :
  comparable (b_pressed b) -> comparable (b_touched b) -> comparable (b_value b) ->
  let old k := default VUndefined (ps !! k) in
  default VUndefined (ps' !! "pressed") =
    (if strict_neq (b_pressed b) (old "pressed") then b_pressed b else old "pressed") ->
  default VUndefined (ps' !! "touched") =
    (if strict_neq (b_touched b) (old "touched") then b_touched b else old "touched") ->
  default VUndefined (ps' !! "value") =
    (if strict_neq (b_value b) (old "value") then b_value b else old "value") ->
  strict_eq (b_pressed b) (default VUndefined (ps' !! "pressed")) = true /\
  strict_eq (b_touched b) (default VUndefined (ps' !! "touched")) = true /\
  strict_eq (b_value b) (default VUndefined (ps' !! "value")) = true.
Proof.
  intros Hp Ht Hv old. unfold comparable, strict_neq in *. subst old. cbv beta.
  intros -> -> ->. repeat split.
  - destruct (strict_eq (b_pressed b) (default VUndefined (ps !! "pressed"))) eqn:E;
      cbn; assumption.
  - destruct (strict_eq (b_touched b) (default VUndefined (ps !! "touched"))) eqn:E;
      cbn; assumption.
  - destruct (strict_eq (b_value b) (default VUndefined (ps !! "value"))) eqn:E;
      cbn; assumption.
Qed.

(** The loop of [updateButtons] from a well-formed component: it returns,
    the component stays well formed, the buttons below [id] are as they
    were, and the stored state of every button of the loop is its
    reading. *)
Lemma checkButtons_run bs : forall id s,
  wellFormed s ->
  exists s',
    checkButtons bs id s = (Ok tt, s') /\ wellFormed s' /\ extends s s' /\
    (forall j lj dj psj, j < id -> buttonReady s j lj dj psj ->
       buttonReady s' j lj dj psj) /\
    (forall j b, bs !! j = Some b -> exists l d ps, buttonReady s' (id + j) l d ps) /\
    (forall j b, bs !! j = Some b ->
       comparable (b_pressed b) -> comparable (b_touched b) -> comparable (b_value b) ->
       buttonAgrees s' (id + j) b).
Proof.
  induction bs as [|b bs IH]; intros id s Hwf.
  - exists s. split; [reflexivity|]. split; [exact Hwf|]. split; [apply extends_refl|].
    split; [auto|]. split; intros j b Hj; discriminate.
  - assert (Hfirst : exists s0 l d ps,
      checkButtons (b :: bs) id s =
        (handleButton id b ≫= fun _ => checkButtons bs (S id)) s0 /\
      wellFormed s0 /\ buttonReady s0 id l d ps /\ extends s s0 /\
      (forall j lj dj psj, buttonReady s j lj dj psj -> buttonReady s0 j lj dj psj)).
    { destruct (buttonStates s !! id) as [v|] eqn:E.
      - pose proof Hwf as (_ & Hst & _). destruct (Hst id v E) as (l & d & ps & Hr).
        exists s, l, d, ps. split; [apply (checkButtons_seen s id b bs l d ps Hr)|].
        split; [exact Hwf|]. split; [exact Hr|]. split; [apply extends_refl|]. auto.
      - pose proof Hwf as (_ & _ & Hnone & _).
        destruct (firstSeen_wellFormed s id Hwf E)
          as (Hwf0 & (l & d & Hr & _ & _) & Hext & _ & Hold & _).
        exists (firstSeen id s), l, d, released.
        split; [apply (checkButtons_unseen s id b bs E (Hnone id E))|]. auto. }
    destruct Hfirst as (s0 & l & d & ps & Erun & Hwf0 & Hr0 & Hext0 & Hold0).
    destruct (handleButton_run s0 id b l d ps Hr0)
      as (s1 & ps' & Ebutton & Ht & Hr1 & Fp & Ft & Fv & _).
    assert (Hwf1 : wellFormed s1).
    { apply (wellFormed_touches s0 s1 id l d ps ps' Hwf0 Hr0 Ht). apply Hr1. }
    destruct (IH (S id) s1 Hwf1) as (s' & Erest & Hwf' & Hext' & Hbelow & Hseen & Hagree).
    exists s'. split; [|split; [exact Hwf'|split; [|split; [|split]]]].
    + rewrite Erun. unfold mbind, M_bind, bind. rewrite Ebutton. exact Erest.
    + apply (extends_trans s s0 s'); [exact Hext0|].
      apply (extends_trans s0 s1 s'); [apply (touches_extends l); exact Ht|exact Hext'].
    + intros j lj dj psj Hj Hrj. apply Hbelow; [lia|].
      pose proof (Hold0 j lj dj psj Hrj) as Hrj0.
      destruct (wellFormed_apart s0 id j l d ps lj dj psj Hwf0 Hr0 Hrj0 ltac:(lia)).
      apply (buttonReady_touches l s0); assumption.
    + intros [|j] b' Hj.
      * exists l, d, ps'. rewrite Nat.add_0_r. apply Hbelow; [lia|exact Hr1].
      * replace (id + S j) with (S id + j) by lia. apply (Hseen j b' Hj).
    + intros [|j] b' Hj Hp Hto Hv.
      * injection Hj as <-. rewrite Nat.add_0_r. exists l, d, ps'.
        split; [apply Hbelow; [lia|exact Hr1]|].
        apply (buttonAgrees_after b ps ps' Hp Hto Hv Fp Ft Fv).
      * replace (id + S j) with (S id + j) by lia. apply (Hagree j b' Hj Hp Hto Hv).
Qed.

(** The loop over buttons whose stored states are their readings changes
    nothing. *)
Lemma checkButtons_silent bs : forall id s,
  (forall j b, bs !! j = Some b -> buttonAgrees s (id + j) b) ->
  checkButtons bs id s = (Ok tt, s).
Proof.
  induction bs as [|b bs IH]; intros id s H; [reflexivity|].
  destruct (H 0 b eq_refl) as (l & d & ps & Hr & Hp & Ht & Hv).
  rewrite Nat.add_0_r in Hr.
  rewrite (checkButtons_seen s id b bs l d ps Hr).
  destruct (handleButton_run s id b l d ps Hr)
    as (s1 & ps' & Ebutton & _ & _ & _ & _ & _ & Hsame & _).
  cbv zeta in Ebutton, Hsame. unfold strict_neq in Ebutton, Hsame.
  rewrite Hp, Ht, Hv in Ebutton, Hsame. rewrite (Hsame eq_refl) in Ebutton.
  unfold mbind, M_bind, bind. rewrite Ebutton. apply IH.
  intros j b' Hj. replace (S id + j) with (id + S j) by lia. apply (H (S j) b' Hj).
Qed.

(** *** The axes *)

Lemma axesReady_unique s a c d prev a' c' d' prev' :
  axesReady s a c d prev -> axesReady s a' c' d' prev' ->
  a' = a /\ c' = c /\ d' = d /\ prev' = prev.
Proof.
  intros (H1 & H2 & H3 & H4 & _) (H1' & H2' & H3' & H4' & _).
  rewrite H1 in H1'. rewrite H2 in H2'. rewrite H3 in H3'.
  injection H1' as <-. injection H2' as <-. injection H3' as <-.
  rewrite H4 in H4'. injection H4' as <-. auto.
Qed.

(** Readings compared with themselves do not differ, unless one is
    [NaN]. *)
Lemma axisDiffers_self cur :
  Forall comparable cur ->
  forall pre, existsb id (axisDiffers (pre ++ cur) cur (length pre)) = false.
Proof.
  induction 1 as [|x cur Hx _ IH]; intros pre; [reflexivity|].
  cbn [axisDiffers existsb]. rewrite list_lookup_middle by reflexivity.
  unfold comparable in Hx. unfold strict_neq at 1. cbn -[axisDiffers existsb strict_eq].
  rewrite Hx. cbn [negb id orb].
  specialize (IH (pre ++ [x])). rewrite <- app_assoc, length_app in IH.
  cbn [app length] in IH. rewrite Nat.add_1_r in IH. exact IH.
Qed.

(** A change of the two axis arrays keeps the component well formed and
    the buttons as they are. *)
Lemma wellFormed_axes s s' a c d prev prev' old' :
  wellFormed s -> axesReady s a c d prev ->
  buttonStates s' = buttonStates s ->
  buttonEventDetails s' = buttonEventDetails s ->
  sameBindings s s' ->
  (forall x, x <> a -> x <> c -> store s' !! x = store s !! x) ->
  store s' !! a = Some (OArray prev') -> store s' !! c = Some (OArray old') ->
  wellFormed s' /\ axesReady s' a c d prev' /\
  (forall j lj dj psj, buttonReady s j lj dj psj -> buttonReady s' j lj dj psj).
Proof.
  intros Hwf Hax Es Ed Hb Hoff Ha' Hc'.
  pose proof Hwf as (_ & Hst & Hnone & Hinj & Hsd & Hsa).
  pose proof Hax as (H1 & H2 & H3 & Ha & [old Hc] & Hd & Hac & Hda & Hdc).
  pose proof Hb as (Ea & Ec & Ede & _).
  assert (Hobj : forall x ps, store s !! x = Some (OObject ps) -> x <> a /\ x <> c).
  { intros x ps Hx. split; intros ->; [rewrite Ha in Hx|rewrite Hc in Hx]; discriminate. }
  assert (Hframe : forall j lj dj psj, buttonReady s j lj dj psj ->
            buttonReady s' j lj dj psj).
  { intros j lj dj psj (B1 & B2 & B3 & B4 & B5).
    destruct (Hobj _ _ B3). destruct (Hobj _ _ B4).
    unfold buttonReady. rewrite Es, Ed, !Hoff by assumption. repeat split; assumption. }
  assert (Hax' : axesReady s' a c d prev').
  { unfold axesReady. rewrite Ea, Ec, Ede, Ha', Hc', (Hoff d) by assumption.
    repeat split; try assumption. eauto. }
  split; [|split; assumption].
  split; [eauto|]. split; [|split; [|split; [|split]]].
  - intros j v Hj. rewrite Es in Hj. destruct (Hst j v Hj) as (lj & dj & psj & Hr). eauto.
  - rewrite Es, Ed. exact Hnone.
  - rewrite Es. exact Hinj.
  - rewrite Es, Ed. exact Hsd.
  - rewrite Es, Ede. exact Hsa.
Qed.

(** [handleAxes] from a well-formed component. *)
Lemma handleAxes_run s ctl g :
  wellFormed s -> controller s = Some ctl -> gamepad ctl = Some g ->
  exists r s',
    handleAxes s = (Ok r, s') /\ wellFormed s' /\ extends s s' /\
    buttonStates s' = buttonStates s /\
    (forall j lj dj psj, buttonReady s j lj dj psj -> buttonReady s' j lj dj psj) /\
    (Forall comparable (axes g) -> axesAgree s' (axes g)) /\
    (axesAgree s (axes g) ->
       r = false /\ emitted s' = emitted s /\ storedAxis s' = storedAxis s /\
       axesAgree s' (axes g)).
Proof.
  intros Hwf Hctl Hg.
  pose proof Hwf as ((a & c & d & prev & Hax) & _).
  pose proof (handleAxes_spec s a c d prev ctl g Hax Hctl Hg) as Hrun.
  cbv zeta in Hrun.
  pose proof Hax as (H1 & H2 & H3 & Ha & [old Hc] & Hd & Hac & Hda & Hdc).
  set (flags := axisDiffers prev (axes g) 0) in *.
  destruct (existsb id flags) eqn:Hany.
  - set (s2 := stored a (OArray (axes g)) (stored c (OArray (VBool <$> flags)) s)) in *.
    set (s' := dispatched (eventAt EVENTS.AXISMOVE d s2) s2) in *.
    destruct (wellFormed_axes s s' a c d prev (axes g) (VBool <$> flags) Hwf Hax)
      as (Hwf' & Hax' & Hframe); try reflexivity.
    + repeat split.
    + intros x Hxa Hxc. cbn -[lookup insert].
      rewrite !lookup_insert_ne by (apply not_eq_sym; assumption). reflexivity.
    + cbn -[lookup insert]. apply lookup_insert_eq.
    + cbn -[lookup insert]. rewrite lookup_insert_ne by exact Hac.
      apply lookup_insert_eq.
    + exists true, s'. split; [exact Hrun|]. split; [exact Hwf'|].
      split; [|split; [reflexivity|split; [exact Hframe|split]]].
      * split; [repeat split|]. split; [eexists; reflexivity|]. split; auto.
      * intros Hcmp. exists a, c, d, (axes g). split; [exact Hax'|].
        apply (axisDiffers_self (axes g) Hcmp []).
      * intros (a0 & c0 & d0 & prev0 & Hax0 & Hno).
        destruct (axesReady_unique s a c d prev a0 c0 d0 prev0 Hax Hax0) as (_ & _ & _ & ->).
        fold flags in Hno. rewrite Hno in Hany. discriminate.
  - set (s' := stored c (OArray (VBool <$> flags)) s) in *.
    destruct (wellFormed_axes s s' a c d prev prev (VBool <$> flags) Hwf Hax)
      as (Hwf' & Hax' & Hframe); try reflexivity.
    + repeat split.
    + intros x Hxa Hxc. cbn -[lookup insert].
      rewrite !lookup_insert_ne by (apply not_eq_sym; assumption). reflexivity.
    + cbn -[lookup insert]. rewrite lookup_insert_ne by (apply not_eq_sym; exact Hac).
      exact Ha.
    + cbn -[lookup insert]. apply lookup_insert_eq.
    + assert (Hagree : axesAgree s' (axes g)) by (exists a, c, d, prev; auto).
      exists false, s'. split; [exact Hrun|]. split; [exact Hwf'|].
      split; [|split; [reflexivity|split; [exact Hframe|split; [auto|]]]].
      * split; [repeat split|]. split; [exists []; symmetry; apply app_nil_r|].
        split; auto.
      * intros _. split; [reflexivity|]. split; [reflexivity|]. split; [|exact Hagree].
        unfold storedAxis. destruct Hax' as (E1 & _ & _ & Ha' & _).
        unfold arrayItems. rewrite E1, H1. cbv beta iota. rewrite Ha', Ha. reflexivity.
Qed.

(** *** [updateButtons] *)

Lemma steady_lookup g :
  steady g -> forall j b, buttons g !! j = Some b ->
  comparable (b_pressed b) /\ comparable (b_touched b) /\ comparable (b_value b).
Proof. intros [H _] j b Hj. exact (proj1 (Forall_lookup _ _) H j b Hj). Qed.

(** [updateButtons] with a gamepad, from a well-formed component. *)
Lemma updateButtons_run s ctl g :
  wellFormed s -> controller s = Some ctl -> gamepad ctl = Some g ->
  exists s',
    updateButtons s = (Ok tt, s') /\ wellFormed s' /\ extends s s' /\
    (forall j b, buttons g !! j = Some b -> exists l d ps, buttonReady s' j l d ps) /\
    (steady g -> agrees s' g).
Proof.
  intros Hwf Hctl Hg.
  destruct (checkButtons_run (buttons g) 0 s Hwf)
    as (s1 & Eloop & Hwf1 & Hext1 & _ & Hseen & Hagree).
  assert (Hctl1 : controller s1 = Some ctl).
  { destruct Hext1 as ((_ & _ & _ & E & _) & _). rewrite E. exact Hctl. }
  destruct (handleAxes_run s1 ctl g Hwf1 Hctl1 Hg)
    as (r & s' & Eaxes & Hwf' & Hext' & _ & Hframe & Hcmp & _).
  exists s'. split; [|split; [exact Hwf'|split; [|split]]].
  - unfold updateButtons. step. rewrite Hctl, Hg. unfold mbind, M_bind, bind.
    rewrite Eloop, Eaxes. reflexivity.
  - apply (extends_trans s s1 s'); assumption.
  - intros j b Hj. destruct (Hseen j b Hj) as (l & d & ps & Hr). eauto.
  - intros Hsteady. split; [|apply Hcmp; apply Hsteady].
    intros j b Hj. destruct (steady_lookup g Hsteady j b Hj) as (Hp & Ht & Hv).
    destruct (Hagree j b Hj Hp Ht Hv) as (l & d & ps & Hr & Hfields).
    exists l, d, ps. split; [apply Hframe; exact Hr|exact Hfields].
Qed.

(** [updateButtons] on a component whose stored states are the readings
    of its gamepad. *)
Lemma updateButtons_silent s ctl g :
  wellFormed s -> controller s = Some ctl -> gamepad ctl = Some g -> agrees s g ->
  exists s',
    updateButtons s = (Ok tt, s') /\ emitted s' = emitted s /\
    (forall j, storedButtonState s' j = storedButtonState s j) /\
    storedAxis s' = storedAxis s /\ agrees s' g.
Proof.
  intros Hwf Hctl Hg [Hbuttons Haxes].
  pose proof (checkButtons_silent (buttons g) 0 s Hbuttons) as Eloop.
  destruct (handleAxes_run s ctl g Hwf Hctl Hg)
    as (r & s' & Eaxes & _ & _ & Es & Hframe & _ & Hsame).
  destruct (Hsame Haxes) as (-> & He & Hax & Hagree).
  exists s'. split; [|split; [exact He|split; [|split; [exact Hax|split]]]].
  - unfold updateButtons. step. rewrite Hctl, Hg. unfold mbind, M_bind, bind.
    rewrite Eloop, Eaxes. reflexivity.
  - intros j. destruct (buttonStates s !! j) as [v|] eqn:Ev.
    + pose proof Hwf as (_ & Hst & _). destruct (Hst j v Ev) as (l & d & ps & Hr).
      rewrite (readButtonState_ready s j l d ps Hr).
      apply (readButtonState_ready s' j l d ps). apply Hframe. exact Hr.
    + unfold storedButtonState. rewrite Es, Ev. reflexivity.
  - intros j b Hj. destruct (Hbuttons j b Hj) as (l & d & ps & Hr & Hfields).
    exists l, d, ps. split; [apply Hframe; exact Hr|exact Hfields].
  - exact Hagree.
Qed.

(** *** What [updateButtons] records *)

(** A change of the state object of a button leaves the axis arrays as
    they are. *)
Lemma axesReady_kept s s' id l d ps a c d0 prev :
  wellFormed s -> buttonReady s id l d ps -> touches l s s' ->
  axesReady s a c d0 prev -> axesReady s' a c d0 prev.
Proof.
  intros Hwf Hready Ht Hax.
  pose proof Hwf as (_ & _ & _ & _ & _ & Hsa).
  pose proof Hready as (Hs & _ & Hl & _).
  apply (axesReady_touches l s); try assumption.
  - destruct Hax as (_ & _ & _ & Ha & _). intros ->. rewrite Ha in Hl. discriminate.
  - destruct Hax as (_ & _ & _ & _ & [o Hc] & _). intros ->. rewrite Hc in Hl.
    discriminate.
  - destruct Hax as (_ & _ & Hde & _). intros ->. exact (Hsa id l Hs Hde).
Qed.

Lemma storedFields_ready s id l d ps :
  buttonReady s id l d ps ->
  storedFields s id =
    (default VUndefined (ps !! "pressed"), default VUndefined (ps !! "touched"),
     default VUndefined (ps !! "value")).
Proof.
  intros H. unfold storedFields. rewrite (readButtonState_ready s id l d ps H).
  reflexivity.
Qed.

Lemma storedFields_unseen s id :
  buttonStates s !! id = None -> storedFields s id = (VBool false, VBool false, num 0).
Proof. intros H. unfold storedFields, storedButtonState. rewrite H. reflexivity. Qed.

Lemma storedFields_kept s s' j :
  wellFormed s -> buttonStates s' !! j = buttonStates s !! j ->
  (forall lj dj psj, buttonReady s j lj dj psj -> buttonReady s' j lj dj psj) ->
  storedFields s' j = storedFields s j.
Proof.
  intros (_ & Hst & _) E Hkeep.
  destruct (buttonStates s !! j) as [v|] eqn:Ev.
  - destruct (Hst j v Ev) as (l & d & ps & Hr).
    rewrite (storedFields_ready s j l d ps Hr).
    apply (storedFields_ready s' j l d ps). apply Hkeep. exact Hr.
  - rewrite (storedFields_unseen s' j E), (storedFields_unseen s j Ev). reflexivity.
Qed.

Lemma buttonsDiffNames_ext s s' bs : forall id,
  (forall j, id <= j -> storedFields s' j = storedFields s j) ->
  buttonsDiffNames s' bs id = buttonsDiffNames s bs id.
Proof.
  induction bs as [|b bs IH]; intros id H; [reflexivity|].
  cbn [buttonsDiffNames]. rewrite (H id) by lia. f_equal.
  apply IH. intros j Hj. apply H. lia.
Qed.

(** The loop of [updateButtons] in full: the events it dispatches are
    those of each button in turn, compared with what was stored for it
    before the loop, and what it stores for each button is its reading
    where it differs. *)
Lemma checkButtons_records bs : forall id s,
  wellFormed s ->
  exists s',
    checkButtons bs id s = (Ok tt, s') /\
    map ev_name (emitted s') = map ev_name (emitted s) ++ buttonsDiffNames s bs id /\
    (forall j b, bs !! j = Some b ->
       storedButtonState s' (id + j) = Ok (recorded (storedFields s (id + j)) b)) /\
    (forall a c d prev, axesReady s a c d prev -> axesReady s' a c d prev).
Proof.
  induction bs as [|b bs IH]; intros id s Hwf.
  - exists s. split; [reflexivity|]. split; [symmetry; apply app_nil_r|].
    split; [intros j b Hj; discriminate|auto].
  - assert (Hfirst : exists s0 l d ps,
      checkButtons (b :: bs) id s =
        (handleButton id b ≫= fun _ => checkButtons bs (S id)) s0 /\
      wellFormed s0 /\ buttonReady s0 id l d ps /\ emitted s0 = emitted s /\
      storedFields s id =
        (default VUndefined (ps !! "pressed"), default VUndefined (ps !! "touched"),
         default VUndefined (ps !! "value")) /\
      (forall j, j <> id -> buttonStates s0 !! j = buttonStates s !! j) /\
      (forall j lj dj psj, buttonReady s j lj dj psj -> buttonReady s0 j lj dj psj) /\
      (forall a c d prev, axesReady s a c d prev -> axesReady s0 a c d prev)).
    { destruct (buttonStates s !! id) as [v|] eqn:E.
      - pose proof Hwf as (_ & Hst & _). destruct (Hst id v E) as (l & d & ps & Hr).
        exists s, l, d, ps. split; [apply (checkButtons_seen s id b bs l d ps Hr)|].
        split; [exact Hwf|]. split; [exact Hr|]. split; [reflexivity|].
        split; [apply (storedFields_ready s id l d ps Hr)|]. auto.
      - pose proof Hwf as (_ & _ & Hnone & _).
        destruct (firstSeen_wellFormed s id Hwf E)
          as (Hwf0 & (l & d & Hr & _ & _) & _ & He & Hold & Haxes).
        exists (firstSeen id s), l, d, released.
        split; [apply (checkButtons_unseen s id b bs E (Hnone id E))|].
        split; [exact Hwf0|]. split; [exact Hr|]. split; [exact He|].
        split; [apply (storedFields_unseen s id E)|].
        split; [|split; assumption].
        intros j Hj. change (buttonStates (firstSeen id s))
          with (<[id := VRef (fresh (dom (store s)))]> (buttonStates s)).
        apply lookup_insert_ne. apply not_eq_sym. exact Hj. }
    destruct Hfirst as (s0 & l & d & ps & Erun & Hwf0 & Hr0 & He0 & Hf0 & Hst0 & Hold0 & Hax0).
    destruct (handleButton_run s0 id b l d ps Hr0)
      as (s1 & ps' & Ebutton & Ht & Hr1 & Fp & Ft & Fv & _ & _ & Hnames).
    assert (Hwf1 : wellFormed s1).
    { apply (wellFormed_touches s0 s1 id l d ps ps' Hwf0 Hr0 Ht). apply Hr1. }
    assert (Hfields : forall j, j <> id -> storedFields s1 j = storedFields s j).
    { intros j Hj. apply (storedFields_kept s s1 j Hwf).
      - destruct Ht as (Es & _). rewrite Es. apply Hst0. exact Hj.
      - intros lj dj psj Hrj. pose proof (Hold0 j lj dj psj Hrj) as Hrj0.
        destruct (wellFormed_apart s0 id j l d ps lj dj psj Hwf0 Hr0 Hrj0
                    (not_eq_sym Hj)).
        apply (buttonReady_touches l s0); assumption. }
    destruct (IH (S id) s1 Hwf1) as (s' & Erest & Hnames' & Hrec & Hax').
    destruct (checkButtons_run bs (S id) s1 Hwf1) as (s'' & Erest' & _ & _ & Hbelow & _).
    assert (s'' = s') by congruence. subst s''.
    exists s'. split; [|split; [|split]].
    + rewrite Erun. unfold mbind, M_bind, bind. rewrite Ebutton. exact Erest.
    + rewrite Hnames', Hnames, He0. cbn [buttonsDiffNames]. rewrite Hf0.
      rewrite (buttonsDiffNames_ext s s1 bs (S id)) by (intros j Hj; apply Hfields; lia).
      unfold buttonDiffNames. rewrite <- !app_assoc. reflexivity.
    + intros [|j] b' Hj.
      * injection Hj as <-. rewrite Nat.add_0_r.
        rewrite (readButtonState_ready s' id l d ps'
                   (Hbelow id l d ps' ltac:(lia) Hr1)).
        rewrite Hf0, Fp, Ft, Fv. reflexivity.
      * replace (id + S j) with (S id + j) by lia.
        rewrite (Hrec j b' Hj), Hfields by lia. reflexivity.
    + intros a c d0 prev Hax. apply Hax'.
      apply (axesReady_kept s0 s1 id l d ps a c d0 prev Hwf0 Hr0 Ht). apply Hax0.
      exact Hax.
Qed.

(** [handleAxes] in full: the event it dispatches, if any, and what it
    leaves as the stored axis. *)
Lemma handleAxes_records s a c d prev ctl g :
  axesReady s a c d prev -> controller s = Some ctl -> gamepad ctl = Some g ->
  let flags := axisDiffers prev (axes g) 0 in
  let s' := snd (handleAxes s) in
  map ev_name (emitted s') =
    map ev_name (emitted s) ++ (if existsb id flags then [EVENTS.AXISMOVE] else []) /\
  storedAxis s' = Ok (if existsb id flags then axes g else prev) /\
  (existsb id flags = true ->
     exists e, emitted s' = emitted s ++ [e] /\ ev_name e = EVENTS.AXISMOVE /\
       axisEventView e = Ok (axes g, VBool <$> flags)).
Proof.
  intros Hready Hctl Hg flags s'.
  pose proof (handleAxes_spec s a c d prev ctl g Hready Hctl Hg) as Hrun.
  cbv zeta in Hrun. fold flags in Hrun.
  destruct Hready as (Hax & Hch & Hde & Ha & [old Hc] & Hd & Hac & Hda & Hdc).
  unfold s'. rewrite Hrun. destruct (existsb id flags); cbn -[lookup insert].
  - split; [rewrite map_app; reflexivity|]. split.
    + unfold storedAxis. cbn -[lookup insert]. rewrite Hax. cbn -[lookup insert].
      rewrite lookup_insert_eq. reflexivity.
    + intros _. eexists. split; [reflexivity|]. split; [reflexivity|].
      unfold axisEventView, eventAt. cbn -[lookup insert].
      rewrite lookup_insert_ne by congruence. rewrite lookup_insert_ne by congruence.
      rewrite Hd. cbn -[lookup insert].
      rewrite lookup_insert_eq. cbn -[lookup insert].
      rewrite lookup_insert_eq. cbn -[lookup insert].
      rewrite (lookup_insert_ne _ "axis" "changed") by discriminate.
      rewrite lookup_insert_eq. cbn -[lookup insert].
      rewrite lookup_insert_ne by congruence. rewrite lookup_insert_eq. reflexivity.
  - split; [symmetry; apply app_nil_r|]. split; [|discriminate].
    unfold storedAxis. cbn -[lookup insert]. rewrite Hax. cbn -[lookup insert].
    rewrite lookup_insert_ne by congruence. rewrite Ha. reflexivity.
Qed.

(** [updateButtons] in full, from a well-formed component: the events of
    the buttons in turn, then [axismove] if an axis differs; the readings
    stored where they differ; the stored axis replaced if an axis
    differs. *)
Lemma updateButtons_records s ctl g a c d prev :
  wellFormed s -> controller s = Some ctl -> gamepad ctl = Some g ->
  axesReady s a c d prev ->
  let flags := axisDiffers prev (axes g) 0 in
  exists s',
    updateButtons s = (Ok tt, s') /\
    map ev_name (emitted s') =
      map ev_name (emitted s) ++ buttonsDiffNames s (buttons g) 0 ++
      (if existsb id flags then [EVENTS.AXISMOVE] else []) /\
    (forall j b, buttons g !! j = Some b ->
       storedButtonState s' j = Ok (recorded (storedFields s j) b)) /\
    storedAxis s' = Ok (if existsb id flags then axes g else prev) /\
    (existsb id flags = true ->
       exists evs e, emitted s' = evs ++ [e] /\ ev_name e = EVENTS.AXISMOVE /\
         axisEventView e = Ok (axes g, VBool <$> flags)).
Proof.
  intros Hwf Hctl Hg Hax flags.
  destruct (checkButtons_records (buttons g) 0 s Hwf)
    as (s1 & Eloop & Hnames & Hrec & Hkept).
  destruct (checkButtons_run (buttons g) 0 s Hwf)
    as (s1' & Eloop' & Hwf1 & Hext1 & _ & Hseen & _).
  assert (s1' = s1) by congruence. subst s1'.
  assert (Hctl1 : controller s1 = Some ctl).
  { destruct Hext1 as ((_ & _ & _ & E & _) & _). rewrite E. exact Hctl. }
  destruct (handleAxes_run s1 ctl g Hwf1 Hctl1 Hg)
    as (r & s' & Eaxes & _ & _ & _ & Hframe & _).
  destruct (handleAxes_records s1 a c d prev ctl g (Hkept a c d prev Hax) Hctl1 Hg)
    as (Hn & Hs & He).
  rewrite Eaxes in Hn, Hs, He. cbn [snd] in Hn, Hs, He. fold flags in Hn, Hs, He.
  exists s'. split; [|split; [|split; [|split]]].
  - unfold updateButtons. step. rewrite Hctl, Hg. unfold mbind, M_bind, bind.
    rewrite Eloop, Eaxes. reflexivity.
  - rewrite Hn, Hnames, <- app_assoc. reflexivity.
  - intros j b Hj. destruct (Hseen j b Hj) as (l & d0 & ps & Hr). cbn [Nat.add] in Hr.
    rewrite (readButtonState_ready s' j l d0 ps (Hframe j l d0 ps Hr)).
    rewrite <- (readButtonState_ready s1 j l d0 ps Hr). apply (Hrec j b Hj).
  - exact Hs.
  - intros Hany. destruct (He Hany) as (e & E1 & E2 & E3). eauto.
Qed.

(** *** [init] *)

Lemma wellFormed_init s : wellFormed (snd (init s)).
Proof.
  set (a := fresh (dom (store s))).
  set (h1 := <[a := OArray [num 0; num 0; num 0]]> (store s)).
  set (c := fresh (dom h1)).
  set (h2 := <[c := OArray []]> h1).
  set (d := fresh (dom h2)).
  assert (Hc : h1 !! c = None) by apply fresh_store_None.
  assert (Hd : h2 !! d = None) by apply fresh_store_None.
  assert (Hac : a <> c).
  { intros E. rewrite <- E in Hc. unfold h1 in Hc. rewrite lookup_insert_eq in Hc.
    discriminate. }
  assert (Hdc : d <> c).
  { intros E. rewrite E in Hd. unfold h2 in Hd. rewrite lookup_insert_eq in Hd.
    discriminate. }
  assert (Hda : d <> a).
  { intros E. rewrite E in Hd. unfold h2, h1 in Hd.
    rewrite lookup_insert_ne, lookup_insert_eq in Hd by (apply not_eq_sym; exact Hac).
    discriminate. }
  split; [|split; [|split; [|split; [|split]]]].
  - exists a, c, d, [num 0; num 0; num 0].
    unfold axesReady, init, new, alloc. step. fold a. fold h1. fold c. fold h2. fold d.
    repeat split; try assumption.
    + rewrite lookup_insert_ne by exact Hda. unfold h2.
      rewrite lookup_insert_ne by (apply not_eq_sym; exact Hac).
      apply lookup_insert_eq.
    + exists []. rewrite lookup_insert_ne by exact Hdc. apply lookup_insert_eq.
    + apply lookup_insert_eq.
  - intros id v H. discriminate.
  - intros id _. reflexivity.
  - intros i j l H. discriminate.
  - intros i j l H. discriminate.
  - intros i l H. discriminate.
Qed.

Lemma wellFormed_withController c s : wellFormed s -> wellFormed (withController c s).
Proof. intros H. exact H. Qed.

Lemma axesAgree_items s cur :
  axesAgree s cur ->
  exists prev, storedAxis s = Ok prev /\ forall i, axisAgreesAt prev cur i.
Proof.
  intros (a & c & d & prev & (H1 & _ & _ & Ha & _) & Hno).
  exists prev. split.
  - unfold storedAxis, arrayItems. rewrite H1, Ha. reflexivity.
  - intros i x Hx. pose proof (axisDiffers_lookup prev cur 0 i x Hx) as Hf.
    cbn [Nat.add] in Hf.
    destruct (strict_eq (default VUndefined (prev !! i)) x) eqn:E; [reflexivity|].
    exfalso. rewrite <- not_true_iff_false in Hno. apply Hno.
    apply existsb_exists. exists true. split; [|reflexivity].
    unfold strict_neq in Hf. rewrite E in Hf. cbn in Hf.
    apply list_elem_of_In. eapply list_elem_of_lookup_2. exact Hf.
Qed.

(** X1. [init] gives the component an empty table of button states and of
    event details, and three new objects in the store: the axis [0, 0, 0],
    the empty array of changed axes, and the detail of the axis event, which
    refers to these two arrays themselves.  What was in the store stays, no
    event is dispatched, and the component is well formed. *)
Theorem init_sets_up s :
  let s' := snd (init s) in
  fst (init s) = Ok tt /\
  buttonStates s' = ∅ /\ buttonEventDetails s' = ∅ /\
  storedAxis s' = Ok [num 0; num 0; num 0] /\
  emitted s' = emitted s /\
  wellFormed s' /\
  (forall l o, store s !! l = Some o -> store s' !! l = Some o) /\
  exists a c d,
    axesReady s' a c d [num 0; num 0; num 0] /\
    store s !! a = None /\ store s !! c = None /\ store s !! d = None /\
    axisEventView (eventAt EVENTS.AXISMOVE d s') = Ok ([num 0; num 0; num 0], []).
Proof.
  intros s'.
  pose proof (wellFormed_init s) as Hwf. fold s' in Hwf.
  pose proof Hwf as ((a & c & d & prev & Hax) & _).
  set (a0 := fresh (dom (store s))).
  set (h1 := <[a0 := OArray [num 0; num 0; num 0]]> (store s)).
  set (c0 := fresh (dom h1)).
  set (h2 := <[c0 := OArray []]> h1).
  set (d0 := fresh (dom h2)).
  assert (Est : store s' =
    <[d0 := OObject (<["axis" := VRef a0]> (<["changed" := VRef c0]> ∅))]> h2) by reflexivity.
  assert (Ea : axis s' = VRef a0) by reflexivity.
  assert (Ec : changedAxes s' = VRef c0) by reflexivity.
  assert (Ed : axisMoveEventDetail s' = VRef d0) by reflexivity.
  pose proof Hax as (H1 & H2 & H3 & Ha & [old Hc] & Hd & Hac & Hda & Hdc).
  rewrite Ea in H1. rewrite Ec in H2. rewrite Ed in H3.
  injection H1 as <-. injection H2 as <-. injection H3 as <-.
  assert (Ha0 : store s !! a0 = None) by apply fresh_store_None.
  assert (Hc1 : h1 !! c0 = None) by apply fresh_store_None.
  assert (Hd2 : h2 !! d0 = None) by apply fresh_store_None.
  assert (Hc0 : store s !! c0 = None).
  { unfold h1 in Hc1. rewrite lookup_insert_ne in Hc1 by exact Hac. exact Hc1. }
  assert (Hd0 : store s !! d0 = None).
  { unfold h2, h1 in Hd2.
    rewrite !lookup_insert_ne in Hd2 by (apply not_eq_sym; assumption). exact Hd2. }
  assert (Hprev : prev = [num 0; num 0; num 0]).
  { rewrite Est in Ha. rewrite lookup_insert_ne in Ha by exact Hda. unfold h2, h1 in Ha.
    rewrite lookup_insert_ne, lookup_insert_eq in Ha by (apply not_eq_sym; exact Hac).
    injection Ha as <-. reflexivity. }
  assert (Hold : old = []).
  { rewrite Est in Hc. rewrite lookup_insert_ne in Hc by exact Hdc. unfold h2 in Hc.
    rewrite lookup_insert_eq in Hc. injection Hc as <-. reflexivity. }
  subst prev old.
  split; [reflexivity|]. split; [reflexivity|]. split; [reflexivity|].
  split; [unfold storedAxis, arrayItems; rewrite Ea, Ha; reflexivity|].
  split; [reflexivity|]. split; [exact Hwf|]. split.
  - intros l o Hl. rewrite Est. unfold h2, h1.
    rewrite !lookup_insert_ne; [exact Hl| | |]; intros E; rewrite E in *; congruence.
  - exists a0, c0, d0. split; [exact Hax|]. repeat split; try assumption.
    unfold axisEventView, eventAt, arrayItems. cbn [ev_store ev_detail getProp obind].
    rewrite Hd. cbn [obind]. rewrite lookup_insert_eq.
    rewrite (lookup_insert_ne _ "axis" "changed") by discriminate.
    rewrite lookup_insert_eq. cbn [default from_option id obind].
    rewrite Ha, Hc. reflexivity.
Qed.

(** X2. From a well-formed component [updateButtons] returns without an
    exception, whatever the controller and its gamepad are, and leaves the
    component well formed; it changes none of the component's bindings (to
    the axis arrays, the controller, the pose, the data, [object3D], the
    scene). *)
Theorem updateButtons_keeps_wellFormed s :
  wellFormed s ->
  exists s', updateButtons s = (Ok tt, s') /\ wellFormed s' /\ sameBindings s s'.
Proof.
  intros Hwf. destruct (controller s) as [ctl|] eqn:Hctl.
  - destruct (gamepad ctl) as [g|] eqn:Hg.
    + destruct (updateButtons_run s ctl g Hwf Hctl Hg) as (s' & E & Hwf' & Hext & _).
      exists s'. split; [exact E|]. split; [exact Hwf'|]. apply Hext.
    + exists s. unfold updateButtons. step. rewrite Hctl, Hg.
      split; [reflexivity|]. split; [exact Hwf|apply sameBindings_refl].
  - exists s. unfold updateButtons. step. rewrite Hctl.
    split; [reflexivity|]. split; [exact Hwf|apply sameBindings_refl].
Qed.

(** X3. [updateButtons] makes the state object and the event detail of a
    button once: a button that has them keeps the very same objects, every
    button of the gamepad has them afterwards, the detail referring to the
    state object, and the events dispatched before are still there, the new
    ones after them. *)
Theorem updateButtons_state_identity s ctl g :
  wellFormed s -> controller s = Some ctl -> gamepad ctl = Some g ->
  let s' := snd (updateButtons s) in
  (forall id v, buttonStates s !! id = Some v -> buttonStates s' !! id = Some v) /\
  (forall id v, buttonEventDetails s !! id = Some v ->
     buttonEventDetails s' !! id = Some v) /\
  (forall id b, buttons g !! id = Some b ->
     exists l d ps, buttonReady s' id l d ps /\
       getProp (store s') (VRef d) "state" = Ok (VRef l)) /\
  (exists new, emitted s' = emitted s ++ new).
Proof.
  intros Hwf Hctl Hg s'.
  destruct (updateButtons_run s ctl g Hwf Hctl Hg) as (s1 & E & _ & Hext & Hseen & _).
  unfold s'. rewrite E. cbn [snd].
  destruct Hext as (_ & Hev & Hst & Hde).
  split; [exact Hst|]. split; [exact Hde|]. split; [|exact Hev].
  intros id b Hb. destruct (Hseen id b Hb) as (l & d & ps & Hr).
  exists l, d, ps. split; [exact Hr|].
  destruct Hr as (_ & _ & _ & Hd & _). cbn [getProp]. rewrite Hd.
  rewrite lookup_insert_ne by discriminate. rewrite lookup_insert_eq. reflexivity.
Qed.

(** X4. [updateButtons] stores what it reads where it differs.  For every
    button of the gamepad, each field of the stored state becomes the
    reading if the reading [!==] what was stored, and stays otherwise.  The
    stored axis becomes the axes of the gamepad if some reading [!==] the
    stored item at its index, and stays as it is otherwise, also when it is
    longer than the axes.  With no [NaN] among the readings, every stored
    field of a button [===] its reading, and every reading of an axis
    [===] the stored item at its index. *)
Theorem updateButtons_records_readings s ctl g a c d prev :
  wellFormed s -> controller s = Some ctl -> gamepad ctl = Some g ->
  axesReady s a c d prev ->
  let s' := snd (updateButtons s) in
  let flags := axisDiffers prev (axes g) 0 in
  (forall id b, buttons g !! id = Some b ->
     storedButtonState s' id = Ok (recorded (storedFields s id) b)) /\
  storedAxis s' = Ok (if existsb id flags then axes g else prev) /\
  (steady g ->
     (forall id b, buttons g !! id = Some b ->
        exists p t v, storedButtonState s' id = Ok (p, t, v) /\
          strict_eq (b_pressed b) p = true /\ strict_eq (b_touched b) t = true /\
          strict_eq (b_value b) v = true) /\
     (exists cur, storedAxis s' = Ok cur /\ forall i, axisAgreesAt cur (axes g) i)).
Proof.
  intros Hwf Hctl Hg Hax s' flags.
  destruct (updateButtons_records s ctl g a c d prev Hwf Hctl Hg Hax)
    as (s1 & E & _ & Hrec & Hs & _).
  destruct (updateButtons_run s ctl g Hwf Hctl Hg) as (s1' & E' & _ & _ & _ & Hagree).
  assert (s1' = s1) by congruence. subst s1'.
  unfold s'. rewrite E. cbn [snd].
  split; [exact Hrec|]. split; [exact Hs|].
  intros Hsteady. destruct (Hagree Hsteady) as [Hb Ha]. split.
  - intros id b Hid. destruct (Hb id b Hid) as (l & d0 & ps & Hr & Hp & Ht & Hv).
    rewrite (readButtonState_ready s1 id l d0 ps Hr). eauto 10.
  - apply axesAgree_items. exact Ha.
Qed.

(** X5. A second [updateButtons] with the same gamepad, none of whose
    readings is [NaN], dispatches no event and leaves the stored button
    states and the stored axis as the first left them: a transition is
    reported once. *)
Theorem updateButtons_twice_silent s ctl g :
  wellFormed s -> controller s = Some ctl -> gamepad ctl = Some g -> steady g ->
  let s1 := snd (updateButtons s) in
  let s2 := snd (updateButtons s1) in
  fst (updateButtons s1) = Ok tt /\
  emitted s2 = emitted s1 /\
  (forall id, storedButtonState s2 id = storedButtonState s1 id) /\
  storedAxis s2 = storedAxis s1.
Proof.
  intros Hwf Hctl Hg Hsteady s1 s2.
  destruct (updateButtons_run s ctl g Hwf Hctl Hg) as (s1' & E & Hwf1 & Hext & _ & Hagree).
  assert (Es1 : s1 = s1') by (unfold s1; rewrite E; reflexivity).
  clearbody s1. subst s1'.
  assert (Hctl1 : controller s1 = Some ctl).
  { destruct Hext as ((_ & _ & _ & Ec & _) & _). rewrite Ec. exact Hctl. }
  destruct (updateButtons_silent s1 ctl g Hwf1 Hctl1 Hg (Hagree Hsteady))
    as (s2' & E2 & He & Hst & Hax & _).
  unfold s2. rewrite E2. cbn [fst snd]. auto.
Qed.

(** X6. A reading of [NaN] is never equal to what is stored, not even to a
    stored [NaN]: a button whose [value] reads [NaN] is reported as changed
    on every run, each time with a [buttonchanged] event as the last
    event. *)
Theorem handleButton_NaN_always_changed s id b l d ps :
  buttonReady s id l d ps -> b_value b = VNum NaN ->
  exists s1 s2 ps1,
    handleButton id b s = (Ok true, s1) /\
    last (emitted s1) = Some (eventAt EVENTS.BUTTONCHANGED d s1) /\
    buttonReady s1 id l d ps1 /\
    default VUndefined (ps1 !! "value") = VNum NaN /\
    handleButton id b s1 = (Ok true, s2) /\
    last (emitted s2) = Some (eventAt EVENTS.BUTTONCHANGED d s2).
Proof.
  intros Hr Hnan.
  assert (Hv : forall x, strict_neq (b_value b) x = true).
  { intros x. rewrite Hnan. destruct x; reflexivity. }
  destruct (handleButton_run s id b l d ps Hr)
    as (s1 & ps1 & E1 & _ & Hr1 & _ & _ & Fv & _ & Hev1 & _).
  cbv zeta in E1, Fv, Hev1. rewrite Hv, !orb_true_r in *.
  destruct (Hev1 eq_refl) as [evs1 Hl1].
  destruct (handleButton_run s1 id b l d ps1 Hr1)
    as (s2 & ps2 & E2 & _ & _ & _ & _ & _ & _ & Hev2 & _).
  cbv zeta in E2, Hev2. rewrite Hv, !orb_true_r in *.
  destruct (Hev2 eq_refl) as [evs2 Hl2].
  exists s1, s2, ps1. split; [exact E1|]. split; [rewrite Hl1; apply last_snoc|].
  split; [exact Hr1|]. split; [rewrite Fv, Hnan; reflexivity|].
  split; [exact E2|]. rewrite Hl2. apply last_snoc.
Qed.

(** X7. A button seen for the first time is compared with a released
    button: [updateButtons] gives it a new state object, not pressed, not
    touched and at 0, and a new event detail, and the events of its first
    reading are those of a change from that state; a button first seen
    released dispatches nothing. *)
Theorem first_sight_from_released s id b :
  wellFormed s -> buttonStates s !! id = None ->
  let p := strict_neq (b_pressed b) (VBool false) in
  let t := strict_neq (b_touched b) (VBool false) in
  let v := strict_neq (b_value b) (num 0) in
  let s' := snd (checkButtons [b] id s) in
  fst (checkButtons [b] id s) = Ok tt /\
  (exists l d ps, buttonReady s' id l d ps /\
     store s !! l = None /\ store s !! d = None /\
     storedButtonState s' id =
       Ok (if p then b_pressed b else VBool false,
           if t then b_touched b else VBool false,
           if v then b_value b else num 0)) /\
  map ev_name (emitted s') =
    map ev_name (emitted s) ++
      (if p then [if truthy (b_pressed b) then EVENTS.BUTTONDOWN else EVENTS.BUTTONUP]
       else []) ++
      (if t then [if truthy (b_touched b) then EVENTS.TOUCHSTART else EVENTS.TOUCHEND]
       else []) ++
      (if p || t || v then [EVENTS.BUTTONCHANGED] else []).
Proof.
  intros Hwf Hnew p t v s'.
  pose proof Hwf as (_ & _ & Hnone & _).
  destruct (firstSeen_wellFormed s id Hwf Hnew)
    as (_ & (l & d & Hr & Hl & Hd) & _ & He & _).
  destruct (handleButton_run (firstSeen id s) id b l d released Hr)
    as (s1 & ps1 & E & _ & Hr1 & Fp & Ft & Fv & _ & _ & Hnames).
  cbv zeta in E, Fp, Ft, Fv, Hnames.
  change (default VUndefined (released !! "pressed")) with (VBool false) in *.
  change (default VUndefined (released !! "touched")) with (VBool false) in *.
  change (default VUndefined (released !! "value")) with (num 0) in *.
  fold p t v in E, Fp, Ft, Fv, Hnames.
  assert (Erun : checkButtons [b] id s = (Ok tt, s1)).
  { rewrite (checkButtons_unseen s id b [] Hnew (Hnone id Hnew)).
    unfold mbind, M_bind, bind. rewrite E. reflexivity. }
  unfold s'. rewrite Erun. cbn [fst snd].
  split; [reflexivity|]. split.
  - exists l, d, ps1. split; [exact Hr1|]. split; [exact Hl|]. split; [exact Hd|].
    rewrite (readButtonState_ready s1 id l d ps1 Hr1), Fp, Ft, Fv. reflexivity.
  - rewrite Hnames, He. reflexivity.
Qed.

(** *** Events *)

Lemma emits_bind {A B} (m : M A) (k : A -> M B) :
  emitsKnown m -> (forall a, emitsKnown (k a)) -> emitsKnown (m ≫= k).
Proof.
  intros Hm Hk s. unfold mbind, M_bind, bind. destruct (Hm s) as (n1 & E1 & F1).
  destruct (m s) as [[a| |] s1]; cbn [snd] in E1 |- *;
    [|exists n1; split; assumption..].
  destruct (Hk a s1) as (n2 & E2 & F2). exists (n1 ++ n2).
  rewrite E2, E1, app_assoc. split; [reflexivity|]. apply Forall_app. auto.
Qed.

Lemma emits_silent {A} (m : M A) :
  (forall s, emitted (snd (m s)) = emitted s) -> emitsKnown m.
Proof.
  intros H s. exists []. rewrite app_nil_r. split; [apply H|constructor].
Qed.

Lemma emits_ret {A} (a : A) : emitsKnown (mret a).
Proof. apply emits_silent. reflexivity. Qed.

Lemma emits_get {A} (f : component -> A) : emitsKnown (get f).
Proof. apply emits_silent. reflexivity. Qed.

Lemma emits_withStore {A} (f : heap -> outcome A) : emitsKnown (withStore f).
Proof. apply emits_silent. reflexivity. Qed.

Lemma emits_updStore f : emitsKnown (updStore f).
Proof.
  apply emits_silent. intros s. unfold updStore. destruct (f (store s)); reflexivity.
Qed.

Lemma emits_new o : emitsKnown (new o).
Proof. apply emits_silent. reflexivity. Qed.

Lemma emits_set_buttonStates f : emitsKnown (modify (set_buttonStates f)).
Proof. apply emits_silent. reflexivity. Qed.

Lemma emits_set_buttonEventDetails f : emitsKnown (modify (set_buttonEventDetails f)).
Proof. apply emits_silent. reflexivity. Qed.

Lemma emits_buttonStateAt id : emitsKnown (buttonStateAt id).
Proof. apply emits_silent. reflexivity. Qed.

Lemma emits_buttonEventDetailAt id : emitsKnown (buttonEventDetailAt id).
Proof. apply emits_silent. reflexivity. Qed.

Lemma emits_emit name detail : name ∈ eventNames -> emitsKnown (emit name detail).
Proof.
  intros Hn s. eexists. split; [reflexivity|]. apply Forall_cons. split; [exact Hn|].
  apply Forall_nil. exact I.
Qed.

Lemma emits_if {A} (b : bool) (m1 m2 : M A) :
  emitsKnown m1 -> emitsKnown m2 -> emitsKnown (if b then m1 else m2).
Proof. destruct b; trivial. Qed.

Lemma eventNames_known :
  EVENTS.AXISMOVE ∈ eventNames /\ EVENTS.BUTTONCHANGED ∈ eventNames /\
  EVENTS.BUTTONDOWN ∈ eventNames /\ EVENTS.BUTTONUP ∈ eventNames /\
  EVENTS.TOUCHSTART ∈ eventNames /\ EVENTS.TOUCHEND ∈ eventNames.
Proof.
  unfold eventNames.
  repeat split; repeat first [apply list_elem_of_here | apply list_elem_of_further].
Qed.

Create HintDb emits.
#[local] Hint Resolve emits_ret emits_get emits_withStore emits_updStore emits_new
  emits_set_buttonStates emits_set_buttonEventDetails emits_buttonStateAt
  emits_buttonEventDetailAt : emits.

Ltac emits :=
  repeat first
    [ solve [auto with emits]
    | apply emits_bind; [|intros ?]
    | apply emits_if
    | apply emits_emit; try (destruct (truthy _)); apply eventNames_known ].

Lemma emits_handleButton id b : emitsKnown (handleButton id b).
Proof.
  unfold handleButton, handlePress, handleTouch, handleValue. emits.
Qed.

Lemma emits_checkButtons bs : forall id, emitsKnown (checkButtons bs id).
Proof.
  pose proof emits_handleButton.
  induction bs as [|b bs IH]; intros id; cbn [checkButtons]; emits.
Qed.

Lemma emits_compareAxes p c cur : forall i changed, emitsKnown (compareAxes p c cur i changed).
Proof.
  induction cur as [|x cur IH]; intros i changed; cbn [compareAxes];
    unfold arrayGet, arrayPush; emits.
Qed.

Lemma emits_copyAxes cur : emitsKnown (copyAxes cur).
Proof.
  induction cur as [|x cur IH]; cbn [copyAxes]; unfold arrayPush; emits.
Qed.

Lemma emits_handleAxes : emitsKnown handleAxes.
Proof.
  assert (Hc : emitsKnown controllerAxes).
  { apply emits_silent. intros s. unfold controllerAxes.
    destruct (controller s) as [c|]; [|reflexivity]. destruct (gamepad c); reflexivity. }
  pose proof emits_compareAxes. pose proof emits_copyAxes.
  unfold handleAxes, arrayClear. emits.
Qed.

Lemma emits_updateButtons : emitsKnown updateButtons.
Proof.
  unfold updateButtons. apply emits_bind; [emits|]. intros [c|]; [|emits].
  pose proof emits_checkButtons. pose proof emits_handleAxes.
  destruct (gamepad c); emits.
Qed.

(** X8. The handlers rely on [updateButtons] for their set-up: on a button
    that has no state yet [handleButton] throws a [TypeError], and without a
    controller so does [handleAxes], the component being left as it was;
    [updateButtons] itself returns at once without a controller. *)
Theorem handlers_need_setup s id b :
  buttonStates s !! id = None -> controller s = None ->
  handleButton id b s = (Throw TypeError, s) /\
  handleAxes s = (Throw TypeError, s) /\
  updateButtons s = (Ok tt, s).
Proof.
  intros Hs Hc. split; [|split].
  - unfold handleButton, handlePress. step. rewrite Hs. reflexivity.
  - unfold handleAxes, controllerAxes. step. rewrite Hc. reflexivity.
  - unfold updateButtons. step. rewrite Hc. reflexivity.
Qed.

Section TickRuns.
Variable decompose : list number -> list number * list number * list number.

Lemma updatePose_run s :
  updatePose decompose s =
    (Ok tt, match pose s with Some p => posed decompose p s | None => s end).
Proof.
  unfold updatePose, posed. step. destruct (pose s) as [p|]; [|reflexivity].
  cbn. destruct (decompose (transform_matrix p)) as [[pos rot] sc]. reflexivity.
Qed.

(** A tick is the [autoHide] step, and past the guard the pose and the
    buttons. *)
Lemma tick_run s :
  tick decompose s =
    match controller s, frame s with
    | Some c, Some f =>
        if truthy (referenceSpace s) && negb (truthy (hand c))
        then
          let s1 := set_pose (getPose f (gripSpace c) (referenceSpace s)) (autoHidden s) in
          updateButtons (match pose s1 with Some p => posed decompose p s1 | None => s1 end)
        else (Ok tt, autoHidden s)
    | _, _ => (Ok tt, autoHidden s)
    end.
Proof.
  unfold tick, autoHidden. step.
  destruct (truthy (autoHide s)); cbn -[lookup insert];
    destruct (controller s) as [c|]; try reflexivity;
    destruct (frame s) as [f|]; try reflexivity;
    destruct (truthy (referenceSpace s)); try reflexivity;
    destruct (truthy (hand c)); try reflexivity;
    cbn -[lookup insert updatePose updateButtons];
    rewrite updatePose_run; cbn -[lookup insert updateButtons];
    match goal with |- context [updateButtons ?x] =>
      destruct (updateButtons x) as [[[]| |] ?] end; reflexivity.
Qed.

Lemma visible_posed p s : visible (object3D (posed decompose p s)) = visible (object3D s).
Proof.
  unfold posed. destruct (decompose (transform_matrix p)) as [[pos rot] sc]. reflexivity.
Qed.

Lemma emitted_posed p s : emitted (posed decompose p s) = emitted s.
Proof.
  unfold posed. destruct (decompose (transform_matrix p)) as [[pos rot] sc]. reflexivity.
Qed.

(** The state a tick hands to [updateButtons] when the frame has no pose:
    it differs from the state before the tick in [pose] and in
    [object3D.visible]. *)
Lemma autoHidden_fields s :
  let s1 := set_pose None (autoHidden s) in
  buttonStates s1 = buttonStates s /\ buttonEventDetails s1 = buttonEventDetails s /\
  axis s1 = axis s /\ changedAxes s1 = changedAxes s /\
  axisMoveEventDetail s1 = axisMoveEventDetail s /\ controller s1 = controller s /\
  emitted s1 = emitted s /\ store s1 = store s.
Proof. unfold autoHidden. destruct (truthy (autoHide s)); repeat split. Qed.

Lemma wellFormed_fields s s1 :
  buttonStates s1 = buttonStates s -> buttonEventDetails s1 = buttonEventDetails s ->
  axis s1 = axis s -> changedAxes s1 = changedAxes s ->
  axisMoveEventDetail s1 = axisMoveEventDetail s -> store s1 = store s ->
  (wellFormed s -> wellFormed s1) /\
  (forall a c d prev, axesReady s a c d prev -> axesReady s1 a c d prev) /\
  (forall j, storedFields s1 j = storedFields s j).
Proof.
  intros E1 E2 E3 E4 E5 E6.
  unfold wellFormed, axesReady, buttonReady, storedFields, storedButtonState.
  rewrite E1, E2, E3, E4, E5, E6. auto.
Qed.

(** C10. On a tick with a controller that has no [hand], a frame and a
    reference space, for which the frame yields no pose, [updatePose] leaves
    the transform as it is and [updateButtons] runs in full.  On a
    well-formed component whose controller has a gamepad the tick returns;
    the events of every button are dispatched in turn, each reading
    compared with what was stored for the button, then [axismove] if an
    axis differs from the stored axis, with the axes and the flags in its
    detail; the readings are stored where they differ, and the stored axis
    is replaced if an axis differs. *)
Theorem tick_without_pose s c f :
  controller s = Some c -> frame s = Some f ->
  truthy (referenceSpace s) = true -> truthy (hand c) = false ->
  getPose f (gripSpace c) (referenceSpace s) = None ->
  let s1 := set_pose None (autoHidden s) in
  let s' := snd (tick decompose s) in
  tick decompose s = updateButtons s1 /\
  updatePose decompose s1 = (Ok tt, s1) /\
  matrix_elements (object3D s') = matrix_elements (object3D s) /\
  position (object3D s') = position (object3D s) /\
  rotation (object3D s') = rotation (object3D s) /\
  scale (object3D s') = scale (object3D s) /\
  (forall g a c0 d prev,
     wellFormed s -> gamepad c = Some g -> axesReady s a c0 d prev ->
     let flags := axisDiffers prev (axes g) 0 in
     fst (tick decompose s) = Ok tt /\
     map ev_name (emitted s') =
       map ev_name (emitted s) ++ buttonsDiffNames s (buttons g) 0 ++
       (if existsb id flags then [EVENTS.AXISMOVE] else []) /\
     (forall id b, buttons g !! id = Some b ->
        storedButtonState s' id = Ok (recorded (storedFields s id) b)) /\
     storedAxis s' = Ok (if existsb id flags then axes g else prev) /\
     (existsb id flags = true ->
        exists evs e, emitted s' = evs ++ [e] /\ ev_name e = EVENTS.AXISMOVE /\
          axisEventView e = Ok (axes g, VBool <$> flags))).
Proof.
  intros Hc Hf Hr Hh Hp s1 s'.
  assert (Hrun : tick decompose s = updateButtons s1).
  { unfold s1, tick, autoHidden, updatePose. step. rewrite Hc, Hf.
    destruct (truthy (autoHide s)); cbn -[lookup insert];
      rewrite Hr; cbn -[lookup insert];
      rewrite Hh; cbn -[lookup insert]; rewrite Hp; cbn -[lookup insert];
      destruct (updateButtons _) as [[[]| |] ?]; reflexivity. }
  assert (Ho : object3D s' = object3D (autoHidden s)).
  { unfold s'. rewrite Hrun, keeps_updateButtons. reflexivity. }
  split; [exact Hrun|]. split; [reflexivity|].
  split; [|split; [|split; [|split]]];
    try (rewrite Ho; unfold autoHidden; destruct (truthy (autoHide s)); reflexivity).
  intros g a c0 d prev Hwf Hg Hax flags.
  destruct (autoHidden_fields s) as (E1 & E2 & E3 & E4 & E5 & E6 & E7 & E8).
  fold s1 in E1, E2, E3, E4, E5, E6, E7, E8.
  destruct (wellFormed_fields s s1 E1 E2 E3 E4 E5 E8) as (Hwf1 & Hax1 & Hsf).
  assert (Hc1 : controller s1 = Some c) by (rewrite E6; exact Hc).
  destruct (updateButtons_records s1 c g a c0 d prev (Hwf1 Hwf) Hc1 Hg
              (Hax1 a c0 d prev Hax)) as (s2 & E & Hnames & Hrec & Hs & He).
  unfold s'. rewrite Hrun, E. cbn [fst snd]. fold flags in Hnames, Hs, He.
  split; [reflexivity|]. split; [|split; [|split; assumption]].
  - rewrite Hnames, E7. do 2 f_equal. apply buttonsDiffNames_ext. intros j _. apply Hsf.
  - intros j b Hj. rewrite (Hrec j b Hj), Hsf. reflexivity.
Qed.

(** X9. On a tick with a controller that has no [hand], a frame and a
    reference space, for which the frame yields a pose, the matrix of the
    pose becomes [object3D.matrix.elements] and its decomposition becomes
    position, rotation and scale; [visible] is what the [autoHide] step
    made it; [updateButtons] runs after the transform is written. *)
Theorem tick_with_pose s c f p :
  controller s = Some c -> frame s = Some f ->
  truthy (referenceSpace s) = true -> truthy (hand c) = false ->
  getPose f (gripSpace c) (referenceSpace s) = Some p ->
  let s1 := set_pose (Some p) (autoHidden s) in
  let s' := snd (tick decompose s) in
  updatePose decompose s1 = (Ok tt, posed decompose p s1) /\
  tick decompose s = updateButtons (posed decompose p s1) /\
  matrix_elements (object3D s') = transform_matrix p /\
  (position (object3D s'), rotation (object3D s'), scale (object3D s')) =
    decompose (transform_matrix p) /\
  visible (object3D s') = visible (object3D (autoHidden s)).
Proof.
  intros Hc Hf Hr Hh Hp s1 s'.
  assert (Hrun : tick decompose s = updateButtons (posed decompose p s1)).
  { rewrite tick_run, Hc, Hf, Hr, Hh, Hp. reflexivity. }
  assert (Ho : object3D s' = object3D (posed decompose p s1)).
  { unfold s'. rewrite Hrun. apply keeps_updateButtons. }
  split; [apply (updatePose_run s1)|]. split; [exact Hrun|].
  rewrite Ho. unfold posed.
  destruct (decompose (transform_matrix p)) as [[pos rot] sc]. repeat split.
Qed.

(** X10. Whatever a tick does, [object3D.visible] afterwards is decided by
    the [autoHide] step alone: with [autoHide] set it is whether a
    controller is bound, otherwise it is what it was.  Neither the pose nor
    the buttons change it, also when the tick ends in an exception. *)
Theorem tick_visibility s :
  visible (object3D (snd (tick decompose s))) =
    if truthy (autoHide s) then VBool (bool_decide (is_Some (controller s)))
    else visible (object3D s).
Proof.
  assert (Hauto : visible (object3D (autoHidden s)) =
    if truthy (autoHide s) then VBool (bool_decide (is_Some (controller s)))
    else visible (object3D s)).
  { unfold autoHidden. destruct (truthy (autoHide s)); reflexivity. }
  rewrite tick_run.
  destruct (controller s) as [c|]; [|exact Hauto].
  destruct (frame s) as [f|]; [|exact Hauto].
  destruct (truthy (referenceSpace s) && negb (truthy (hand c))); [|exact Hauto].
  cbv zeta. rewrite keeps_updateButtons.
  cbn [pose set_pose].
  destruct (getPose f (gripSpace c) (referenceSpace s)) as [p|];
    [rewrite visible_posed|]; exact Hauto.
Qed.

(** X11. A tick only adds to the events dispatched, those before stay in
    their order, and every event it adds has one of the six names of
    [EVENTS]; this holds for every component, also when the tick ends in an
    exception. *)
Theorem tick_emits_known s :
  exists new,
    emitted (snd (tick decompose s)) = emitted s ++ new /\
    Forall (fun e => ev_name e ∈ eventNames) new.
Proof.
  assert (Hauto : emitted (autoHidden s) = emitted s).
  { unfold autoHidden. destruct (truthy (autoHide s)); reflexivity. }
  assert (Hnone : exists new, emitted (autoHidden s) = emitted s ++ new /\
                    Forall (fun e => ev_name e ∈ eventNames) new).
  { exists []. rewrite app_nil_r. split; [exact Hauto|constructor]. }
  rewrite tick_run.
  destruct (controller s) as [c|]; [|exact Hnone].
  destruct (frame s) as [f|]; [|exact Hnone].
  destruct (truthy (referenceSpace s) && negb (truthy (hand c))); [|exact Hnone].
  cbv zeta. cbn [pose set_pose].
  match goal with |- context [updateButtons ?x] =>
    destruct (emits_updateButtons x) as (new & E & F);
    assert (Hx : emitted x = emitted s)
  end.
  { destruct (getPose f (gripSpace c) (referenceSpace s)) as [p|];
      [rewrite emitted_posed|]; exact Hauto. }
  exists new. rewrite E, Hx. auto.
Qed.

End TickRuns.

End TrackedControlsInvariants.

Section StringNormalForms.
Import JS.

(** *** Trimming *)

Lemma trimStart_head s :
  trimStart s = "" \/ exists c r, trimStart s = String c r /\ isWhiteSpace c = false.
Proof.
  induction s as [|c s IH]; cbn [trimStart]; [left; reflexivity|].
  destruct (isWhiteSpace c) eqn:E; [exact IH|]. right. eauto.
Qed.

Lemma trimEnd_keeps_head c r :
  isWhiteSpace c = false -> exists r', trimEnd (String c r) = String c r'.
Proof.
  intros Hc. cbn [trimEnd]. destruct (trimEnd r); [rewrite Hc|]; eauto.
Qed.

Lemma trimEnd_cons c s :
  trimEnd (String c s) =
    match trimEnd s with
    | EmptyString => if isWhiteSpace c then EmptyString else String c EmptyString
    | r => String c r
    end.
Proof. reflexivity. Qed.

Lemma trimEnd_idem s : trimEnd (trimEnd s) = trimEnd s.
Proof.
  induction s as [|c s IH]; [reflexivity|]. rewrite trimEnd_cons.
  destruct (trimEnd s) as [|c' r] eqn:E.
  - destruct (isWhiteSpace c) eqn:Ec; [reflexivity|]. cbn [trimEnd]. rewrite Ec. reflexivity.
  - rewrite trimEnd_cons, IH. reflexivity.
Qed.

(** [trim] gives a string that [trim] leaves as it is. *)
Lemma trim_idem s : trim (trim s) = trim s.
Proof.
  unfold trim. destruct (trimStart_head s) as [->|(c & r & -> & Hc)]; [reflexivity|].
  destruct (trimEnd_keeps_head c r Hc) as [r' E]. rewrite E.
  cbn [trimStart]. rewrite Hc, <- E. apply trimEnd_idem.
Qed.

Lemma contains_trimStart c s : contains c s = false -> contains c (trimStart s) = false.
Proof.
  induction s as [|a s IH]; cbn [trimStart contains]; [trivial|].
  intros H. apply orb_false_elim in H as [Ha Hs].
  destruct (isWhiteSpace a); [auto|]. cbn [contains]. rewrite Ha, Hs. reflexivity.
Qed.

Lemma contains_trimEnd c s : contains c s = false -> contains c (trimEnd s) = false.
Proof.
  induction s as [|a s IH]; cbn [trimEnd contains]; [trivial|].
  intros H. apply orb_false_elim in H as [Ha Hs]. specialize (IH Hs).
  destruct (trimEnd s) as [|c' r].
  - destruct (isWhiteSpace a); [reflexivity|]. cbn [contains]. rewrite Ha. reflexivity.
  - cbn [contains] in IH |- *. rewrite Ha, IH. reflexivity.
Qed.

(** The segments of a split hold no separator. *)
Lemma split_segments c s : Forall (fun seg => contains c seg = false) (split c s).
Proof.
  induction s as [|a s IH]; cbn [split].
  - repeat constructor.
  - destruct (Ascii.eqb a c) eqn:E.
    + constructor; [reflexivity|exact IH].
    + destruct (split c s) as [|seg segs].
      * repeat constructor. cbn [contains]. rewrite E. reflexivity.
      * inversion IH as [|? ? Hseg Hsegs]; subst. constructor; [|exact Hsegs].
        cbn [contains]. rewrite E, Hseg. reflexivity.
Qed.

Lemma split_nonempty c s : split c s <> [].
Proof.
  destruct s as [|a s]; cbn [split]; [discriminate|].
  destruct (Ascii.eqb a c); [discriminate|]. destruct (split c s); discriminate.
Qed.

(** The trimmed segments of a string are what [arrayStringify] and
    [arrayParse] give back. *)
Lemma trimmed_segments s :
  Forall (fun t => contains "," t = false /\ trim t = t) (map trim (split "," s)).
Proof.
  apply Forall_map. eapply Forall_impl; [apply split_segments|].
  intros seg Hseg. cbn beta. split; [|apply trim_idem].
  unfold trim. apply contains_trimEnd, contains_trimStart. exact Hseg.
Qed.

End StringNormalForms.

Section PropertyTypesFurther.
Import JS PropertyTypes.

Ltac pstep :=
  unfold defaultParse, defaultStringify, defaultEquals, boolParse, intParse,
    numberParse;
  unfold mbind, M_bind, mret, M_ret, bind, ret, get, modify, withStore, lift,
    throw, new; cbn -[lookup insert].

(** *** [===] *)

Lemma SFeqb_sym x y : SFeqb x y = SFeqb y x.
Proof.
  unfold SFeqb, SFcompare.
  destruct x as [s|s| |s m e], y as [s'|s'| |s' m' e']; try reflexivity;
    try (destruct s; reflexivity); try (destruct s'; reflexivity);
    try (destruct s, s'; reflexivity).
  assert (H : Pos.compare_cont Eq m' m = CompOpp (Pos.compare_cont Eq m m'))
    by (symmetry; apply (Pos.compare_cont_antisym m m' Eq)).
  destruct s, s'; try reflexivity;
    rewrite (Z.compare_antisym e e'); destruct (e ?= e')%Z; cbn [CompOpp];
    try reflexivity; rewrite H; destruct (Pos.compare_cont Eq m m'); reflexivity.
Qed.

Lemma func_eqb_sym f g : func_eqb f g = func_eqb g f.
Proof. destruct f, g; try reflexivity. apply Nat.eqb_sym. Qed.

Lemma strict_eq_sym a b : strict_eq a b = strict_eq b a.
Proof.
  destruct a, b; cbn [strict_eq]; try reflexivity.
  - destruct b0, b; reflexivity.
  - apply SFeqb_sym.
  - apply String.eqb_sym.
  - apply Pos.eqb_sym.
  - apply func_eqb_sym.
Qed.

(** *** Arrays *)

Lemma itemsEqualFrom_spec xs : forall ys i,
  itemsEqualFrom xs ys i = true <->
  forall j x, xs !! j = Some x ->
    strict_eq x (default VUndefined (ys !! (i + j))) = true.
Proof.
  induction xs as [|x xs IH]; intros ys i; cbn [itemsEqualFrom].
  - split; [intros _ j x H; discriminate|reflexivity].
  - unfold strict_neq. destruct (strict_eq x (default VUndefined (ys !! i))) eqn:E;
      cbn [negb].
    + rewrite IH. split.
      * intros H [|j] y Hj.
        -- injection Hj as <-. rewrite Nat.add_0_r. exact E.
        -- replace (i + S j) with (S i + j) by lia. apply H. exact Hj.
      * intros H j y Hj. replace (S i + j) with (i + S j) by lia. apply H. exact Hj.
    + split; [discriminate|]. intros H. specialize (H 0 x eq_refl).
      rewrite Nat.add_0_r, E in H. discriminate.
Qed.

Lemma itemsEqualFrom_sym xs ys :
  length xs = length ys -> itemsEqualFrom xs ys 0 = itemsEqualFrom ys xs 0.
Proof.
  intros Hlen. apply eq_true_iff_eq. rewrite !itemsEqualFrom_spec. cbn [Nat.add].
  split; intros H j y Hj.
  - destruct (lookup_lt_is_Some_2 xs j) as [x Hx].
    { rewrite Hlen. eapply lookup_lt_Some. exact Hj. }
    specialize (H j x Hx). rewrite Hj in H. rewrite Hx. cbn [default from_option id] in *.
    rewrite strict_eq_sym. exact H.
  - destruct (lookup_lt_is_Some_2 ys j) as [x Hx].
    { rewrite <- Hlen. eapply lookup_lt_Some. exact Hj. }
    specialize (H j x Hx). rewrite Hj in H. rewrite Hx. cbn [default from_option id] in *.
    rewrite strict_eq_sym. exact H.
Qed.

Lemma isArray_inv h v :
  isArray h v = true -> exists l items, v = VRef l /\ h !! l = Some (OArray items).
Proof.
  destruct v; try discriminate. cbn [isArray].
  destruct (h !! l) as [[items| | |]|] eqn:E; try discriminate. eauto.
Qed.

(** A new array: its location is not in use, and what is in the store
    stays. *)
Lemma new_array items w :
  exists l,
    new (OArray items) w = (Ok (VRef l), set_store (<[l := OArray items]> (store w)) w) /\
    store w !! l = None /\
    storeGrows w (set_store (<[l := OArray items]> (store w)) w).
Proof.
  exists (fresh (dom (store w))). pose proof (fresh_store_None (store w)) as Hf.
  split; [reflexivity|]. split; [exact Hf|].
  split; [|repeat split]. intros l o Hl. cbn -[lookup insert].
  rewrite lookup_insert_ne; [exact Hl|]. intros E. rewrite E in Hf. congruence.
Qed.

Lemma storeGrows_refl w : storeGrows w w.
Proof. repeat split; auto. Qed.

(** X12. [arrayEquals] on two arrays returns [true] exactly when they have
    the same length and their items are equal under [===] index by index;
    it reads the store and changes nothing. *)
Theorem arrayEquals_items w (la lb : loc) xs ys :
  store w !! la = Some (OArray xs) -> store w !! lb = Some (OArray ys) ->
  exists r,
    arrayEquals (VRef la) (VRef lb) w = (Ok (VBool r), w) /\
    (r = true <->
     length xs = length ys /\
     forall j x y, xs !! j = Some x -> ys !! j = Some y -> strict_eq x y = true).
Proof.
  intros Ha Hb. unfold arrayEquals, withStore. cbn [isArray]. rewrite Ha, Hb.
  cbn [negb orb]. destruct (Nat.eqb_spec (length xs) (length ys)) as [Hlen|Hlen]; cbn [negb].
  - exists (itemsEqualFrom xs ys 0). split; [reflexivity|].
    rewrite itemsEqualFrom_spec. cbn [Nat.add]. split.
    + intros H. split; [exact Hlen|]. intros j x y Hx Hy.
      specialize (H j x Hx). rewrite Hy in H. exact H.
    + intros [_ H] j x Hx.
      destruct (lookup_lt_is_Some_2 ys j) as [y Hy].
      { rewrite <- Hlen. eapply lookup_lt_Some. exact Hx. }
      rewrite Hy. apply (H j x y Hx Hy).
  - exists false. split; [reflexivity|]. split; [discriminate|]. intros [H _]. contradiction.
Qed.

(** X13. [arrayEquals] is symmetric: for any two values, arrays or not,
    [arrayEquals(a, b)] and [arrayEquals(b, a)] return the same. *)
Theorem arrayEquals_symmetric a b w : arrayEquals a b w = arrayEquals b a w.
Proof.
  unfold arrayEquals, withStore. f_equal.
  destruct (isArray (store w) a) eqn:Ia; destruct (isArray (store w) b) eqn:Ib;
    cbn [negb orb]; try (rewrite (strict_eq_sym a b); reflexivity).
  destruct (isArray_inv _ _ Ia) as (la & xs & -> & Ha).
  destruct (isArray_inv _ _ Ib) as (lb & ys & -> & Hb).
  rewrite Ha, Hb. rewrite (Nat.eqb_sym (length ys)).
  destruct (Nat.eqb_spec (length xs) (length ys)) as [Hlen|Hlen]; cbn [negb]; [|reflexivity].
  rewrite (itemsEqualFrom_sym xs ys Hlen). reflexivity.
Qed.

(** X14. [arrayParse] returns an array for every value, without an
    exception: the value itself when it is an array, a new array
    otherwise, with what was in the store kept; parsing the result again
    returns the very same array and changes nothing. *)
Theorem arrayParse_gives_array v w :
  exists r w',
    arrayParse v w = (Ok r, w') /\ isArray (store w') r = true /\
    storeGrows w w' /\
    (isArray (store w) v = true -> r = v /\ w' = w) /\
    (isArray (store w) v = false -> exists l, r = VRef l /\ store w !! l = None) /\
    arrayParse r w' = (Ok r, w').
Proof.
  assert (Hnew : forall items, arrayParse v w = new (OArray items) w ->
    isArray (store w) v = false ->
    exists r w', arrayParse v w = (Ok r, w') /\ isArray (store w') r = true /\
      storeGrows w w' /\ (isArray (store w) v = true -> r = v /\ w' = w) /\
      (isArray (store w) v = false -> exists l, r = VRef l /\ store w !! l = None) /\
      arrayParse r w' = (Ok r, w')).
  { intros items E Hno. destruct (new_array items w) as (l & Enew & Hl & Hgrows).
    assert (Harr : isArray (store (set_store (<[l := OArray items]> (store w)) w)) (VRef l) = true).
    { cbn -[lookup insert]. rewrite lookup_insert_eq. reflexivity. }
    eexists _, _. split; [rewrite E; exact Enew|]. split; [exact Harr|].
    split; [exact Hgrows|]. split; [rewrite Hno; discriminate|].
    split; [eauto|]. apply arrayParse_array. exact Harr. }
  destruct (isArray (store w) v) eqn:Harr.
  - exists v, w. split; [apply arrayParse_array; exact Harr|]. split; [exact Harr|].
    split; [apply storeGrows_refl|]. split; [auto|]. split; [discriminate|].
    apply arrayParse_array. exact Harr.
  - destruct v as [| | | |s| |];
      try (apply (Hnew []); [apply arrayParse_other; [exact Harr|intros s; discriminate]|reflexivity]).
    destruct (String.eqb_spec s "") as [->|Hs].
    + apply (Hnew []); [apply arrayParse_of_empty|reflexivity].
    + apply (Hnew (VStr <$> map trim (split "," s))); [apply arrayParse_string; exact Hs|reflexivity].
Qed.

(** X15. What [arrayParse] makes of a string is a fixed point of writing
    and reading: [arrayStringify] of the parsed array is its items joined
    with ", ", and [arrayParse] of that string is an array equal, by
    [arrayEquals], to the parsed one.  The strings excluded are the empty
    one and those of white space only, whose parsed array is that of one
    empty string. *)
Theorem arrayParse_stringify_parse w s :
  s <> "" -> map trim (split "," s) <> [""] ->
  let items := map trim (split "," s) in
  exists r w1 r' w2,
    arrayParse (VStr s) w = (Ok r, w1) /\
    resultItems (Ok r, w1) = Some (VStr <$> items) /\
    arrayStringify r w1 = (Ok (VStr (join ", " items)), w1) /\
    arrayParse (VStr (join ", " items)) w1 = (Ok r', w2) /\
    resultItems (Ok r', w2) = Some (VStr <$> items) /\
    arrayEquals r' r w2 = (Ok (VBool true), w2).
Proof.
  intros Hs Hne items.
  pose proof (trimmed_segments s) as Hnf. fold items in Hnf, Hne.
  destruct (new_array (VStr <$> items) w) as (l1 & E1 & Hl1 & _).
  set (w1 := set_store (<[l1 := OArray (VStr <$> items)]> (store w)) w) in *.
  destruct (new_array (VStr <$> items) w1) as (l2 & E2 & Hl2 & _).
  set (w2 := set_store (<[l2 := OArray (VStr <$> items)]> (store w1)) w1) in *.
  assert (H1 : store w1 !! l1 = Some (OArray (VStr <$> items))).
  { cbn -[lookup insert]. apply lookup_insert_eq. }
  assert (Hne12 : l1 <> l2) by (intros E; rewrite E in H1; congruence).
  assert (Hjoin : join ", " items <> "").
  { destruct items as [|x [|y l]] eqn:Ei.
    - exfalso. unfold items in Ei. apply map_eq_nil in Ei.
      exact (split_nonempty _ _ Ei).
    - cbn [join]. intros ->. apply Hne. reflexivity.
    - apply join_nonempty. }
  assert (Hback : map trim (split "," (join ", " items)) = items).
  { destruct items as [|x l] eqn:Ei.
    - exfalso. unfold items in Ei. apply map_eq_nil in Ei.
      exact (split_nonempty _ _ Ei).
    - apply map_trim_split_join. exact Hnf. }
  exists (VRef l1), w1, (VRef l2), w2.
  split; [rewrite (arrayParse_string s w Hs); exact E1|].
  split; [unfold resultItems; rewrite H1; reflexivity|].
  split.
  { unfold arrayStringify, withStore. rewrite H1, joinValues_strings. reflexivity. }
  split; [rewrite (arrayParse_string _ w1 Hjoin), Hback; exact E2|].
  split.
  { unfold resultItems. cbn -[lookup insert]. rewrite lookup_insert_eq. reflexivity. }
  unfold arrayEquals, withStore. cbn -[lookup insert itemsEqualFrom].
  rewrite lookup_insert_eq. rewrite lookup_insert_ne by (apply not_eq_sym; exact Hne12).
  rewrite lookup_insert_eq. cbn -[lookup insert itemsEqualFrom].
  rewrite Nat.eqb_refl. cbn -[lookup insert itemsEqualFrom].
  pose proof (itemsEqualFrom_refl [] items) as E.
  change ([] ++ (VStr <$> items)) with (VStr <$> items) in E.
  change (length (@nil value)) with 0%nat in E.
  rewrite E. reflexivity.
Qed.

(** *** Arrays of numbers *)

Lemma joinValues_integers sep zs :
  Forall (fun z => (Z.abs z < 2 ^ 53)%Z) zs ->
  joinValues sep (num <$> zs) = Ok (join sep (integerToString <$> zs)).
Proof.
  intros H. unfold joinValues.
  assert (E : omap (fun v => match v with
                             | VUndefined | VNull => Ok EmptyString
                             | _ => toStringPrim v
                             end) (num <$> zs) = Ok (integerToString <$> zs)).
  { induction H as [|z zs Hz _ IH]; [reflexivity|].
    change (num <$> z :: zs) with (num z :: (num <$> zs)).
    change (integerToString <$> z :: zs)
      with (integerToString z :: (integerToString <$> zs)).
    cbn [omap]. rewrite IH.
    change (toStringPrim (num z)) with (numberToString (of_Z z false)).
    rewrite (numberToString_of_Z z false Hz). reflexivity. }
  rewrite E. reflexivity.
Qed.

Lemma integerToString_nonempty z : integerToString z <> "".
Proof.
  destruct (integerToString_digits z) as (d & rest & _ & E & _). rewrite E.
  destruct (z <? 0)%Z; discriminate.
Qed.

Lemma join_head_nonempty sep x l : x <> "" -> join sep (x :: l) <> "".
Proof.
  intros Hx. destruct l as [|y l]; [exact Hx|].
  change (join sep (x :: y :: l)) with (x +:+ sep +:+ join sep (y :: l)).
  destruct x; [congruence|]. rewrite append_cons. discriminate.
Qed.

(** X16. An array of numbers does not come back from its string:
    [arrayStringify] writes the numbers joined with ", ", [arrayParse] of
    that string makes an array of strings, and [arrayEquals] of it and the
    array of numbers returns [false], a string never being [===] to a
    number. *)
Theorem arrayStringify_numbers w (a : loc) zs :
  zs <> [] -> Forall (fun z => (Z.abs z < 2 ^ 53)%Z) zs ->
  store w !! a = Some (OArray (num <$> zs)) ->
  let str := join ", " (integerToString <$> zs) in
  arrayStringify (VRef a) w = (Ok (VStr str), w) /\
  exists r w',
    arrayParse (VStr str) w = (Ok r, w') /\
    resultItems (Ok r, w') = Some (VStr <$> map trim (split "," str)) /\
    arrayEquals r (VRef a) w' = (Ok (VBool false), w').
Proof.
  intros Hne Hz Ha str. split.
  - unfold arrayStringify, withStore. rewrite Ha, (joinValues_integers ", " zs Hz).
    reflexivity.
  - destruct zs as [|z zs]; [congruence|].
    assert (Hstr : str <> "").
    { unfold str. cbn [fmap list_fmap]. apply join_head_nonempty, integerToString_nonempty. }
    destruct (new_array (VStr <$> map trim (split "," str)) w) as (l & Enew & Hl & Hgrows).
    set (w' := set_store (<[l := OArray (VStr <$> map trim (split "," str))]> (store w)) w)
      in *.
    assert (Hl' : store w' !! l = Some (OArray (VStr <$> map trim (split "," str)))).
    { cbn -[lookup insert]. apply lookup_insert_eq. }
    assert (Ha' : store w' !! a = Some (OArray (num <$> z :: zs))) by (apply Hgrows; exact Ha).
    exists (VRef l), w'. split; [rewrite (arrayParse_string str w Hstr); exact Enew|].
    split; [unfold resultItems; rewrite Hl'; reflexivity|].
    unfold arrayEquals, withStore. cbn [isArray]. rewrite Hl', Ha'. cbn [negb orb].
    destruct (split "," str) as [|seg segs] eqn:Esplit;
      [exfalso; exact (split_nonempty _ _ Esplit)|].
    destruct (negb _); reflexivity.
Qed.

(** *** Assets *)

Lemma lineRun_app x y : lineRun x = x -> lineRun (x +:+ y) = x +:+ lineRun y.
Proof.
  induction x as [|c x IH]; [reflexivity|]. rewrite append_cons. cbn [lineRun].
  destruct (isLineTerminator c); [discriminate|]. intros [= E]. rewrite (IH E).
  reflexivity.
Qed.

Lemma beforeLastParen_app x : beforeLastParen (x +:+ ")") = Some x.
Proof.
  induction x as [|c x IH]; [reflexivity|]. rewrite append_cons. cbn [beforeLastParen].
  rewrite IH. reflexivity.
Qed.

Lemma getAttribute_element h (l : loc) tag attrs name :
  h !! l = Some (OElement tag attrs) ->
  getAttribute h (VRef l) name = Ok (attributeValue attrs name).
Proof.
  intros Hl. unfold getAttribute, attributeValue. cbn [getProp]. rewrite Hl.
  reflexivity.
Qed.

(** X17. [assetParse] unwraps [url(...)]: of the string [url(x)], for any
    [x] that is not empty and holds no line terminator, it returns [x],
    parentheses inside [x] included, and changes nothing.  The regular
    expression needs one character inside, so [url()] is returned as it
    is. *)
Theorem assetParse_url w x :
  x <> "" -> lineRun x = x ->
  assetParse (VStr ("url(" +:+ x +:+ ")")) w = (Ok (VStr x), w) /\
  assetParse (VStr "url()") w = (Ok (VStr "url()"), w).
Proof.
  intros Hx Hline. split; [|reflexivity].
  unfold assetParse.
  assert (E : urlRegex_match ("url(" +:+ x +:+ ")") = Some x).
  { change ("url(" +:+ x +:+ ")") with
      (String "u" (String "r" (String "l" (String "(" (x +:+ ")"))))).
    cbn [urlRegex_match startsWith Ascii.eqb Bool.eqb andb dropChars].
    rewrite (lineRun_app x ")" Hline).
    change (lineRun ")") with ")". rewrite beforeLastParen_app.
    destruct x; [congruence|reflexivity]. }
  rewrite E. reflexivity.
Qed.

(** X18. An element with an id is written by [assetStringify] as [#id].
    Reading that string back with [assetParse] gives the element itself
    when it is a canvas, a video or an image; for any other element it
    gives the [src] attribute of the element, not the element.  An element
    without an id is written as its [src] attribute. *)
Theorem assetStringify_element w (l : loc) tag attrs :
  store w !! l = Some (OElement tag attrs) ->
  (forall i, attribute attrs "id" = Some i -> i <> "" ->
     assetStringify (VRef l) w = (Ok (VStr (String "#" i)), w) /\
     (urlRegex_match (String "#" i) = None ->
      firstWithId (store w) (document w) i = VRef l ->
      assetParse (VStr (String "#" i)) w =
        (Ok (if isMediaTag (VStr tag) then VRef l else attributeValue attrs "src"), w))) /\
  (attribute attrs "id" = None \/ attribute attrs "id" = Some "" ->
     assetStringify (VRef l) w = (Ok (attributeValue attrs "src"), w)).
Proof.
  intros Hl. split.
  - intros i Hi Hne. split.
    + unfold assetStringify. pstep. rewrite Hl. cbn -[lookup insert].
      rewrite (getAttribute_element _ l tag attrs "id" Hl).
      unfold attributeValue. rewrite Hi. cbn -[lookup insert].
      apply String.eqb_neq in Hne. rewrite Hne. cbn -[lookup insert].
      rewrite (getAttribute_element _ l tag attrs "id" Hl).
      unfold attributeValue. rewrite Hi. reflexivity.
    + intros Hurl Hfirst. unfold assetParse. rewrite Hurl.
      cbn [charAt0 substring1]. unfold getElementById. pstep.
      apply String.eqb_neq in Hne. rewrite Hne, Hfirst. cbn -[lookup insert].
      rewrite Hl. cbn -[lookup insert isMediaTag].
      destruct (isMediaTag (VStr tag)); [reflexivity|].
      rewrite (getAttribute_element _ l tag attrs "src" Hl). reflexivity.
  - intros Hid. unfold assetStringify. pstep. rewrite Hl. cbn -[lookup insert].
    rewrite (getAttribute_element _ l tag attrs "id" Hl).
    unfold attributeValue at 1.
    destruct Hid as [-> | ->]; cbn -[lookup insert];
      rewrite (getAttribute_element _ l tag attrs "src" Hl); reflexivity.
Qed.

(** X19. [assetParse] of [#id] for an id that no element of the document
    has returns [undefined], without an exception, and passes one message
    to [warn], which names the value; the store, the document and the
    registry are as before. *)
Theorem assetParse_missing w i :
  urlRegex_match (String "#" i) = None ->
  i = "" \/ firstWithId (store w) (document w) i = VNull ->
  assetParse (VStr (String "#" i)) w =
    (Ok VUndefined, set_warned (warned w ++ [assetNotFound (String "#" i)]) w).
Proof.
  intros Hurl Hmiss. unfold assetParse. rewrite Hurl.
  cbn [charAt0 substring1]. unfold getElementById, warn. pstep.
  destruct (String.eqb_spec i "") as [->|Hne]; [reflexivity|].
  destruct Hmiss as [Hm | Hm]; [congruence|rewrite Hm; reflexivity].
Qed.

(** What [assetParse] returns does not depend on the messages passed to
    [warn] before, and it only adds to them. *)
Lemma assetParse_warned v w :
  exists r rest,
    forall msgs, assetParse v (set_warned msgs w) = (r, set_warned (msgs ++ rest) w).
Proof.
  destruct v as [| | | |s| |];
    try (eexists _, []; intros msgs; rewrite app_nil_r; reflexivity).
  unfold assetParse. destruct (urlRegex_match s) as [g|].
  { eexists _, []. intros msgs. rewrite app_nil_r. reflexivity. }
  destruct (String.eqb (charAt0 s) "#").
  2:{ eexists _, []. intros msgs. rewrite app_nil_r. reflexivity. }
  unfold getElementById, warn. pstep.
  set (el := if String.eqb (substring1 s) "" then VNull
             else firstWithId (store w) (document w) (substring1 s)).
  destruct (truthy el); cbn -[lookup insert isMediaTag].
  - destruct (getProp (store w) el "tagName") as [tag| |].
    + cbn -[lookup insert isMediaTag]. destruct (isMediaTag tag).
      * eexists _, []. intros msgs. rewrite app_nil_r. reflexivity.
      * exists (getAttribute (store w) el "src"), []. intros msgs.
        rewrite app_nil_r. reflexivity.
    + eexists _, []. intros msgs. rewrite app_nil_r. reflexivity.
    + eexists _, []. intros msgs. rewrite app_nil_r. reflexivity.
  - eexists _, [_]. intros msgs. reflexivity.
Qed.

Lemma set_warned_id w : set_warned (warned w) w = w.
Proof. destruct w; reflexivity. Qed.

(** X20. [srcParse] returns what [assetParse] returns, for every value; it
    passes the message of the deprecation to [warn] first, on every call,
    and then the messages of [assetParse]; it changes nothing else. *)
Theorem srcParse_as_assetParse v w :
  fst (srcParse v w) = fst (assetParse v w) /\
  exists rest,
    snd (assetParse v w) = set_warned (warned w ++ rest) w /\
    snd (srcParse v w) = set_warned (warned w ++ srcDeprecated :: rest) w.
Proof.
  destruct (assetParse_warned v w) as (r & rest & H).
  pose proof (H (warned w)) as E1. rewrite set_warned_id in E1.
  pose proof (H (warned w ++ [srcDeprecated])) as E2.
  assert (E : srcParse v w = (r, set_warned (warned w ++ srcDeprecated :: rest) w)).
  { unfold srcParse, warn, mbind, M_bind, bind, modify. cbv beta iota.
    change (assetParse v (set_warned (warned w ++ [srcDeprecated]) w) =
            (r, set_warned (warned w ++ srcDeprecated :: rest) w)).
    rewrite E2, <- app_assoc. reflexivity. }
  rewrite E, E1. split; [reflexivity|]. exists rest. split; reflexivity.
Qed.

(** *** Booleans and numbers *)

(** X21. [boolParse] returns a boolean for every value, without an
    exception; it returns [false] for the string [false] and for [false],
    and [true] for every other value; parsing its result gives the result
    again. *)
Theorem boolParse_cases v w :
  exists b,
    boolParse v w = (Ok (VBool b), w) /\
    (b = false <-> v = VStr "false" \/ v = VBool false) /\
    boolParse (VBool b) w = (Ok (VBool b), w).
Proof.
  eexists. split; [reflexivity|]. split.
  - unfold strict_neq. destruct v as [| |b|x|s| |]; cbn [strict_eq negb andb];
      try (split; [discriminate|intros [H|H]; discriminate]).
    + destruct b; cbn; split; auto; try discriminate.
      intros [H|H]; discriminate.
    + destruct (String.eqb_spec s "false") as [->|Hs]; cbn; split; auto; try discriminate.
      intros [[= H]|H]; [contradiction|discriminate].
  - unfold strict_neq. destruct v as [| |b|x|s| |]; cbn [strict_eq negb andb];
      try reflexivity.
    + destruct b; reflexivity.
    + destruct (String.eqb s "false"); reflexivity.
Qed.

Lemma spanDigits_app s rest ds :
  spanDigits s = (ds, EmptyString) -> spanDigits rest = ([], rest) ->
  spanDigits (s +:+ rest) = (ds, rest).
Proof.
  intros Hs Hrest. revert ds Hs.
  induction s as [|c s IH]; intros ds Hs.
  - cbn in Hs. injection Hs as <-. rewrite append_nil_l. exact Hrest.
  - rewrite append_cons. cbn [spanDigits] in Hs |- *.
    destruct (digitOf c) as [d|]; [|discriminate].
    destruct (spanDigits s) as [ds' r']. injection Hs as <- ->.
    rewrite (IH ds' eq_refl). reflexivity.
Qed.

Lemma trimStart_app pad t : trimStart pad = "" -> trimStart (pad +:+ t) = trimStart t.
Proof.
  induction pad as [|c pad IH]; [reflexivity|]. rewrite append_cons. cbn [trimStart].
  destruct (isWhiteSpace c); [exact IH|discriminate].
Qed.

(** X22. [intParse] reads the integer at the head of a string: after any
    leading white space, the decimal string of an integer [z], followed by
    anything that does not start with a digit, parses to [z]. *)
Theorem intParse_leading_integer w pad z rest :
  trimStart pad = "" -> spanDigits rest = ([], rest) ->
  intParse (VStr (pad +:+ integerToString z +:+ rest)) w =
    (Ok (VNum (of_Z z (z <? 0)%Z)), w).
Proof.
  intros Hpad Hrest. unfold intParse. pstep. do 3 f_equal.
  unfold parseInt. rewrite (trimStart_app pad _ Hpad).
  destruct (integerToString_digits z) as (d0 & r0 & Hd & E & Edig).
  destruct (spanDigits_digitsOf (Z.abs z) (Z.abs_nonneg z)) as (d & ds & Hspan & Hval).
  rewrite Edig in Hspan.
  pose proof (spanDigits_app _ rest _ Hspan Hrest) as Happ.
  rewrite E. destruct (Z.ltb_spec z 0) as [Hneg|Hpos].
  - rewrite !append_cons. cbn [trimStart]. change (isWhiteSpace "-") with false.
    cbv iota. cbn [signOf]. rewrite <- append_cons, Happ, Hval. f_equal. lia.
  - rewrite append_cons. cbn [trimStart]. rewrite digitChar_not_space by exact Hd.
    rewrite (proj2 (digitChar_not_sign d0 Hd)).
    rewrite <- append_cons, Happ, Hval. f_equal. lia.
Qed.

(** X23. Parsing a number that is an integer gives the number back:
    [intParse] and [numberParse] of an integer below 2^53 in magnitude, and
    of its decimal string, return that integer.  At infinity the two
    differ: [numberParse] returns infinity, [intParse] returns [NaN]. *)
Theorem parse_integer_fixed w z :
  (Z.abs z < 2 ^ 53)%Z ->
  intParse (num z) w = (Ok (num z), w) /\
  numberParse (num z) w = (Ok (num z), w) /\
  intParse (VStr (integerToString z)) w = (Ok (num z), w) /\
  numberParse (VStr (integerToString z)) w = (Ok (num z), w) /\
  numberParse (VNum (S754_infinity false)) w = (Ok (VNum (S754_infinity false)), w) /\
  intParse (VNum (S754_infinity false)) w = (Ok (VNum NaN), w).
Proof.
  intros Hz.
  assert (Hsign : of_Z z (z <? 0)%Z = of_Z z false).
  { destruct (Z.eq_dec z 0%Z) as [->|Hne]; [reflexivity|]. apply of_Z_sign. exact Hne. }
  unfold intParse, numberParse, num. pstep.
  rewrite (numberToString_of_Z z false Hz). cbn [obind].
  rewrite parseInt_integerToString, parseFloat_integerToString, Hsign.
  repeat split.
Qed.

(** *** The registry *)

(** X24. A call of [registerPropertyType], whether it registers the type
    or throws, leaves every entry that is in the registry as it is, and
    changes nothing but the registry: a registered type cannot be replaced
    or removed through it. *)
Theorem register_keeps_entries w type defaultValue parse' stringify' equals' cacheable :
  let w' := snd (registerPropertyType type defaultValue parse' stringify' equals'
                   cacheable w) in
  (forall name d, propertyTypes w !! name = Some d -> propertyTypes w' !! name = Some d) /\
  (forall name, name <> type -> propertyTypes w' !! name = propertyTypes w !! name) /\
  store w' = store w /\ document w' = document w /\ warned w' = warned w.
Proof.
  intros w'. unfold w', registerPropertyType. pstep.
  destruct (inPropertyTypes type (propertyTypes w)) eqn:E; cbn -[lookup insert].
  - repeat split; auto.
  - split; [|split; [|repeat split]].
    + intros name d Hd. rewrite lookup_insert_ne; [exact Hd|]. intros ->.
      unfold inPropertyTypes in E. apply orb_false_elim in E as [E _].
      apply bool_decide_eq_false in E. apply E. eauto.
    + intros name Hne. apply lookup_insert_ne. congruence.
Qed.

(** X25. The registry is a plain object, and [in] finds what it inherits:
    a type named as a property of [Object.prototype], such as [toString] or
    [constructor], is rejected as already registered by every call, also
    the first one on the empty registry. *)
Theorem register_inherited_name w type defaultValue parse' stringify' equals' cacheable :
  type ∈ objectPrototypeKeys ->
  inPropertyTypes type ∅ = true /\
  registerPropertyType type defaultValue parse' stringify' equals' cacheable w =
    (Throw (alreadyRegistered type), w).
Proof.
  intros Hin.
  assert (E : forall r, inPropertyTypes type r = true).
  { intros r. unfold inPropertyTypes. apply orb_true_intro. right.
    apply existsb_exists. exists type. split; [|apply String.eqb_refl].
    apply list_elem_of_In. exact Hin. }
  split; [apply E|]. unfold registerPropertyType. pstep. rewrite E. reflexivity.
Qed.

(** *** Default values *)

(** X26. The default value each built-in type is registered with is a
    valid default of that type: [isValidDefaultValue] accepts it, for every
    entry of the registry of the loaded module. *)
Theorem builtin_defaults_valid name d :
  propertyTypes builtinWorld !! name = Some d ->
  isValidDefaultValue (store builtinWorld) name (dflt d) = Ok true.
Proof.
  intros H. rewrite builtin_descriptors in H. apply elem_of_list_to_map_2 in H.
  repeat (apply elem_of_cons in H as [H|H];
          [injection H as -> ->; vm_compute; reflexivity|]).
  apply elem_of_nil in H. contradiction.
Qed.

Lemma eqb_other (type name : string) : type <> name -> String.eqb type name = false.
Proof. intros H. apply String.eqb_neq. exact H. Qed.

(** X27. For the types that are not vectors [isValidDefaultValue] decides
    by the kind of the value alone, without an exception: a string for
    audio, asset, color, map, model, src and string; a number, of any
    value, for int, number and time; a boolean for boolean; an array for
    array; a string or [null] for selector and selectorAll.  A type name
    that is not built in is valid with any default. *)
Theorem isValidDefaultValue_by_kind h type v :
  (type ∈ ["audio"; "asset"; "color"; "map"; "model"; "src"; "string"] ->
     isValidDefaultValue h type v = Ok (String.eqb (typeof v) "string")) /\
  (type ∈ ["int"; "number"; "time"] ->
     isValidDefaultValue h type v = Ok (isNumber v)) /\
  (type = "boolean" ->
     isValidDefaultValue h type v = Ok (String.eqb (typeof v) "boolean")) /\
  (type = "array" -> isValidDefaultValue h type v = Ok (isArray h v)) /\
  (type ∈ ["selector"; "selectorAll"] ->
     isValidDefaultValue h type v =
       Ok (String.eqb (typeof v) "string" || strict_eq v VNull)) /\
  (type ∉ builtinNames -> isValidDefaultValue h type v = Ok true).
Proof.
  assert (Hcases : forall (names : list string) (P : string -> Prop),
            Forall P names -> forall t, t ∈ names -> P t).
  { intros names P HP t Ht. exact (proj1 (Forall_forall _ _) HP t Ht). }
  split; [|split; [|split; [|split; [|split]]]].
  - apply (Hcases _ (fun t => isValidDefaultValue h t v = Ok (String.eqb (typeof v) "string"))).
    repeat constructor; destruct v; reflexivity.
  - apply (Hcases _ (fun t => isValidDefaultValue h t v = Ok (isNumber v))).
    repeat constructor; destruct v; reflexivity.
  - intros ->. destruct v; reflexivity.
  - intros ->. unfold isValidDefaultValue. cbn -[isArray]. destruct (isArray h v); reflexivity.
  - apply (Hcases _ (fun t => isValidDefaultValue h t v =
                                Ok (String.eqb (typeof v) "string" || strict_eq v VNull))).
    repeat constructor; destruct v; reflexivity.
  - intros Hnot. unfold isValidDefaultValue.
    assert (Hne : forall name, name ∈ builtinNames -> String.eqb type name = false).
    { intros name Hname. apply eqb_other. intros ->. exact (Hnot Hname). }
    unfold builtinNames in Hne.
    rewrite !Hne by (repeat first [apply list_elem_of_here | apply list_elem_of_further]).
    reflexivity.
Qed.

(** *** Selectors *)

(** [getElementById] finds the first element of the document, in document
    order, that has the id. *)
Lemma firstWithId_spec h id : forall doc,
  (firstWithId h doc id = VNull /\ Forall (lacksId h id) doc) \/
  (exists l tag attrs pre post,
     firstWithId h doc id = VRef l /\ doc = pre ++ l :: post /\
     h !! l = Some (OElement tag attrs) /\ attribute attrs "id" = Some id /\
     Forall (lacksId h id) pre).
Proof.
  induction doc as [|l doc IH]; [left; split; [reflexivity|constructor]|].
  assert (Hskip : lacksId h id l -> firstWithId h (l :: doc) id = firstWithId h doc id ->
    (firstWithId h (l :: doc) id = VNull /\ Forall (lacksId h id) (l :: doc)) \/
    (exists l0 tag attrs pre post,
       firstWithId h (l :: doc) id = VRef l0 /\ l :: doc = pre ++ l0 :: post /\
       h !! l0 = Some (OElement tag attrs) /\ attribute attrs "id" = Some id /\
       Forall (lacksId h id) pre)).
  { intros Hl E. rewrite E.
    destruct IH as [[E0 Hall]|(l0 & tag & attrs & pre & post & E0 & -> & H1 & H2 & Hpre)].
    - left. split; [exact E0|]. constructor; assumption.
    - right. exists l0, tag, attrs, (l :: pre), post. repeat split; try assumption.
      constructor; assumption. }
  destruct (h !! l) as [[items|props|tag attrs|props inherited]|] eqn:El;
    try (apply Hskip; [intros tag' attrs' H; rewrite El in H; discriminate
                      |cbn [firstWithId]; rewrite El; reflexivity]).
  destruct (attribute attrs "id") as [i|] eqn:Ei.
  - destruct (String.eqb_spec i id) as [->|Hne].
    + right. exists l, tag, attrs, [], doc. cbn [firstWithId]. rewrite El, Ei, String.eqb_refl.
      repeat split. constructor.
    + apply Hskip.
      * intros tag' attrs' H. rewrite El in H. injection H as <- <-. rewrite Ei.
        intros [= E]. contradiction.
      * cbn [firstWithId]. rewrite El, Ei. apply String.eqb_neq in Hne. rewrite Hne.
        reflexivity.
  - apply Hskip.
    + intros tag' attrs' H. rewrite El in H. injection H as <- <-. rewrite Ei. discriminate.
    + cbn [firstWithId]. rewrite El, Ei. reflexivity.
Qed.

Lemma selectorParse_id_run querySelectorAll w i :
  nonCharRegex_test i = false ->
  selectorParse querySelectorAll (VStr (String "#" i)) w =
    (Ok (if String.eqb i "" then VNull else firstWithId (store w) (document w) i), w).
Proof.
  intros Hnc. unfold selectorParse. cbn [truthy negb charAt0 substring1 nonCharRegex_test].
  change (String.eqb "#" "") with false. change (isNonChar "#") with false.
  cbn [negb orb]. rewrite Hnc. reflexivity.
Qed.

(** X28. For a string [#id] whose id holds none of the characters
    [,> .[]:], [selectorParse] does not ask the selector engine: whatever
    the engine is, it returns what [getElementById] finds, which is the
    first element of the document, in document order, that has the id, or
    [null] when there is none or the id is empty; it changes nothing. *)
Theorem selectorParse_by_id w i :
  nonCharRegex_test i = false ->
  exists r,
    (forall querySelectorAll,
       selectorParse querySelectorAll (VStr (String "#" i)) w = (Ok r, w)) /\
    ((r = VNull /\ (i = "" \/ Forall (lacksId (store w) i) (document w))) \/
     (exists l tag attrs pre post,
        r = VRef l /\ document w = pre ++ l :: post /\
        store w !! l = Some (OElement tag attrs) /\ attribute attrs "id" = Some i /\
        Forall (lacksId (store w) i) pre)).
Proof.
  intros Hnc.
  eexists. split; [intros q; apply (selectorParse_id_run q w i Hnc)|].
  destruct (String.eqb_spec i "") as [->|Hne]; [left; auto|].
  destruct (firstWithId_spec (store w) i (document w))
    as [[E Hall]|(l & tag & attrs & pre & post & E & Hdoc & Hl & Hi & Hpre)]; rewrite E.
  - left. auto.
  - right. exists l, tag, attrs, pre, post. auto.
Qed.

(** X29. [selectorAllParse] of a selector gives a new array on every
    call: its location was not in use, what was in the store stays, and its
    items are the elements the document yields.  So the result is never
    [===] to an array held before, [defaultEquals] returns [false] for
    them, while [arrayEquals] returns [true] when the array held has the
    same elements. *)
Theorem selectorAllParse_new_array
    (querySelectorAll : heap -> list loc -> string -> outcome (list loc))
    w s ls (a : loc) :
  s <> "" -> querySelectorAll (store w) (document w) s = Ok ls ->
  store w !! a = Some (OArray (VRef <$> ls)) ->
  exists l w',
    selectorAllParse querySelectorAll (VStr s) w = (Ok (VRef l), w') /\
    store w !! l = None /\ storeGrows w w' /\
    resultItems (Ok (VRef l), w') = Some (VRef <$> ls) /\
    defaultEquals (VRef l) (VRef a) w' = (Ok (VBool false), w') /\
    arrayEquals (VRef l) (VRef a) w' = (Ok (VBool true), w').
Proof.
  intros Hs Hq Ha.
  destruct (new_array (VRef <$> ls) w) as (l & Enew & Hl & Hgrows).
  set (w' := set_store (<[l := OArray (VRef <$> ls)]> (store w)) w) in *.
  assert (Hla : l <> a) by (intros E; rewrite E in Hl; congruence).
  assert (Hl' : store w' !! l = Some (OArray (VRef <$> ls))).
  { cbn -[lookup insert]. apply lookup_insert_eq. }
  assert (Ha' : store w' !! a = Some (OArray (VRef <$> ls))) by (apply Hgrows; exact Ha).
  exists l, w'. split; [|split; [exact Hl|split; [exact Hgrows|split; [|split]]]].
  - unfold selectorAllParse, document_querySelectorAll.
    cbn [truthy negb]. apply String.eqb_neq in Hs. rewrite Hs. cbn [negb].
    unfold mbind, M_bind, bind. rewrite Hq. exact Enew.
  - unfold resultItems. rewrite Hl'. reflexivity.
  - unfold defaultEquals. pstep. apply Pos.eqb_neq in Hla. rewrite Hla. reflexivity.
  - unfold arrayEquals, withStore. cbn [isArray]. rewrite Hl', Ha'.
    cbn [negb orb]. rewrite Nat.eqb_refl. cbn [negb].
    pose proof (itemsEqualFrom_refs [] ls) as E.
    change ([] ++ (VRef <$> ls)) with (VRef <$> ls) in E.
    change (length (@nil value)) with 0%nat in E.
    rewrite E. reflexivity.
Qed.

(** X30. An element without an id is written by [selectorStringify] as
    [#null], the string form of the [null] that [getAttribute] returns.
    Reading that string back with [selectorParse] never gives the element:
    it gives the first element whose id is [null], or [null]. *)
Theorem selectorStringify_without_id w (l : loc) tag attrs :
  store w !! l = Some (OElement tag attrs) -> attribute attrs "id" = None ->
  selectorStringify (VRef l) w = (Ok (VStr "#null"), w) /\
  forall querySelectorAll,
    exists r, selectorParse querySelectorAll (VStr "#null") w = (Ok r, w) /\ r <> VRef l.
Proof.
  intros Hl Hid. split.
  - unfold selectorStringify. pstep. rewrite Hl. cbn -[lookup insert].
    rewrite (getAttribute_element _ l tag attrs "id" Hl).
    unfold attributeValue. rewrite Hid. reflexivity.
  - intros q. eexists. split; [apply (selectorParse_id_run q w "null"); reflexivity|].
    change (String.eqb "null" "") with false. cbv iota.
    destruct (firstWithId_spec (store w) "null" (document w))
      as [[E _]|(l0 & tag0 & attrs0 & _ & _ & E & _ & Hl0 & Hi0 & _)]; rewrite E.
    + discriminate.
    + intros [= ->]. rewrite Hl in Hl0. injection Hl0 as <- <-. congruence.
Qed.

End PropertyTypesFurther.

(* ===================================================================== *)
(** * Part V: the further properties at sample inputs                      *)
(* ===================================================================== *)

Section TrackedControlsFurtherSamples.
Import JS TrackedControls.

Lemma wellFormed_ready : wellFormed ready.
Proof. apply wellFormed_withController, wellFormed_init. Qed.

Lemma steady_atRest : steady atRest.
Proof.
  split.
  - apply Forall_cons. split; [repeat split|apply Forall_nil; exact I].
  - repeat (apply Forall_cons; split; [reflexivity|]). apply Forall_nil. exact I.
Qed.

(** [updateButtons_keeps_wellFormed] on the component after [init]. *)
Lemma updateButtons_keeps_wellFormed_witness :
  wellFormed ready /\
  exists s', updateButtons ready = (Ok tt, s') /\ wellFormed s' /\ sameBindings ready s'.
Proof.
  split; [exact wellFormed_ready|].
  exact (updateButtons_keeps_wellFormed ready wellFormed_ready).
Defined.

(** [updateButtons_state_identity] on the component after [init], for the
    button of the gamepad at rest. *)
Lemma updateButtons_state_identity_witness :
  wellFormed ready /\
  exists l d ps,
    buttonReady (snd (updateButtons ready)) 0 l d ps /\
    getProp (store (snd (updateButtons ready))) (VRef d) "state" = Ok (VRef l).
Proof.
  split; [exact wellFormed_ready|].
  destruct (updateButtons_state_identity ready (gripController atRest) atRest
              wellFormed_ready eq_refl eq_refl) as (_ & _ & Hseen & _).
  exact (Hseen 0 _ eq_refl).
Defined.

Lemma wellFormed_readyWith g : wellFormed (readyWith g).
Proof. apply wellFormed_withController, wellFormed_init. Qed.

Lemma axesReady_readyWith g :
  axesReady (readyWith g) 1%positive 2%positive 3%positive [num 0; num 0; num 0].
Proof.
  unfold axesReady. repeat split; try discriminate; try (vm_compute; reflexivity).
  exists []. vm_compute. reflexivity.
Qed.

(** [updateButtons_records_readings] on the component after [init]: with a
    gamepad whose button is pressed, touched and at 0.5 and whose first
    axis is at 0.3, and with a gamepad of two axes at rest, which leaves the
    three stored items. *)
Lemma updateButtons_records_readings_witness :
  wellFormed (readyWith pressedMoved) /\
  axesReady (readyWith pressedMoved) 1%positive 2%positive 3%positive
    [num 0; num 0; num 0] /\
  storedButtonState (snd (updateButtons (readyWith pressedMoved))) 0 =
    Ok (VBool true, VBool true, VNum num_0_5) /\
  storedAxis (snd (updateButtons (readyWith pressedMoved))) = Ok [VNum num_0_3; num 0] /\
  storedAxis (snd (updateButtons (readyWith twoAxes))) = Ok [num 0; num 0; num 0].
Proof.
  split; [exact (wellFormed_readyWith pressedMoved)|].
  split; [exact (axesReady_readyWith pressedMoved)|].
  destruct (updateButtons_records_readings (readyWith pressedMoved)
              (gripController pressedMoved) pressedMoved _ _ _ _
              (wellFormed_readyWith pressedMoved) eq_refl eq_refl
              (axesReady_readyWith pressedMoved)) as (Hb & Ha & _).
  destruct (updateButtons_records_readings (readyWith twoAxes)
              (gripController twoAxes) twoAxes _ _ _ _
              (wellFormed_readyWith twoAxes) eq_refl eq_refl
              (axesReady_readyWith twoAxes)) as (_ & Ha2 & _).
  split; [rewrite (Hb 0 halfPressed eq_refl); vm_compute; reflexivity|].
  split; [rewrite Ha; vm_compute; reflexivity|].
  rewrite Ha2. vm_compute. reflexivity.
Defined.

(** [updateButtons_twice_silent] on the component after [init], with the
    gamepad at rest. *)
Lemma updateButtons_twice_silent_witness :
  wellFormed ready /\ steady atRest /\
  emitted (snd (updateButtons (snd (updateButtons ready)))) =
    emitted (snd (updateButtons ready)).
Proof.
  split; [exact wellFormed_ready|]. split; [exact steady_atRest|].
  destruct (updateButtons_twice_silent ready (gripController atRest) atRest
              wellFormed_ready eq_refl eq_refl steady_atRest) as (_ & He & _).
  exact He.
Defined.

(** [handleButton_NaN_always_changed] on the started component, with a
    reading whose value is [NaN]. *)
Lemma handleButton_NaN_always_changed_witness :
  buttonReady started 0 4%positive 5%positive released /\
  exists s1 s2,
    handleButton 0 nanButton started = (Ok true, s1) /\
    handleButton 0 nanButton s1 = (Ok true, s2).
Proof.
  assert (Hready : buttonReady started 0 4%positive 5%positive released).
  { unfold buttonReady. repeat split; try (vm_compute; reflexivity). discriminate. }
  split; [exact Hready|].
  destruct (handleButton_NaN_always_changed started 0 nanButton 4%positive 5%positive
              released Hready eq_refl) as (s1 & s2 & _ & E1 & _ & _ & _ & E2 & _).
  exists s1, s2. split; assumption.
Defined.

(** [handlers_need_setup] on a component before [init]. *)
Lemma handlers_need_setup_witness :
  buttonStates blank !! 0 = None /\ controller blank = None /\
  handleButton 0 halfPressed blank = (Throw TypeError, blank) /\
  handleAxes blank = (Throw TypeError, blank).
Proof.
  split; [reflexivity|]. split; [reflexivity|].
  destruct (handlers_need_setup blank 0 halfPressed eq_refl eq_refl) as (H1 & H2 & _).
  split; assumption.
Defined.

(** [tick_with_pose] on the started component in a scene whose frame yields
    the pose of a translation. *)
Lemma tick_with_pose_witness :
  let s := withFrame (Some poseFrame) (VStr "local") started in
  controller s = Some (gripController atRest) /\
  frame s = Some poseFrame /\
  position (object3D (snd (tick translationOf s))) =
    [of_Z 1 false; of_Z 2 false; of_Z 3 false] /\
  visible (object3D (snd (tick translationOf s))) = VBool true.
Proof.
  intros s.
  destruct (tick_with_pose translationOf s (gripController atRest) poseFrame shiftedPose
              eq_refl eq_refl eq_refl eq_refl eq_refl) as (_ & _ & _ & Hd & Hv).
  split; [reflexivity|]. split; [reflexivity|]. split.
  - transitivity (fst (fst (translationOf (transform_matrix shiftedPose))));
      [rewrite <- Hd; reflexivity|vm_compute; reflexivity].
  - rewrite Hv. vm_compute. reflexivity.
Defined.

(** A component given another frame, controller and transform has the
    buttons, the axes and the store it had. *)
Lemma wellFormed_dressed s f r c p :
  wellFormed s ->
  wellFormed (withFrame f r (withController c (posed translationOf p s))).
Proof.
  intros Hwf.
  destruct (wellFormed_fields s
              (withFrame f r (withController c (posed translationOf p s))))
    as (H & _); try reflexivity.
  exact (H Hwf).
Qed.

Lemma wellFormed_lostPose : wellFormed lostPose.
Proof.
  destruct (updateButtons_run ready (gripController atRest) atRest
              wellFormed_ready eq_refl eq_refl) as (s' & E & Hwf & _).
  assert (Es : started = s') by (unfold started; fold ready; rewrite E; reflexivity).
  rewrite <- Es in Hwf. unfold lostPose. apply wellFormed_dressed. exact Hwf.
Qed.

Lemma axesReady_lostPose :
  axesReady lostPose 1%positive 2%positive 3%positive [num 0; num 0; num 0].
Proof.
  unfold axesReady. repeat split; try discriminate; try (vm_compute; reflexivity).
  eexists. vm_compute. reflexivity.
Qed.

(** [tick_without_pose] on the started component, its transform that of a
    translation, in a scene whose frame has no pose, with the button now
    pressed, touched and at 0.5 and the first axis at 0.3: the position
    stays, the four events are dispatched, and the readings are stored. *)
Lemma tick_without_pose_witness :
  controller lostPose = Some (gripController pressedMoved) /\
  frame lostPose = Some noPoseFrame /\
  wellFormed lostPose /\
  position (object3D lostPose) = [of_Z 1 false; of_Z 2 false; of_Z 3 false] /\
  position (object3D (snd (tick translationOf lostPose))) =
    [of_Z 1 false; of_Z 2 false; of_Z 3 false] /\
  fst (tick translationOf lostPose) = Ok tt /\
  map ev_name (emitted (snd (tick translationOf lostPose))) =
    [EVENTS.BUTTONDOWN; EVENTS.TOUCHSTART; EVENTS.BUTTONCHANGED; EVENTS.AXISMOVE] /\
  storedButtonState (snd (tick translationOf lostPose)) 0 =
    Ok (VBool true, VBool true, VNum num_0_5) /\
  storedAxis (snd (tick translationOf lostPose)) = Ok [VNum num_0_3; num 0].
Proof.
  destruct (tick_without_pose translationOf lostPose (gripController pressedMoved)
              noPoseFrame eq_refl eq_refl eq_refl eq_refl eq_refl)
    as (_ & _ & _ & Hpos & _ & _ & Hfull).
  destruct (Hfull pressedMoved _ _ _ _ wellFormed_lostPose eq_refl axesReady_lostPose)
    as (Hret & Hnames & Hb & Ha & _).
  split; [reflexivity|]. split; [reflexivity|]. split; [exact wellFormed_lostPose|].
  split; [vm_compute; reflexivity|].
  split; [rewrite Hpos; vm_compute; reflexivity|].
  split; [exact Hret|].
  split; [rewrite Hnames; vm_compute; reflexivity|].
  split; [rewrite (Hb 0 halfPressed eq_refl); vm_compute; reflexivity|].
  rewrite Ha. vm_compute. reflexivity.
Defined.

(** [first_sight_from_released] on the component after [init], for a
    first reading of button 0 pressed, touched and at 0.5. *)
Lemma first_sight_from_released_witness :
  wellFormed (snd (init blank)) /\ buttonStates (snd (init blank)) !! 0 = None /\
  map ev_name (emitted (snd (checkButtons [halfPressed] 0 (snd (init blank))))) =
    [EVENTS.BUTTONDOWN; EVENTS.TOUCHSTART; EVENTS.BUTTONCHANGED].
Proof.
  split; [exact (wellFormed_init blank)|]. split; [reflexivity|].
  destruct (first_sight_from_released (snd (init blank)) 0 halfPressed
              (wellFormed_init blank) eq_refl) as (_ & _ & Hnames).
  rewrite Hnames. vm_compute. reflexivity.
Defined.

End TrackedControlsFurtherSamples.

Section PropertyTypesFurtherSamples.
Import JS PropertyTypes.

Lemma sampleWorld_strings :
  store sampleWorld !! 13%positive = Some (OArray [VStr "a"; VStr "b c"]).
Proof. vm_compute. reflexivity. Qed.

Lemma sampleWorld_elements :
  store sampleWorld !! 12%positive = Some (OArray (VRef <$> [10%positive; 11%positive])).
Proof. vm_compute. reflexivity. Qed.

Lemma sampleWorld_image :
  store sampleWorld !! 10%positive = Some (OElement "IMG" [("id", "a"); ("src", "a.png")]).
Proof. vm_compute. reflexivity. Qed.

(** [arrayEquals_items] on the array of two strings of the sample world,
    compared with itself. *)
Lemma arrayEquals_items_witness :
  store sampleWorld !! 13%positive = Some (OArray [VStr "a"; VStr "b c"]) /\
  exists r,
    arrayEquals (VRef 13%positive) (VRef 13%positive) sampleWorld =
      (Ok (VBool r), sampleWorld) /\
    (r = true <->
     length [VStr "a"; VStr "b c"] = length [VStr "a"; VStr "b c"] /\
     forall j x y, [VStr "a"; VStr "b c"] !! j = Some x ->
       [VStr "a"; VStr "b c"] !! j = Some y -> strict_eq x y = true).
Proof.
  split; [exact sampleWorld_strings|].
  exact (arrayEquals_items sampleWorld 13%positive 13%positive _ _
           sampleWorld_strings sampleWorld_strings).
Defined.

(** [arrayParse_stringify_parse] on the string "a, b ,c". *)
Lemma arrayParse_stringify_parse_witness :
  "a, b ,c" <> "" /\ map trim (split "," "a, b ,c") <> [""] /\
  exists r w1 r' w2,
    arrayParse (VStr "a, b ,c") emptyWorld = (Ok r, w1) /\
    arrayStringify r w1 = (Ok (VStr "a, b, c"), w1) /\
    arrayParse (VStr "a, b, c") w1 = (Ok r', w2) /\
    arrayEquals r' r w2 = (Ok (VBool true), w2).
Proof.
  assert (H1 : "a, b ,c" <> "") by discriminate.
  assert (H2 : map trim (split "," "a, b ,c") <> [""]) by (vm_compute; discriminate).
  split; [exact H1|]. split; [exact H2|].
  destruct (arrayParse_stringify_parse emptyWorld "a, b ,c" H1 H2)
    as (r & w1 & r' & w2 & E1 & _ & E2 & E3 & _ & E4).
  exists r, w1, r', w2. repeat split; assumption.
Defined.

(** [assetParse_url] on the wrapped address of an image. *)
Lemma assetParse_url_witness :
  "a.png" <> "" /\ lineRun "a.png" = "a.png" /\
  assetParse (VStr "url(a.png)") emptyWorld = (Ok (VStr "a.png"), emptyWorld).
Proof.
  assert (H1 : "a.png" <> "") by discriminate.
  split; [exact H1|]. split; [reflexivity|].
  exact (proj1 (assetParse_url emptyWorld "a.png" H1 eq_refl)).
Defined.

(** [assetStringify_element] on the image of the sample world. *)
Lemma assetStringify_element_witness :
  store sampleWorld !! 10%positive = Some (OElement "IMG" [("id", "a"); ("src", "a.png")]) /\
  assetStringify (VRef 10%positive) sampleWorld = (Ok (VStr "#a"), sampleWorld) /\
  assetParse (VStr "#a") sampleWorld = (Ok (VRef 10%positive), sampleWorld).
Proof.
  split; [exact sampleWorld_image|].
  destruct (assetStringify_element sampleWorld 10%positive _ _ sampleWorld_image)
    as (Hid & _).
  destruct (Hid "a" eq_refl ltac:(discriminate)) as (Hwrite & Hread).
  split; [exact Hwrite|].
  apply Hread; [reflexivity|vm_compute; reflexivity].
Defined.

(** [assetParse_missing] for an id that no element of the sample world
    has. *)
Lemma assetParse_missing_witness :
  urlRegex_match "#zz" = None /\
  firstWithId (store sampleWorld) (document sampleWorld) "zz" = VNull /\
  fst (assetParse (VStr "#zz") sampleWorld) = Ok VUndefined /\
  warned (snd (assetParse (VStr "#zz") sampleWorld)) = [assetNotFound "#zz"].
Proof.
  assert (H : firstWithId (store sampleWorld) (document sampleWorld) "zz" = VNull)
    by (vm_compute; reflexivity).
  split; [reflexivity|]. split; [exact H|].
  rewrite (assetParse_missing sampleWorld "zz" eq_refl (or_intror H)).
  split; reflexivity.
Defined.

(** [intParse_leading_integer] on " 42px". *)
Lemma intParse_leading_integer_witness :
  trimStart " " = "" /\ spanDigits "px" = ([], "px") /\
  intParse (VStr " 42px") emptyWorld = (Ok (num 42), emptyWorld).
Proof.
  split; [reflexivity|]. split; [reflexivity|].
  exact (intParse_leading_integer emptyWorld " " 42 "px" eq_refl eq_refl).
Defined.

(** [parse_integer_fixed] at 42. *)
Lemma parse_integer_fixed_witness :
  (Z.abs 42 < 2 ^ 53)%Z /\
  intParse (num 42) emptyWorld = (Ok (num 42), emptyWorld) /\
  numberParse (num 42) emptyWorld = (Ok (num 42), emptyWorld).
Proof.
  assert (H : (Z.abs 42 < 2 ^ 53)%Z) by reflexivity.
  split; [exact H|].
  destruct (parse_integer_fixed emptyWorld 42 H) as (H1 & H2 & _).
  split; assumption.
Defined.

(** [register_inherited_name] for a type named [toString], in the empty
    registry. *)
Lemma register_inherited_name_witness :
  "toString" ∈ objectPrototypeKeys /\
  registerPropertyType "toString" (VStr "") VUndefined VUndefined VUndefined VUndefined
    emptyWorld = (Throw (alreadyRegistered "toString"), emptyWorld).
Proof.
  assert (H : "toString" ∈ objectPrototypeKeys).
  { unfold objectPrototypeKeys.
    repeat first [apply list_elem_of_here | apply list_elem_of_further]. }
  split; [exact H|].
  exact (proj2 (register_inherited_name emptyWorld "toString" (VStr "") VUndefined
                  VUndefined VUndefined VUndefined H)).
Defined.

(** [builtin_defaults_valid] for the int type. *)
Lemma builtin_defaults_valid_witness :
  propertyTypes builtinWorld !! "int" =
    Some {| dflt := num 0; parse := VFun FintParse; stringify := VFun FdefaultStringify;
            equals := VFun FdefaultEquals; isCacheable := true |} /\
  isValidDefaultValue (store builtinWorld) "int" (num 0) = Ok true.
Proof.
  assert (H : propertyTypes builtinWorld !! "int" =
    Some {| dflt := num 0; parse := VFun FintParse; stringify := VFun FdefaultStringify;
            equals := VFun FdefaultEquals; isCacheable := true |})
    by (vm_compute; reflexivity).
  split; [exact H|].
  exact (builtin_defaults_valid "int" _ H).
Defined.

(** [selectorParse_by_id] for the id of the image of the sample world. *)
Lemma selectorParse_by_id_witness :
  nonCharRegex_test "a" = false /\
  exists r, forall querySelectorAll,
    selectorParse querySelectorAll (VStr "#a") sampleWorld = (Ok r, sampleWorld).
Proof.
  split; [reflexivity|].
  destruct (selectorParse_by_id sampleWorld "a" eq_refl) as (r & Hr & _).
  exists r. exact Hr.
Defined.

(** [selectorAllParse_new_array] for the two elements of the sample world,
    and the array of both held in its store. *)
Lemma selectorAllParse_new_array_witness :
  "#a, #b" <> "" /\
  sampleQuery (store sampleWorld) (document sampleWorld) "#a, #b" =
    Ok [10%positive; 11%positive] /\
  exists l w',
    selectorAllParse sampleQuery (VStr "#a, #b") sampleWorld = (Ok (VRef l), w') /\
    defaultEquals (VRef l) (VRef 12%positive) w' = (Ok (VBool false), w') /\
    arrayEquals (VRef l) (VRef 12%positive) w' = (Ok (VBool true), w').
Proof.
  assert (H1 : "#a, #b" <> "") by discriminate.
  split; [exact H1|]. split; [reflexivity|].
  destruct (selectorAllParse_new_array sampleQuery sampleWorld "#a, #b"
              [10%positive; 11%positive] 12%positive H1 eq_refl sampleWorld_elements)
    as (l & w' & E & _ & _ & _ & Hd & Ha).
  exists l, w'. repeat split; assumption.
Defined.

(** [selectorStringify_without_id] on the element of a document that has
    no id. *)
Lemma selectorStringify_without_id_witness :
  store anonWorld !! 20%positive = Some (OElement "A-ENTITY" [("class", "box")]) /\
  selectorStringify (VRef 20%positive) anonWorld = (Ok (VStr "#null"), anonWorld).
Proof.
  assert (H : store anonWorld !! 20%positive = Some (OElement "A-ENTITY" [("class", "box")]))
    by (vm_compute; reflexivity).
  split; [exact H|].
  exact (proj1 (selectorStringify_without_id anonWorld 20%positive _ _ H eq_refl)).
Defined.

(** [arrayStringify_numbers] on the array [1, 2]. *)
Lemma arrayStringify_numbers_witness :
  store numbersWorld !! 30%positive = Some (OArray (num <$> [1; 2]%Z)) /\
  arrayStringify (VRef 30%positive) numbersWorld = (Ok (VStr "1, 2"), numbersWorld) /\
  exists r w',
    arrayParse (VStr "1, 2") numbersWorld = (Ok r, w') /\
    resultItems (Ok r, w') = Some [VStr "1"; VStr "2"] /\
    arrayEquals r (VRef 30%positive) w' = (Ok (VBool false), w').
Proof.
  assert (H : store numbersWorld !! 30%positive = Some (OArray (num <$> [1; 2]%Z)))
    by (vm_compute; reflexivity).
  assert (Hz : Forall (fun z => (Z.abs z < 2 ^ 53)%Z) [1; 2]%Z)
    by (repeat (apply Forall_cons; split; [reflexivity|]); apply Forall_nil; exact I).
  split; [exact H|].
  destruct (arrayStringify_numbers numbersWorld 30%positive [1; 2]%Z
              ltac:(discriminate) Hz H) as (Hwrite & r & w' & Hread & Hitems & Heq).
  split; [exact Hwrite|]. exists r, w'. repeat split; assumption.
Defined.

End PropertyTypesFurtherSamples.
